(** * A shallow embedding of the task dispatcher, part converter, artifact
      recorder, lifecycle callback hub and execution loop.

    Sources embedded:
    - [src/hosts/multiagent/host_agent.py]   (send_message, convert_parts, convert_part,
                                              register_agent_card, list_remote_agents,
                                              check_state)
    - [src/common/recorder.py]               (Recorder)
    - [src/common/utils.py]                  (save_json, save_yaml, to_dict)
    - [src/common/dialogue_history.py]       (DialogueHistory.append, get_by_id)
    - [src/common/callbacks.py]              (the seven hooks)
    - [src/orchestrator/orchestrator_executor.py] (execute, the callbacks of the executor)
    - [src/orchestrator/orchestrator.py]     (stream)

    Python objects are modelled by the tagged union [pyval]; dictionaries
    that are only looked up by key are [gmap string pyval]; exceptions are
    values of [Exn]; code with effects runs in a state-and-exception monad
    whose state survives a raise, as a mutated Python object does. *)

From Stdlib Require Import ZArith Ascii String List Lia.
From stdpp Require Import base option list strings pretty gmap.

Set Warnings "-register-all,-notation-for-abbreviation".
Local Open Scope string_scope.

(** ** Python values and exceptions *)

Module Py.

(** The dynamically typed values that travel through session state, tool
    arguments, step contents and JSON payloads. [PDict] keeps insertion
    order, as Python dictionaries do.  The values are JSON-like data and
    [bytes]; Python sets and floats are not among them, so nothing below
    speaks of a value that holds one. *)
Inductive pyval : Type :=
| PNone
| PBool (b : bool)
| PInt (z : Z)
| PStr (s : string)
| PBytes (bs : list Z)
| PList (l : list pyval)
| PDict (d : list (string * pyval)).

(** [bool(v)]: the truth value Python's [if v:] and [not v] use. *)
Definition truthy (v : pyval) : bool :=
  match v with
  | PNone => false
  | PBool b => b
  | PInt z => negb (z =? 0)%Z
  | PStr s => negb (String.eqb s "")
  | PBytes bs => match bs with [] => false | _ => true end
  | PList l => match l with [] => false | _ => true end
  | PDict d => match d with [] => false | _ => true end
  end.

(** [d[k]] / [k in d] on an insertion-ordered dictionary. *)
Fixpoint dict_get (k : string) (d : list (string * pyval)) : option pyval :=
  match d with
  | [] => None
  | (k', v) :: d' => if String.eqb k k' then Some v else dict_get k d'
  end.

(** The exceptions the embedded code can raise, by Python class.  The
    argument is the message, or the name the interpreter reports. *)
Inductive Exn : Type :=
| ValueError (msg : string)
| TypeError (msg : string)
| UnboundLocalError (var : string)
| AttributeError (attr : string)
| BinasciiError (msg : string)
| IndexError (msg : string)
| ZeroDivisionError
| JSONDecodeError
| ValidationError (model : string)
| StatementError (orig : string)
| ExternalError (msg : string)
| OSError (cls : string).

(** State-and-exception monad: a raise keeps every mutation made before it. *)
Definition M (W A : Type) : Type := W -> (Exn + A) * W.

Definition ret {W A} (a : A) : M W A := fun w => (inr a, w).
Definition raise {W A} (e : Exn) : M W A := fun w => (inl e, w).
Definition bind {W A B} (m : M W A) (k : A -> M W B) : M W B :=
  fun w => match m w with
           | (inl e, w') => (inl e, w')
           | (inr a, w') => k a w'
           end.
Definition gets {W A} (f : W -> A) : M W A := fun w => (inr (f w), w).
Definition modify {W} (f : W -> W) : M W unit := fun w => (inr tt, f w).

(** [for x in xs: body(x)], stopping at the first raise. *)
Fixpoint for_each {W A} (body : A -> M W unit) (xs : list A) : M W unit :=
  match xs with
  | [] => ret tt
  | x :: xs' => bind (body x) (fun _ => for_each body xs')
  end.

(** [rval = []; for x in xs: rval.append(f(x)); return rval]. *)
Fixpoint map_m {W A B} (f : A -> M W B) (xs : list A) : M W (list B) :=
  match xs with
  | [] => ret []
  | x :: xs' => bind (f x) (fun y => bind (map_m f xs') (fun ys => ret (y :: ys)))
  end.

End Py.

Export Py.

Declare Scope py_scope.
Delimit Scope py_scope with py.
Notation "x <- m ;; k" := (bind m (fun x => k))
  (at level 100, m at next level, right associativity) : py_scope.
Notation "m ;;; k" := (bind m (fun _ => k))
  (at level 100, right associativity) : py_scope.

(** ** [base64.b64decode], as the part converter calls it

    [base64.b64decode(s)] with the default [validate=False]: a [str] must be
    ASCII, then [binascii.a2b_base64] runs in its lenient mode: bytes
    outside the alphabet are skipped, a completed pad sequence ends the
    input, and leftover sextets are an error. *)

Module Base64.

(** [table_a2b_base64]: the sextet of an alphabet character. *)
Definition sextet (c : ascii) : option Z :=
  let n := Z.of_nat (nat_of_ascii c) in
  if ((65 <=? n) && (n <=? 90))%Z then Some (n - 65)%Z
  else if ((97 <=? n) && (n <=? 122))%Z then Some (n - 71)%Z
  else if ((48 <=? n) && (n <=? 57))%Z then Some (n + 4)%Z
  else if (n =? 43)%Z then Some 62%Z
  else if (n =? 47)%Z then Some 63%Z
  else None.

Definition is_pad (c : ascii) : bool := Ascii.eqb c "="%char.

(** The decoding loop: [quad_pos] counts the sextets of the current quad,
    [leftchar] holds the bits not yet emitted, [pads] the pad characters seen
    since the last sextet.  The first error message is given without the
    count of data characters that the interpreter puts into it. *)
Fixpoint a2b_loop (s : string) (quad_pos : nat) (leftchar : Z) (pads : nat)
    (out : list Z) : Exn + list Z :=
  match s with
  | EmptyString =>
      match quad_pos with
      | 0 => inr (rev out)
      | 1 => inl (BinasciiError
          "Invalid base64-encoded string: number of data characters cannot be 1 more than a multiple of 4")
      | _ => inl (BinasciiError "Incorrect padding")
      end
  | String c s' =>
      if is_pad c then
        if ((2 <=? quad_pos) && (4 <=? quad_pos + S pads))%nat then inr (rev out)
        else a2b_loop s' quad_pos leftchar (if (2 <=? quad_pos)%nat then S pads else pads) out
      else
        match sextet c with
        | None => a2b_loop s' quad_pos leftchar pads out
        | Some v =>
            match quad_pos with
            | 0 => a2b_loop s' 1 v 0 out
            | 1 => a2b_loop s' 2 (Z.land v 15) 0
                     (Z.land (Z.lor (Z.shiftl leftchar 2) (Z.shiftr v 4)) 255 :: out)
            | 2 => a2b_loop s' 3 (Z.land v 3) 0
                     (Z.land (Z.lor (Z.shiftl leftchar 4) (Z.shiftr v 2)) 255 :: out)
            | _ => a2b_loop s' 0 0 0
                     (Z.land (Z.lor (Z.shiftl leftchar 6) v) 255 :: out)
            end
        end
  end.

Fixpoint is_ascii_str (s : string) : bool :=
  match s with
  | EmptyString => true
  | String c s' => (nat_of_ascii c <? 128)%nat && is_ascii_str s'
  end.

Definition b64decode (s : string) : Exn + list Z :=
  if is_ascii_str s then a2b_loop s 0 0 0 []
  else inl (ValueError "string argument should contain only ASCII characters").

End Base64.

(** ** The remote-agent protocol types ([a2a.types]), as the dispatcher
       reads them *)

Module A2A.

Inductive TaskState : Type :=
| submitted | working | input_required | completed | canceled | failed | unknown.

#[global] Instance TaskState_eq_dec : EqDecision TaskState.
Proof. solve_decision. Defined.

(** [FilePart.file]: inline base64 content, or a reference by URI (which has
    no [bytes] attribute). *)
Inductive FileObj : Type :=
| FileWithBytes (bytes : string) (mimeType : option string) (name : option string)
| FileWithUri (uri : string) (mimeType : option string) (name : option string).

(** [Part.root]: a closed union of the three part classes, told apart by
    their [kind] literal ('text', 'data', 'file'). *)
Inductive PartRoot : Type :=
| TextPart (text : string)
| DataPart (data : pyval)
| FilePart (file : FileObj).

Record Part : Type := { root : PartRoot }.

Record Message : Type := {
  role : string;
  parts : list Part;
  messageId : pyval;
  msg_contextId : pyval;
  msg_taskId : pyval
}.

Record MessageSendParams : Type := {
  request_id : string;
  message : Message;
  acceptedOutputModes : list string
}.

Record TaskStatus : Type := {
  state : TaskState;
  status_message : option Message
}.

Record Artifact : Type := { artifact_parts : list Part }.

Record Task : Type := {
  id : string;
  contextId : option string;
  status : TaskStatus;
  artifacts : option (list Artifact)
}.

(** What [client.send_message] hands back. *)
Inductive Response : Type :=
| RespTask (task : Task)
| RespMessage (msg : Message).

End A2A.

(** ** The task dispatcher and the part converter ([host_agent.py]) *)

Module HostAgent.
Import A2A.
Local Open Scope py_scope.

(** [google.genai.types.Blob]: the decoded file handed to the artifact
    service. *)
Record Blob : Type := { mime_type : option string; data : list Z }.

(** What [convert_part] returns: a [str], the structured object of a data
    part, or a freshly built [DataPart] object. *)
Inductive retval : Type :=
| RStr (s : string)
| RObj (v : pyval)
| RDataPart (data : pyval).

(** [RemoteAgentConnections]: the handle of one remote agent, observed only
    through its [send_message]. *)
Record RemoteAgentConnections : Type := {
  client_send_message : MessageSendParams -> Response
}.

(** The fields of [HostAgent] that [send_message] reads.  A registered name
    maps to its handle, [None] standing for a null handle. *)
Record HostAgent : Type := {
  remote_agent_connections : gmap string (option RemoteAgentConnections)
}.

Section Dispatcher.

(** [str(uuid.uuid4())]: the n-th draw of the process. *)
Variable uuid4 : nat -> string.

(** The artifact service behind [tool_context.save_artifact]: an external
    capability that either stores the blob or raises. *)
Variable ArtifactStore : Type.
Variable save_artifact : option string -> Blob -> ArtifactStore -> string + ArtifactStore.

(** The tool context of one session ([state], [actions], artifact service),
    the uuid draws made so far and the requests handed to remote clients. *)
Record World : Type := {
  tc_state : gmap string pyval;
  skip_summarization : bool;
  escalate : bool;
  artifact_store : ArtifactStore;
  uuid_draws : nat;
  outbox : list MessageSendParams
}.

Definition set_tc_state (f : gmap string pyval -> gmap string pyval) (w : World) : World :=
  {| tc_state := f (tc_state w); skip_summarization := skip_summarization w;
     escalate := escalate w; artifact_store := artifact_store w;
     uuid_draws := uuid_draws w; outbox := outbox w |}.

Definition set_skip_summarization (b : bool) (w : World) : World :=
  {| tc_state := tc_state w; skip_summarization := b;
     escalate := escalate w; artifact_store := artifact_store w;
     uuid_draws := uuid_draws w; outbox := outbox w |}.

Definition set_escalate (b : bool) (w : World) : World :=
  {| tc_state := tc_state w; skip_summarization := skip_summarization w;
     escalate := b; artifact_store := artifact_store w;
     uuid_draws := uuid_draws w; outbox := outbox w |}.

Definition set_artifact_store (s : ArtifactStore) (w : World) : World :=
  {| tc_state := tc_state w; skip_summarization := skip_summarization w;
     escalate := escalate w; artifact_store := s;
     uuid_draws := uuid_draws w; outbox := outbox w |}.

(** [state[k] = v] *)
Definition state_set (k : string) (v : pyval) : M World unit :=
  modify (set_tc_state (fun st => <[k := v]> st)).

(** [state.get(k, None)] *)
Definition state_get (k : string) : M World pyval :=
  gets (fun w => default PNone (tc_state w !! k)).

(** [str(uuid.uuid4())] *)
Definition new_uuid : M World string :=
  fun w => (inr (uuid4 (uuid_draws w)),
            {| tc_state := tc_state w; skip_summarization := skip_summarization w;
               escalate := escalate w; artifact_store := artifact_store w;
               uuid_draws := S (uuid_draws w); outbox := outbox w |}).

(** [await client.send_message(request, self.task_callback)] *)
Definition client_call (client : RemoteAgentConnections) (request : MessageSendParams)
  : M World Response :=
  fun w => (inr (client_send_message client request),
            {| tc_state := tc_state w; skip_summarization := skip_summarization w;
               escalate := escalate w; artifact_store := artifact_store w;
               uuid_draws := uuid_draws w; outbox := (outbox w ++ [request])%list |}).

(** [await tool_context.save_artifact(file_id, file_part)] *)
Definition tool_context_save_artifact (file_id : option string) (file_part : Blob)
  : M World unit :=
  fun w => match save_artifact file_id file_part (artifact_store w) with
           | inl msg => (inl (ExternalError msg), w)
           | inr s => (inr tt, set_artifact_store s w)
           end.

Definition lift_result {A} (r : Exn + A) : M World A :=
  fun w => (r, w).

Definition opt_str (o : option string) : pyval :=
  match o with Some s => PStr s | None => PNone end.

(** [convert_part].  The part classes form a closed union, so the branches
    on [part.root.kind] are a match on the class; the trailing
    [return f'Unknown type: {part.kind}'] has no part to run on. *)
Definition convert_part (part : Part) : M World retval :=
  match root part with
  | TextPart text => ret (RStr text)
  | DataPart data => ret (RObj data)
  | FilePart file =>
      match file with
      | FileWithUri _ _ _ => raise (AttributeError "bytes")
      | FileWithBytes bytes mimeType name =>
          let file_id := name in
          file_bytes <- lift_result (Base64.b64decode bytes) ;;
          let file_part := {| mime_type := mimeType; data := file_bytes |} in
          tool_context_save_artifact file_id file_part ;;;
          modify (set_skip_summarization true) ;;;
          modify (set_escalate true) ;;;
          ret (RDataPart (PDict [("artifact-file-id", opt_str file_id)]))
      end
  end.

(** [convert_parts] *)
Definition convert_parts (ps : list Part) : M World (list retval) :=
  map_m convert_part ps.

(** The states after which the session is no longer active. *)
Definition inactive_states : list TaskState := [completed; canceled; failed; unknown].

(** A continuation byte of UTF-8. *)
Definition utf8_cont (b : Z) : bool := ((128 <=? b) && (b <=? 191))%Z.

(** Well-formed UTF-8, as Python's strict decoder accepts it: no overlong
    forms, no surrogates, nothing above U+10FFFF. *)
Fixpoint utf8_valid (bs : list Z) : bool :=
  match bs with
  | [] => true
  | b0 :: r0 =>
      if ((0 <=? b0) && (b0 <=? 127))%Z then utf8_valid r0
      else
        match r0 with
        | [] => false
        | b1 :: r1 =>
            if ((194 <=? b0) && (b0 <=? 223))%Z then utf8_cont b1 && utf8_valid r1
            else
              match r1 with
              | [] => false
              | b2 :: r2 =>
                  if (b0 =? 224)%Z then
                    ((160 <=? b1) && (b1 <=? 191))%Z && utf8_cont b2 && utf8_valid r2
                  else if (((225 <=? b0) && (b0 <=? 236)) || ((238 <=? b0) && (b0 <=? 239)))%Z
                  then utf8_cont b1 && utf8_cont b2 && utf8_valid r2
                  else if (b0 =? 237)%Z then
                    ((128 <=? b1) && (b1 <=? 159))%Z && utf8_cont b2 && utf8_valid r2
                  else
                    match r2 with
                    | [] => false
                    | b3 :: r3 =>
                        if (b0 =? 240)%Z then
                          ((144 <=? b1) && (b1 <=? 191))%Z && utf8_cont b2 && utf8_cont b3
                          && utf8_valid r3
                        else if ((241 <=? b0) && (b0 <=? 243))%Z then
                          utf8_cont b1 && utf8_cont b2 && utf8_cont b3 && utf8_valid r3
                        else if (b0 =? 244)%Z then
                          ((128 <=? b1) && (b1 <=? 143))%Z && utf8_cont b2 && utf8_cont b3
                          && utf8_valid r3
                        else false
                    end
              end
        end
  end.

(** [bs.decode('utf-8')]: strings are kept as their UTF-8 bytes. *)
Definition decode_utf8 (bs : list Z) : option string :=
  if utf8_valid bs
  then Some (fold_right (fun b s => String (ascii_of_nat (Z.to_nat b)) s) EmptyString bs)
  else None.

(** A field declared [str], as the model validates its input: a [str]
    passes, a [bytes] object is decoded as UTF-8, any other value is
    refused. *)
Definition str_field (v : pyval) : option pyval :=
  match v with
  | PStr s => Some (PStr s)
  | PBytes bs => option_map PStr (decode_utf8 bs)
  | _ => None
  end.

(** A field declared [str | None]. *)
Definition opt_str_field (v : pyval) : option pyval :=
  match v with
  | PNone => Some PNone
  | _ => str_field v
  end.

(** [Message(role='user', parts=[TextPart(text=message)],
    messageId=..., contextId=..., taskId=...)]: the constructor validates
    the three identifiers and raises [ValidationError] when one of them is
    refused. *)
Definition new_Message (text : string) (messageId contextId taskId : pyval)
  : Exn + Message :=
  match str_field messageId, opt_str_field contextId, opt_str_field taskId with
  | Some m, Some c, Some t =>
      inr {| role := "user";
             parts := [ {| root := TextPart text |} ];
             messageId := m;
             msg_contextId := c;
             msg_taskId := t |}
  | _, _, _ => inl (ValidationError "Message")
  end.

(** [send_message], lines 209-227: the continuation identifiers are read
    from session state, a message id is drawn when the state holds none, the
    request id is drawn, and the request is built around the message, whose
    constructor may refuse the identifiers. *)
Definition build_request (message : string) : M World MessageSendParams :=
  taskId <- state_get "task_id" ;;
  contextId <- state_get "context_id" ;;
  messageId <- state_get "message_id" ;;
  messageId <- (if negb (truthy messageId)
                then (u <- new_uuid ;; ret (PStr u))
                else ret messageId) ;;
  rid <- new_uuid ;;
  msg <- lift_result (new_Message message messageId contextId taskId) ;;
  ret {| request_id := rid;
         message := msg;
         acceptedOutputModes := ["text"; "text/plain"; "image/png"] |}.

(** Lines 233-241: the session state kept for the next turn. *)
Definition update_session (task : Task) : M World unit :=
  state_set "session_active"
    (PBool (negb (bool_decide (state (status task) ∈ inactive_states)))) ;;;
  (match A2A.contextId task with
   | Some c => if negb (String.eqb c "") then state_set "context_id" (PStr c)
               else ret tt
   | None => ret tt
   end) ;;;
  state_set "task_id" (PStr (id task)).

(** Lines 242-251: the branch on the task's state. *)
Definition branch_on_state (agent_name : string) (task : Task) : M World unit :=
  match state (status task) with
  | input_required =>
      modify (set_skip_summarization true) ;;;
      modify (set_escalate true)
  | canceled =>
      raise (ValueError ("Agent " +:+ agent_name +:+ " task " +:+ id task
                         +:+ " is cancelled"))
  | failed =>
      raise (ValueError ("Agent " +:+ agent_name +:+ " task " +:+ id task
                         +:+ " failed"))
  | _ => ret tt
  end.

(** Lines 252-263: the parts of the status message, then of each artifact. *)
Definition collect_response (task : Task) : M World (list retval) :=
  from_status <- (match status_message (status task) with
                  | Some m => convert_parts (parts m)
                  | None => ret []
                  end) ;;
  from_artifacts <- (match artifacts task with
                     | Some arts =>
                         rs <- map_m (fun a => convert_parts (artifact_parts a)) arts ;;
                         ret (concat rs)
                     | None => ret []
                     end) ;;
  ret (from_status ++ from_artifacts)%list.

(** [HostAgent.send_message] *)
Definition send_message (self : HostAgent) (agent_name message : string)
  : M World (list retval) :=
  match remote_agent_connections self !! agent_name with
  | None => raise (ValueError ("Agent " +:+ agent_name +:+ " not found"))
  | Some client =>
      state_set "agent" (PStr agent_name) ;;;
      match client with
      | None => raise (ValueError ("Client not available for " +:+ agent_name))
      | Some client =>
          request <- build_request message ;;
          response <- client_call client request ;;
          match response with
          | RespMessage _ =>
              (* [convert_parts(task.parts, tool_context)]: the local [task] is
                 read before anything was bound to it *)
              raise (UnboundLocalError "task")
          | RespTask task =>
              update_session task ;;;
              branch_on_state agent_name task ;;;
              collect_response task
          end
      end
  end.

End Dispatcher.

Arguments tc_state {ArtifactStore} w.
Arguments skip_summarization {ArtifactStore} w.
Arguments escalate {ArtifactStore} w.
Arguments artifact_store {ArtifactStore} w.
Arguments uuid_draws {ArtifactStore} w.
Arguments outbox {ArtifactStore} w.
Arguments set_tc_state {ArtifactStore} f w.

End HostAgent.

(** ** The artifact recorder ([recorder.py], with [save_json] and
       [save_yaml] of [utils.py]) *)

Module Recorder.
Local Open Scope py_scope.

(** [os.path.join(a, b)] (POSIX). *)
Definition path_join (a b : string) : string :=
  if String.prefix "/" b then b
  else if String.eqb a "" then b
  else if String.eqb (String.substring (String.length a - 1) 1 a) "/" then a +:+ b
  else a +:+ "/" +:+ b.

Definition is_slash (c : ascii) : bool := Ascii.eqb c "/"%char.

Fixpoint has_slash (s : string) : bool :=
  match s with
  | EmptyString => false
  | String c s' => is_slash c || has_slash s'
  end.

Fixpoint all_slash (s : string) : bool :=
  match s with
  | EmptyString => true
  | String c s' => is_slash c && all_slash s'
  end.

(** [p[:p.rfind('/') + 1]] *)
Fixpoint head_raw (p : string) : string :=
  match p with
  | EmptyString => EmptyString
  | String c p' =>
      if has_slash p' then String c (head_raw p')
      else if is_slash c then String c EmptyString
      else EmptyString
  end.

(** [s.rstrip('/')] *)
Fixpoint rstrip_slash (s : string) : string :=
  match s with
  | EmptyString => EmptyString
  | String c s' =>
      if all_slash s' then (if is_slash c then EmptyString else String c EmptyString)
      else String c (rstrip_slash s')
  end.

(** [os.path.dirname(p)] (POSIX): the part before the last separator,
    without trailing separators unless it consists of separators only. *)
Definition dirname (p : string) : string :=
  let head := head_raw p in
  if all_slash head then head else rstrip_slash head.

(** The directories above [p], nearest first: [dirname] applied again and
    again, up to the current directory or the root. *)
Fixpoint ancestors_upto (n : nat) (p : string) : list string :=
  match n with
  | 0 => []
  | S n' =>
      let d := dirname p in
      if String.eqb d "" || String.eqb d p then [] else d :: ancestors_upto n' d
  end.

Definition ancestors (p : string) : list string := ancestors_upto (String.length p) p.

Record Recorder : Type := {
  last_formatted_time : option string;
  idx : nat;
  tags : string;
  max : nat;
  root : string
}.

(** [Recorder.__init__], given the directory computed from the clock. *)
Definition init (root0 : string) : Recorder :=
  let tags0 := "0123456789ABCDEFGHIJKLMNOPQRSTUVWXYZabcdefghijklmnopqrstuvwxyz" in
  {| last_formatted_time := None; idx := 0; tags := tags0;
     max := String.length tags0; root := root0 |}.

(** What a recorded file holds.  The serialisers are external, so a file is
    kept as the value that was serialised into it; [Truncated] is a file
    that was opened for writing and never written. *)
Inductive content : Type :=
| Truncated
| Text (text : string)
| Image (image : pyval)
| Yaml (obj : pyval)
| Json (obj : pyval) (escape : bool).

Record FS : Type := {
  dirs : gset string;
  files : gmap string content
}.

(** [json.dumps(obj, cls=SetEncoder)] raises [TypeError] on a value that is
    not a dictionary, list, string, number, boolean or [None]. *)
Fixpoint json_serializable (v : pyval) : bool :=
  match v with
  | PBytes _ => false
  | PList l =>
      (fix all (l : list pyval) : bool :=
         match l with
         | [] => true
         | x :: l' => json_serializable x && all l'
         end) l
  | PDict d =>
      (fix all (d : list (string * pyval)) : bool :=
         match d with
         | [] => true
         | (_, x) :: d' => json_serializable x && all d'
         end) d
  | _ => true
  end.

Definition not_serializable : Exn :=
  TypeError "Object of type bytes is not JSON serializable".

Section Clock.

(** [Recorder.get_formatted_time] at the n-th reading of the clock. *)
Variable formatted_time_at : nat -> string.

(** The process-global recorder, the configuration flag, the file system
    and the number of clock readings so far. *)
Record World : Type := {
  with_record : bool;
  recorder : Recorder;
  fs : FS;
  clock_reads : nat
}.

Definition set_recorder (r : Recorder) (w : World) : World :=
  {| with_record := with_record w; recorder := r; fs := fs w;
     clock_reads := clock_reads w |}.

Definition set_fs (f : FS) (w : World) : World :=
  {| with_record := with_record w; recorder := recorder w; fs := f;
     clock_reads := clock_reads w |}.

Definition get_formatted_time : M World string :=
  fun w => (inr (formatted_time_at (clock_reads w)),
            {| with_record := with_record w; recorder := recorder w; fs := fs w;
               clock_reads := S (clock_reads w) |}).

(** [os.path.exists(p)] *)
Definition path_exists (p : string) (w : World) : bool :=
  bool_decide (p ∈ dirs (fs w)) || bool_decide (p ∈ dom (files (fs w))).

(** [os.makedirs(name)]: the directory is created together with every
    directory above it that is missing; it is an [OSError] when the name is
    empty, when it exists already, or when a regular file is in the way. *)
Definition makedirs (name : string) : M World unit :=
  fun w =>
    if String.eqb name "" then (inl (OSError "FileNotFoundError"), w)
    else if path_exists name w then (inl (OSError "FileExistsError"), w)
    else if existsb (fun a => bool_decide (a ∈ dom (files (fs w)))) (ancestors name)
    then (inl (OSError "NotADirectoryError"), w)
    else (inr tt,
          set_fs {| dirs := list_to_set (name :: ancestors name) ∪ dirs (fs w);
                    files := files (fs w) |} w).

(** [ensure_root_exist] *)
Definition ensure_root_exist : M World unit :=
  self <- gets recorder ;;
  there <- gets (path_exists (root self)) ;;
  if negb there then makedirs (root self) else ret tt.

(** [make_filename] *)
Definition make_filename (filename : string) : M World string :=
  formatted_time <- get_formatted_time ;;
  self <- gets recorder ;;
  (if bool_decide (last_formatted_time self = Some formatted_time) then
     match max self with
     | 0 =>
         modify (set_recorder
           {| last_formatted_time := last_formatted_time self; idx := S (idx self);
              tags := tags self; max := max self; root := root self |}) ;;;
         raise ZeroDivisionError
     | S _ =>
         modify (set_recorder
           {| last_formatted_time := last_formatted_time self;
              idx := S (idx self) mod max self;
              tags := tags self; max := max self; root := root self |})
     end
   else
     modify (set_recorder
       {| last_formatted_time := Some formatted_time; idx := 0;
          tags := tags self; max := max self; root := root self |})) ;;;
  self <- gets recorder ;;
  match String.get (idx self) (tags self) with
  | None => raise (IndexError "string index out of range")
  | Some tag =>
      let full_name := formatted_time +:+ "." +:+ String tag "" +:+ "-" +:+ filename in
      ret (path_join (root self) full_name)
  end.

(** [open(path, 'w')] / [open(path, 'wb')]: an [OSError] when the path
    names a directory or when the directory it lies in is a regular file or
    does not exist (the current directory and the root always exist);
    otherwise the file exists afterwards and is empty. *)
Definition open_w (path : string) : M World unit :=
  fun w =>
    let d := dirname path in
    if String.eqb path "" then (inl (OSError "FileNotFoundError"), w)
    else if String.eqb (head_raw path) path || bool_decide (path ∈ dirs (fs w))
    then (inl (OSError "IsADirectoryError"), w)
    else if all_slash d || bool_decide (d ∈ dirs (fs w))
    then (inr tt, set_fs {| dirs := dirs (fs w);
                            files := <[path := Truncated]> (files (fs w)) |} w)
    else if bool_decide (d ∈ dom (files (fs w)))
    then (inl (OSError "NotADirectoryError"), w)
    else (inl (OSError "FileNotFoundError"), w).

(** [f.write(...)] of the serialised value. *)
Definition write (path : string) (c : content) : M World unit :=
  modify (fun w => set_fs {| dirs := dirs (fs w);
                             files := <[path := c]> (files (fs w)) |} w).

(** [utils.save_json]: the file is opened before the value is serialised. *)
Definition utils_save_json (filename : string) (obj : pyval) (escape : bool)
  : M World unit :=
  open_w filename ;;;
  (if json_serializable obj then ret tt else raise not_serializable) ;;;
  write filename (Json obj escape).

(** [utils.save_yaml] *)
Definition utils_save_yaml (filename : string) (obj : pyval) : M World unit :=
  open_w filename ;;;
  write filename (Yaml obj).

(** [Recorder.save_text] *)
Definition save_text (filename text : string) : M World unit :=
  cfg <- gets with_record ;;
  if negb cfg then ret tt
  else
    ensure_root_exist ;;;
    path <- make_filename filename ;;
    open_w path ;;;
    write path (Text text).

(** [cv2.imwrite(path, image)]: an external library call.  It raises
    [cv2.error] on an empty image or a name whose extension has no encoder,
    and otherwise leaves the file system as the library decides (it answers
    [False], writing nothing, when the file cannot be created). *)
Variable cv2_imwrite : string -> pyval -> FS -> Exn + FS.

(** [Recorder.save_image] *)
Definition save_image (filename : string) (image : pyval) : M World unit :=
  cfg <- gets with_record ;;
  if negb cfg then ret tt
  else
    ensure_root_exist ;;;
    path <- make_filename filename ;;
    fun w => match cv2_imwrite path image (fs w) with
             | inl e => (inl e, w)
             | inr fs' => (inr tt, set_fs fs' w)
             end.

(** [Recorder.save_yaml] *)
Definition save_yaml (filename : string) (obj : pyval) : M World unit :=
  cfg <- gets with_record ;;
  if negb cfg then ret tt
  else
    ensure_root_exist ;;;
    path <- make_filename filename ;;
    utils_save_yaml path obj.

(** [Recorder.save_json] *)
Definition save_json (filename : string) (obj : pyval) (escape : bool) : M World unit :=
  cfg <- gets with_record ;;
  if negb cfg then ret tt
  else
    ensure_root_exist ;;;
    path <- make_filename filename ;;
    utils_save_json path obj escape.

(** [n] successive [make_filename] calls for the given logical names. *)
Definition make_filenames (names : list string) : M World (list string) :=
  map_m make_filename names.

End Clock.

End Recorder.

(** ** The dialogue store ([dialogue_history.py]) and the lifecycle
       callback hub ([callbacks.py]) *)

Module Callbacks.
Local Open Scope py_scope.

Record DialogueRecord : Type := {
  timestamp : nat;
  user_id : string;
  session_id : string;
  app_name : string;
  invocation_id : string;
  agent_name : string;
  tag : string;
  name : string;
  data : pyval
}.

(** The [dialogue_records] table: rows with their assigned ids, and the
    next value of the autoincrement key. *)
Record DialogueHistory : Type := {
  rows : list (nat * DialogueRecord);
  next_id : nat
}.

Record Session : Type := {
  s_user_id : string;
  s_id : string;
  s_app_name : string
}.

(** [CallbackContext] / [ToolContext], as the hooks read them. *)
Record CallbackContext : Type := {
  ctx_invocation_id : string;
  ctx_agent_name : string;
  ctx_state : list (string * pyval);
  ctx_session : Session
}.

Record BaseTool : Type := { tool_name : string }.

(** An ADK event with the result of [event.model_dump(exclude_none=True)]. *)
Record Event : Type := {
  ev_invocation_id : string;
  ev_author : string;
  ev_model_dump : pyval
}.

(** [s[-6:]] *)
Definition last6 (s : string) : string :=
  String.substring (String.length s - 6) 6 s.

(** [utils.to_dict] on plain data: mappings and sequences are rebuilt
    element by element, anything else is returned as it is. *)
Fixpoint to_dict (obj : pyval) : pyval :=
  match obj with
  | PDict d =>
      PDict ((fix items (d : list (string * pyval)) : list (string * pyval) :=
                match d with
                | [] => []
                | (key, value) :: d' => (key, to_dict value) :: items d'
                end) d)
  | PList l =>
      PList ((fix each (l : list pyval) : list pyval :=
                match l with
                | [] => []
                | item :: l' => to_dict item :: each l'
                end) l)
  | _ => obj
  end.

Section Hub.

Variable formatted_time_at : nat -> string.

(** The recorder's world and the module-level [_dialogue_history]. *)
Record World : Type := {
  rec_world : Recorder.World;
  _dialogue_history : option DialogueHistory
}.

(** Run a recorder operation on the recorder's part of the world. *)
Definition in_recorder {A} (m : M Recorder.World A) : M World A :=
  fun w => let (r, rw) := m (rec_world w) in
           (r, {| rec_world := rw; _dialogue_history := _dialogue_history w |}).

Definition recorder_save_json (filename : string) (obj : pyval) (escape : bool)
  : M World unit :=
  in_recorder (Recorder.save_json formatted_time_at filename obj escape).

(** [datetime.now()] *)
Definition datetime_now : M World nat :=
  in_recorder (fun rw =>
    (inr (Recorder.clock_reads rw),
     {| Recorder.with_record := Recorder.with_record rw;
        Recorder.recorder := Recorder.recorder rw;
        Recorder.fs := Recorder.fs rw;
        Recorder.clock_reads := S (Recorder.clock_reads rw) |})).

(** [DialogueRecord(...)]: the model accepts a mapping or [None] as [data]. *)
Definition new_DialogueRecord (ts : nat) (sess : Session)
    (inv agent tg nm : string) (d : pyval) : M World DialogueRecord :=
  match d with
  | PDict _ | PNone =>
      ret {| timestamp := ts; user_id := s_user_id sess; session_id := s_id sess;
             app_name := s_app_name sess; invocation_id := inv; agent_name := agent;
             tag := tg; name := nm; data := d |}
  | _ => raise (ValidationError "DialogueRecord")
  end.

(** [DialogueHistory.append]: the row is bound (its [data] serialised by
    [JSONEncodedDict.process_bind_param]) and committed. *)
Definition append (db : DialogueHistory) (record : DialogueRecord) : M World nat :=
  if Recorder.json_serializable (data record) then
    fun w => (inr (next_id db),
              {| rec_world := rec_world w;
                 _dialogue_history :=
                   Some {| rows := rows db ++ [(next_id db, record)];
                           next_id := S (next_id db) |} |})
  else raise (StatementError "Object of type bytes is not JSON serializable").

(** [if _dialogue_history is not None: await _dialogue_history.append(DialogueRecord(...))] *)
Definition record_dialogue (sess : Session) (inv agent tg nm : string) (d : pyval)
  : M World unit :=
  dh <- gets _dialogue_history ;;
  match dh with
  | None => ret tt
  | Some db =>
      ts <- datetime_now ;;
      record <- new_DialogueRecord ts sess inv agent tg nm d ;;
      _ <- append db record ;;
      ret tt
  end.

Definition before_agent (ctx : CallbackContext) : M World unit :=
  let state_dict := PDict (ctx_state ctx) in
  recorder_save_json
    (last6 (ctx_invocation_id ctx) +:+ ".BA." +:+ ctx_agent_name ctx +:+ ".state.json")
    state_dict false ;;;
  record_dialogue (ctx_session ctx) (ctx_invocation_id ctx) (ctx_agent_name ctx)
    "before_agent" "state" state_dict.

Definition after_agent (ctx : CallbackContext) : M World unit :=
  let state_dict := PDict (ctx_state ctx) in
  recorder_save_json
    (last6 (ctx_invocation_id ctx) +:+ ".AA." +:+ ctx_agent_name ctx +:+ ".state.json")
    state_dict false ;;;
  record_dialogue (ctx_session ctx) (ctx_invocation_id ctx) (ctx_agent_name ctx)
    "after_agent" "state" state_dict.

(** [request_dict] is [llm_request.model_dump(exclude_none=True)]. *)
Definition before_model (ctx : CallbackContext) (request_dict : pyval) : M World unit :=
  let state_dict := PDict (ctx_state ctx) in
  let stem := last6 (ctx_invocation_id ctx) +:+ ".BM." +:+ ctx_agent_name ctx in
  recorder_save_json (stem +:+ ".state.json") state_dict false ;;;
  record_dialogue (ctx_session ctx) (ctx_invocation_id ctx) (ctx_agent_name ctx)
    "before_model" "state" state_dict ;;;
  recorder_save_json (stem +:+ ".request.0.json") request_dict false ;;;
  recorder_save_json (stem +:+ ".request.1.json") request_dict true ;;;
  record_dialogue (ctx_session ctx) (ctx_invocation_id ctx) (ctx_agent_name ctx)
    "before_model" "llm_request" request_dict.

(** [response_dict] is [llm_response.model_dump(exclude_none=True)]. *)
Definition after_model (ctx : CallbackContext) (response_dict : pyval) : M World unit :=
  let state_dict := PDict (ctx_state ctx) in
  let stem := last6 (ctx_invocation_id ctx) +:+ ".AM." +:+ ctx_agent_name ctx in
  recorder_save_json (stem +:+ ".state.json") state_dict false ;;;
  record_dialogue (ctx_session ctx) (ctx_invocation_id ctx) (ctx_agent_name ctx)
    "after_model" "state" state_dict ;;;
  recorder_save_json (stem +:+ ".response.0.json") response_dict false ;;;
  recorder_save_json (stem +:+ ".response.1.json") response_dict true ;;;
  record_dialogue (ctx_session ctx) (ctx_invocation_id ctx) (ctx_agent_name ctx)
    "after_model" "llm_response" response_dict.

Definition before_tool (tool : BaseTool) (args : pyval) (ctx : CallbackContext)
  : M World unit :=
  recorder_save_json
    (last6 (ctx_invocation_id ctx) +:+ ".BT." +:+ ctx_agent_name ctx +:+ "."
       +:+ tool_name tool +:+ ".args.json")
    args false ;;;
  record_dialogue (ctx_session ctx) (ctx_invocation_id ctx) (ctx_agent_name ctx)
    "before_tool" (tool_name tool) args.

Definition after_tool (tool : BaseTool) (args : pyval) (ctx : CallbackContext)
    (tool_response : pyval) : M World unit :=
  let tool_response := to_dict tool_response in
  recorder_save_json
    (last6 (ctx_invocation_id ctx) +:+ ".AT." +:+ ctx_agent_name ctx +:+ "."
       +:+ tool_name tool +:+ ".response.json")
    tool_response false ;;;
  record_dialogue (ctx_session ctx) (ctx_invocation_id ctx) (ctx_agent_name ctx)
    "after_tool" (tool_name tool) tool_response.

Definition on_event (session : Session) (event : Event) : M World unit :=
  recorder_save_json
    (last6 (ev_invocation_id event) +:+ ".E." +:+ ev_author event +:+ ".json")
    (ev_model_dump event) false ;;;
  record_dialogue session (ev_invocation_id event) (ev_author event)
    "event" "event" (ev_model_dump event).

(** One firing of a hook, with its arguments. *)
Inductive HookCall : Type :=
| BeforeAgent (ctx : CallbackContext)
| AfterAgent (ctx : CallbackContext)
| BeforeModel (ctx : CallbackContext) (request_dict : pyval)
| AfterModel (ctx : CallbackContext) (response_dict : pyval)
| BeforeTool (tool : BaseTool) (args : pyval) (ctx : CallbackContext)
| AfterTool (tool : BaseTool) (args : pyval) (ctx : CallbackContext) (tool_response : pyval)
| OnEvent (session : Session) (event : Event).

Definition fire (h : HookCall) : M World unit :=
  match h with
  | BeforeAgent ctx => before_agent ctx
  | AfterAgent ctx => after_agent ctx
  | BeforeModel ctx rq => before_model ctx rq
  | AfterModel ctx rs => after_model ctx rs
  | BeforeTool tool args ctx => before_tool tool args ctx
  | AfterTool tool args ctx rs => after_tool tool args ctx rs
  | OnEvent session event => on_event session event
  end.

(** The values a firing snapshots, in the order it writes them. *)
Definition payloads (h : HookCall) : list pyval :=
  match h with
  | BeforeAgent ctx | AfterAgent ctx => [PDict (ctx_state ctx)]
  | BeforeModel ctx d | AfterModel ctx d => [PDict (ctx_state ctx); d]
  | BeforeTool _ args _ => [args]
  | AfterTool _ _ _ rs => [to_dict rs]
  | OnEvent _ event => [ev_model_dump event]
  end.

(** The logical names of the files a firing has the recorder write, in the
    order it writes them. *)
Definition file_names (h : HookCall) : list string :=
  match h with
  | BeforeAgent ctx =>
      [last6 (ctx_invocation_id ctx) +:+ ".BA." +:+ ctx_agent_name ctx +:+ ".state.json"]
  | AfterAgent ctx =>
      [last6 (ctx_invocation_id ctx) +:+ ".AA." +:+ ctx_agent_name ctx +:+ ".state.json"]
  | BeforeModel ctx _ =>
      let stem := last6 (ctx_invocation_id ctx) +:+ ".BM." +:+ ctx_agent_name ctx in
      [stem +:+ ".state.json"; stem +:+ ".request.0.json"; stem +:+ ".request.1.json"]
  | AfterModel ctx _ =>
      let stem := last6 (ctx_invocation_id ctx) +:+ ".AM." +:+ ctx_agent_name ctx in
      [stem +:+ ".state.json"; stem +:+ ".response.0.json"; stem +:+ ".response.1.json"]
  | BeforeTool tool _ ctx =>
      [last6 (ctx_invocation_id ctx) +:+ ".BT." +:+ ctx_agent_name ctx +:+ "."
         +:+ tool_name tool +:+ ".args.json"]
  | AfterTool tool _ ctx _ =>
      [last6 (ctx_invocation_id ctx) +:+ ".AT." +:+ ctx_agent_name ctx +:+ "."
         +:+ tool_name tool +:+ ".response.json"]
  | OnEvent _ event =>
      [last6 (ev_invocation_id event) +:+ ".E." +:+ ev_author event +:+ ".json"]
  end.

End Hub.

End Callbacks.

(** ** The execution loop ([orchestrator_executor.py]) *)

Module Executor.
Import A2A.
Local Open Scope py_scope.

(** One item of [Orchestrator.stream]. *)
Record Item : Type := {
  is_task_complete : bool;
  content : pyval
}.

(** One step of the stream: the progress lines the callback hub queued with
    [append_message] while the step was produced, and the item yielded. *)
Record Step : Type := {
  queued : list (nat * string);
  item : Item
}.

(** What the loop puts on the event queue.  Every event of a turn carries
    the same task and context id, which are left out, as are generated
    message ids. *)
Inductive Event : Type :=
| NewTask
| StatusUpdate (st : TaskState) (msg : option (list PartRoot)) (final : bool)
    (timestamp : option nat)
| ArtifactUpdate (name : string) (artifact : list PartRoot)
| ImageArtifact (name : string) (path : string).

(** [needle in s] on strings. *)
Fixpoint is_substring (needle s : string) : bool :=
  String.prefix needle s ||
  match s with
  | EmptyString => false
  | String _ s' => is_substring needle s'
  end.

(** [key in v] for a string [key]. *)
Definition py_contains (key : string) (v : pyval) : Exn + bool :=
  match v with
  | PDict d => inr (bool_decide (is_Some (dict_get key d)))
  | PStr s => inr (is_substring key s)
  | PList l => inr (existsb (fun x => match x with
                                      | PStr s => String.eqb s key
                                      | _ => false
                                      end) l)
  | PBytes _ => inl (TypeError "a bytes-like object is required, not 'str'")
  | _ => inl (TypeError "argument is not iterable")
  end.

(** [v[key]] for a string [key]. *)
Definition py_getitem (key : string) (v : pyval) : Exn + pyval :=
  match v with
  | PDict d => match dict_get key d with
               | Some x => inr x
               | None => inl (ExternalError "KeyError")
               end
  | PStr _ => inl (TypeError "string indices must be integers")
  | PList _ => inl (TypeError "list indices must be integers or slices, not str")
  | PBytes _ => inl (TypeError "byte indices must be integers or slices, not str")
  | _ => inl (TypeError "object is not subscriptable")
  end.

Definition string_of_bytes (bs : list Z) : string :=
  fold_right (fun b s => String (ascii_of_nat (Z.to_nat b)) s) EmptyString bs.

Section Loop.

(** [json.loads] on a document; [None] is a [JSONDecodeError]. *)
Variable json_loads : string -> option pyval.

(** [_find_and_add_images]: the scan of a step's content for image paths.
    It reads the file system and only adds artifacts to the queue, or
    raises. *)
Variable _find_and_add_images : pyval -> Exn + list Event.

(** The executor's [_messages] queue and the event queue of the turn. *)
Record World : Type := {
  _messages : list (nat * string);
  event_queue : list Event
}.

Definition enqueue_event (e : Event) : M World unit :=
  modify (fun w => {| _messages := _messages w;
                      event_queue := (event_queue w ++ [e])%list |}).

Definition lift_result {A} (r : Exn + A) : M World A := fun w => (r, w).

(** [json.loads(v)] *)
Definition py_json_loads (v : pyval) : M World pyval :=
  match v with
  | PStr s => match json_loads s with
              | Some d => ret d
              | None => raise JSONDecodeError
              end
  | PBytes bs => match json_loads (string_of_bytes bs) with
                 | Some d => ret d
                 | None => raise JSONDecodeError
                 end
  | _ => raise (TypeError "the JSON object must be str, bytes or bytearray")
  end.

(** Whether the loop goes on to the next step or leaves. *)
Inductive Control : Type := Continue | Break.

(** Lines 174-195: the progress lines the hub queued since the last step
    go out first, as non-final status updates in state working. *)
Definition flush_messages (step : Step) : M World unit :=
  modify (fun w => {| _messages := (_messages w ++ queued step)%list;
                      event_queue := event_queue w |}) ;;;
  contents <- gets _messages ;;
  modify (fun w => {| _messages := []; event_queue := event_queue w |}) ;;;
  for_each (fun tc : nat * string =>
              enqueue_event (StatusUpdate working (Some [TextPart (snd tc)]) false
                               (Some (fst tc))))
           contents.

(** Lines 197-243: the step's own payload. *)
Definition handle_item (it : Item) : M World Control :=
  if negb (is_task_complete it) then
    added <- lift_result (_find_and_add_images (content it)) ;;
    for_each enqueue_event added ;;;
    ret Continue
  else
    match content it with
    | PDict d =>
        has_form <- (match dict_get "response" d with
                     | None => ret false
                     | Some response => lift_result (py_contains "result" response)
                     end) ;;
        if (has_form : bool) then
          response <- lift_result (py_getitem "response" (PDict d)) ;;
          result <- lift_result (py_getitem "result" response) ;;
          data <- py_json_loads result ;;
          match data with
          | PDict _ =>
              enqueue_event (StatusUpdate input_required (Some [DataPart data]) true None) ;;;
              ret Continue
          | _ => raise (ValidationError "DataPart")
          end
        else
          enqueue_event (StatusUpdate failed
                           (Some [TextPart "Reaching an unexpected state"]) true None) ;;;
          ret Break
    | PStr text =>
        enqueue_event (ArtifactUpdate "form" [TextPart text]) ;;;
        enqueue_event (StatusUpdate completed None true None) ;;;
        ret Break
    | _ => raise (ValidationError "TextPart")
    end.

(** The body of [async for item in self.orchestrator.stream(...)], after the
    hub queued this step's progress lines. *)
Definition loop_body (step : Step) : M World Control :=
  flush_messages step ;;;
  handle_item (item step).

(** The [async for] loop over the steps the stream yields. *)
Fixpoint run_loop (stream : list Step) : M World unit :=
  match stream with
  | [] => ret tt
  | step :: rest =>
      c <- loop_body step ;;
      match c with
      | Continue => run_loop rest
      | Break => ret tt
      end
  end.

(** [OrchestratorAgentExecutor.execute]; [has_task] tells whether the request
    came with a current task. *)
Definition execute (has_task : bool) (stream : list Step) : M World unit :=
  (if has_task then ret tt else enqueue_event NewTask) ;;;
  run_loop stream.

(** How many steps of the stream the loop went through. *)
Fixpoint steps_processed (stream : list Step) (w : World) : nat :=
  match stream with
  | [] => 0
  | step :: rest =>
      match loop_body step w with
      | (inr Continue, w') => S (steps_processed rest w')
      | _ => 1
      end
  end.

End Loop.

(** The status updates flagged [final] on a queue. *)
Definition final_updates (q : list Event) : list Event :=
  List.filter (fun e => match e with StatusUpdate _ _ true _ => true | _ => false end) q.

End Executor.

(** ** Concrete collaborators and inputs for the examples *)

Module Samples.
Import A2A HostAgent.

(** An identifier source: the n-th draw is [uuid-n]. *)
Definition uuid4 (n : nat) : string := "uuid-" +:+ pretty n.

(** An artifact service that keeps every blob it is given. *)
Definition ArtifactStore : Type := list (option string * Blob).

Definition save_artifact (file_id : option string) (blob : Blob) (st : ArtifactStore)
  : string + ArtifactStore :=
  inr (st ++ [(file_id, blob)])%list.

(** A session that has not delegated anything yet. *)
Definition fresh_world : World ArtifactStore :=
  {| tc_state := ∅; skip_summarization := false; escalate := false;
     artifact_store := []; uuid_draws := 0; outbox := [] |}.

(** A remote agent that answers every request with [reply]. *)
Definition remote (reply : Response) : RemoteAgentConnections :=
  {| client_send_message := fun _ => reply |}.

(** A host that knows the agent [orchestrator], and [offline] by name only. *)
Definition host (reply : Response) : HostAgent :=
  {| remote_agent_connections :=
       <["orchestrator" := Some (remote reply)]> (<["offline" := None]> ∅) |}.

Definition task_in (st : TaskState) (ps : list Part) : Task :=
  {| id := "t1"; contextId := Some "c1";
     status := {| state := st;
                  status_message :=
                    Some {| role := "agent"; parts := ps; messageId := PStr "m-remote";
                            msg_contextId := PStr "c1"; msg_taskId := PStr "t1" |} |};
     artifacts := None |}.

Definition text_part (s : string) : Part := {| root := TextPart s |}.

Definition file_part (bytes : string) : Part :=
  {| root := FilePart (FileWithBytes bytes (Some "image/png") (Some "cat.png")) |}.

(** A session whose state already carries a message id. *)
Definition world_with_message_id : World ArtifactStore :=
  {| tc_state := {["message_id" := PStr "m-7"]}; skip_summarization := false;
     escalate := false; artifact_store := []; uuid_draws := 0; outbox := [] |}.

(** The request a first call builds in [world_with_message_id]. *)
Definition first_request (text : string) : MessageSendParams :=
  {| request_id := "uuid-0";
     message := {| role := "user"; parts := [text_part text];
                   messageId := PStr "m-7"; msg_contextId := PNone;
                   msg_taskId := PNone |};
     acceptedOutputModes := ["text"; "text/plain"; "image/png"] |}.

(** The request a first call builds in [fresh_world]. *)
Definition fresh_request (text : string) : MessageSendParams :=
  {| request_id := "uuid-1";
     message := {| role := "user"; parts := [text_part text];
                   messageId := PStr "uuid-0"; msg_contextId := PNone;
                   msg_taskId := PNone |};
     acceptedOutputModes := ["text"; "text/plain"; "image/png"] |}.

Definition plain_reply : Message :=
  {| role := "agent"; parts := [text_part "hi"]; messageId := PStr "m-remote";
     msg_contextId := PNone; msg_taskId := PNone |}.

(** A clock that stays within one millisecond for its first hundred
    readings and has moved on after that. *)
Definition clock (n : nat) : string :=
  if (n <? 100)%nat then "1104-120000.000" else "1104-120000.001".

(** A recorder just constructed, on an empty file system. *)
Definition recording (on : bool) : Recorder.World :=
  {| Recorder.with_record := on;
     Recorder.recorder := Recorder.init "/rec";
     Recorder.fs := {| Recorder.dirs := ∅; Recorder.files := ∅ |};
     Recorder.clock_reads := 0 |}.

Definition session0 : Callbacks.Session :=
  {| Callbacks.s_user_id := "leon"; Callbacks.s_id := "s-1";
     Callbacks.s_app_name := "orchestrator" |}.

(** A callback context whose state is plain data, and one whose state
    holds a [bytes] object. *)
Definition ctx_plain : Callbacks.CallbackContext :=
  {| Callbacks.ctx_invocation_id := "e-0123456789";
     Callbacks.ctx_agent_name := "host_agent";
     Callbacks.ctx_state := [("author", PStr "leon")];
     Callbacks.ctx_session := session0 |}.

Definition ctx_bytes : Callbacks.CallbackContext :=
  {| Callbacks.ctx_invocation_id := "e-0123456789";
     Callbacks.ctx_agent_name := "host_agent";
     Callbacks.ctx_state := [("author", PStr "leon"); ("thumbnail", PBytes [137; 80]%Z)];
     Callbacks.ctx_session := session0 |}.

(** The hub's world: the recorder with its flag [on], and an open, empty
    dialogue store when [db] is set. *)
Definition hub (on db : bool) : Callbacks.World :=
  {| Callbacks.rec_world := recording on;
     Callbacks._dialogue_history :=
       if db then Some {| Callbacks.rows := []; Callbacks.next_id := 1 |} else None |}.

(** The double quote character, and the JSON document of the
    specification's form scenario. *)
Definition dq : string := String (ascii_of_nat 34) EmptyString.

Definition form_document : string := "{" +:+ dq +:+ "a" +:+ dq +:+ ":1}".

(** [json.loads] restricted to the documents the examples use, on which it
    agrees with Python's: the form document, the empty object, and texts
    that are not JSON at all. *)
Definition json_loads (s : string) : option pyval :=
  if String.eqb s form_document then Some (PDict [("a", PInt 1)])
  else if String.eqb s "{}" then Some (PDict [])
  else None.

(** An image scan that finds nothing. *)
Definition no_images (content : pyval) : Exn + list Executor.Event := inr [].

Definition final_step (content : pyval) : Executor.Step :=
  {| Executor.queued := [];
     Executor.item := {| Executor.is_task_complete := true;
                         Executor.content := content |} |}.

Definition quiet : Executor.World :=
  {| Executor._messages := []; Executor.event_queue := [] |}.

End Samples.

(** ** The remote agent registry and the active-agent check
       ([host_agent.py]) *)

Module Registry.
Import A2A HostAgent.

(** [AgentCard], as the host reads it. *)
Record AgentCard : Type := {
  card_name : string;
  card_description : string
}.

(** [d[k] = v] on an insertion-ordered dictionary: a key that is present
    keeps its place, a new key goes to the end. *)
Fixpoint dict_set {V : Type} (k : string) (v : V) (d : list (string * V))
  : list (string * V) :=
  match d with
  | [] => [(k, v)]
  | (k', v') :: d' =>
      if String.eqb k k' then (k, v) :: d' else (k', v') :: dict_set k v d'
  end.

(** [d[k]] / [k in d] for any value type. *)
Fixpoint dict_lookup {V : Type} (k : string) (d : list (string * V)) : option V :=
  match d with
  | [] => None
  | (k', v) :: d' => if String.eqb k k' then Some v else dict_lookup k d'
  end.

(** ['\n'.join(lines)] *)
Fixpoint join_lines (lines : list string) : string :=
  match lines with
  | [] => ""
  | [l] => l
  | l :: ls => l +:+ String (ascii_of_nat 10) "" +:+ join_lines ls
  end.

Section Cards.

(** [RemoteAgentConnections(self.httpx_client, card)]: the handle built for a
    card. *)
Variable connect : AgentCard -> RemoteAgentConnections.

(** [json.dumps] *)
Variable json_dumps : pyval -> string.

(** The host agent's registry: both dictionaries and the listing text. *)
Record Host : Type := {
  connections : list (string * RemoteAgentConnections);
  cards : list (string * AgentCard);
  agents : string
}.

(** [HostAgent.list_remote_agents] *)
Definition list_remote_agents (self : Host) : list pyval :=
  match connections self with
  | [] => []
  | _ =>
      map (fun kc : string * AgentCard =>
             PDict [("name", PStr (card_name (snd kc)));
                    ("description", PStr (card_description (snd kc)))])
          (cards self)
  end.

(** The listing text [__init__] and [register_agent_card] both rebuild. *)
Definition refresh_agents (self : Host) : Host :=
  {| connections := connections self; cards := cards self;
     agents := join_lines (map json_dumps (list_remote_agents self)) |}.

(** The two dictionary assignments made for one card. *)
Definition add_card (card : AgentCard) (self : Host) : Host :=
  {| connections := dict_set (card_name card) (connect card) (connections self);
     cards := dict_set (card_name card) card (cards self);
     agents := agents self |}.

(** [HostAgent.register_agent_card] *)
Definition register_agent_card (card : AgentCard) (self : Host) : Host :=
  refresh_agents (add_card card self).

(** [register_agent_card] called for one card after the other. *)
Definition register_all (new_cards : list AgentCard) (self : Host) : Host :=
  fold_left (fun self card => register_agent_card card self) new_cards self.

(** The registry as [send_message] reads it. *)
Definition dispatcher (self : Host) : HostAgent :=
  {| remote_agent_connections :=
       list_to_map (map (fun kc : string * RemoteAgentConnections =>
                           (fst kc, Some (snd kc)))
                        (connections self)) |}.

End Cards.

Section ActiveAgent.

(** [repr] of a bytes object, a list or a dictionary, as an f-string prints
    them. *)
Variable py_repr : pyval -> string.

(** [f'{v}'] *)
Definition py_format (v : pyval) : string :=
  match v with
  | PNone => "None"
  | PBool true => "True"
  | PBool false => "False"
  | PInt z => pretty z
  | PStr s => s
  | _ => py_repr v
  end.

(** [HostAgent.check_state] *)
Definition check_state (state : gmap string pyval) : pyval :=
  match state !! "context_id", state !! "session_active", state !! "agent" with
  | Some _, Some active, Some agent =>
      if truthy active then PDict [("active_agent", PStr (py_format agent))]
      else PDict [("active_agent", PStr "None")]
  | _, _, _ => PDict [("active_agent", PStr "None")]
  end.

End ActiveAgent.

End Registry.

(** ** Further concrete inputs *)

Module MoreSamples.
Import A2A HostAgent Samples.

Definition news_card : Registry.AgentCard :=
  {| Registry.card_name := "news"; Registry.card_description := "finds the news" |}.

Definition news_card_v2 : Registry.AgentCard :=
  {| Registry.card_name := "news"; Registry.card_description := "finds and ranks the news" |}.

(** The handle of a card: a remote agent that answers every request with a
    working task. *)
Definition connect (card : Registry.AgentCard) : RemoteAgentConnections :=
  remote (RespTask (task_in working [])).

(** A stand-in for [json.dumps]: the examples do not look at the listing
    text. *)
Definition dumps (v : pyval) : string := "".

Definition empty_registry : Registry.Host :=
  {| Registry.connections := []; Registry.cards := []; Registry.agents := "" |}.

(** A stand-in for [repr]. *)
Definition repr (v : pyval) : string := "".

(** A task with a status message of two parts and one artifact of one. *)
Definition task_with_artifact (st : TaskState) : Task :=
  {| id := "t1"; contextId := Some "c1";
     status := {| state := st;
                  status_message :=
                    Some {| role := "agent";
                            parts := [text_part "done"; {| root := DataPart (PInt 3) |}];
                            messageId := PStr "m-remote";
                            msg_contextId := PStr "c1"; msg_taskId := PStr "t1" |} |};
     artifacts := Some [ {| artifact_parts := [file_part "aGk="] |} ] |}.

End MoreSamples.

(** ** The recorder's directories ([recorder.py], [__init__] and
       [set_name]) *)

Module RecorderDirs.
Import Recorder.
Local Open Scope py_scope.

(** [s[:-3]] *)
Definition without_last3 (s : string) : string :=
  String.substring 0 (String.length s - 3) s.

(** [s[-3]] *)
Definition third_from_end (s : string) : Exn + string :=
  if (String.length s <? 3)%nat then inl (IndexError "string index out of range")
  else inr (String.substring (String.length s - 3) 1 s).

Section Dirs.

(** [config.record_dir] *)
Variable record_dir : string.

(** [strftime('%Y-%m-%d')] and [strftime('%H-%M-%S.%f')] of the n-th reading
    of the clock. *)
Variable date_at : nat -> string.
Variable time_at : nat -> string.

(** [Recorder.__init__], run at the n-th reading of the clock. *)
Definition new_recorder (n : nat) : Recorder :=
  init (path_join (path_join record_dir (date_at n)) (without_last3 (time_at n))).

(** [Recorder.set_name] *)
Definition set_name (name : string) : M World unit :=
  fun w =>
    let n := clock_reads w in
    let w1 := {| with_record := with_record w; recorder := recorder w; fs := fs w;
                 clock_reads := S n |} in
    let d := date_at n in
    match third_from_end (time_at n) with
    | inl e => (inl e, w1)
    | inr t =>
        let self := recorder w in
        let root' :=
          if negb (String.eqb name "")
          then path_join (path_join (path_join record_dir d) t) name
          else path_join (path_join record_dir d) t in
        (inr tt,
         set_recorder
           {| last_formatted_time := last_formatted_time self; idx := idx self;
              tags := tags self; max := max self; root := root' |} w1)
    end.

End Dirs.

End RecorderDirs.

(** ** Reading the dialogue store ([dialogue_history.py]) *)

Module DialogueStore.
Import Callbacks.

(** [DialogueHistory.get_by_id]: the row with that primary key, as a record
    together with its id, or [None].  The column keeps the data as JSON
    text and reads it back with [json.loads]; on the values of [pyval] that
    serialise (no set among them) the text parses back to the value that
    was stored, which is what a row holds here. *)
Definition get_by_id (db : DialogueHistory) (record_id : nat)
  : option (nat * DialogueRecord) :=
  List.find (fun row : nat * DialogueRecord => Nat.eqb (fst row) record_id) (rows db).

End DialogueStore.

(** ** The image scan, the stream's items and the executor's own hooks
       ([orchestrator_executor.py], [orchestrator.py]) *)

Module Images.
Import Executor.

Section Scan.

(** The nested [traverse(obj)]: it walks the value, reads image files and
    adds one artifact for each. *)
Variable traverse : pyval -> Exn + list Event.

(** [_find_and_add_images], lines 153-155: only what is under [response] is
    walked. *)
Definition _find_and_add_images (content : pyval) : Exn + list Event :=
  match py_contains "response" content with
  | inl e => inl e
  | inr false => inr []
  | inr true =>
      match py_getitem "response" content with
      | inl e => inl e
      | inr response => traverse response
      end
  end.

End Scan.

End Images.

Module OrchestratorStream.
Import Executor.

(** A [google.genai.types.Part] of an event: its text, and the
    [model_dump()] of its function response. *)
Record GenaiPart : Type := {
  part_text : option string;
  function_response : option (list (string * pyval))
}.

(** An ADK event, as [Orchestrator.stream] reads it: the parts of its
    content ([None] when it has no content or the content no parts) and
    [is_final_response()]. *)
Record AdkEvent : Type := {
  ev_parts : option (list GenaiPart);
  is_final_response : bool
}.

(** [p.text] as a condition. *)
Definition has_text (p : GenaiPart) : bool :=
  match part_text p with
  | Some s => negb (String.eqb s "")
  | None => false
  end.

Definition has_function_response (p : GenaiPart) : bool :=
  match function_response p with Some _ => true | None => false end.

(** [Orchestrator.stream], lines 87-102: the item yielded for one event. *)
Definition item_of_event (event : AdkEvent) : Exn + Item :=
  let response : Exn + pyval :=
    match ev_parts event with
    | None | Some [] => inr (PStr "")
    | Some (first :: rest) =>
        if has_text first then
          inr (PStr (Registry.join_lines
                       (omap (fun p => if has_text p then part_text p else None)
                             (first :: rest))))
        else if existsb has_function_response (first :: rest) then
          match function_response first with
          | Some dump => inr (PDict dump)
          | None => inl (AttributeError "model_dump")
          end
        else inr (PStr "")
    end in
  match response with
  | inl e => inl e
  | inr content =>
      inr {| is_task_complete := is_final_response event; content := content |}
  end.

End OrchestratorStream.

Module ExecutorHooks.
Import Callbacks.
Local Open Scope py_scope.

Section Hooks.

Variable formatted_time_at : nat -> string.

(** The callback hub's world and the module-level [_executor]: [None], or
    the executor with its [_messages]. *)
Record World : Type := {
  hub : Callbacks.World;
  _executor : option (list (nat * string))
}.

(** Run a hub computation on the hub's part of the world. *)
Definition in_hub {A} (m : M Callbacks.World A) : M World A :=
  fun w => let (r, h) := m (hub w) in
           (r, {| hub := h; _executor := _executor w |}).

(** [OrchestratorAgentExecutor.append_message] *)
Definition append_message (message : string) : M World unit :=
  timestamp <- in_hub datetime_now ;;
  modify (fun w => {| hub := hub w;
                      _executor :=
                        match _executor w with
                        | Some msgs => Some (msgs ++ [(timestamp, message)])%list
                        | None => None
                        end |}).

(** The executor's methods. *)
Definition executor_before_agent (ctx : CallbackContext) : M World unit :=
  in_hub (Callbacks.before_agent formatted_time_at ctx) ;;;
  append_message (ctx_agent_name ctx +:+ " 智能体启动").

Definition executor_after_agent (ctx : CallbackContext) : M World unit :=
  in_hub (Callbacks.after_agent formatted_time_at ctx) ;;;
  append_message (ctx_agent_name ctx +:+ " 智能体完成").

Definition executor_before_model (ctx : CallbackContext) (llm_request : pyval)
  : M World unit :=
  in_hub (Callbacks.before_model formatted_time_at ctx llm_request) ;;;
  append_message (ctx_agent_name ctx +:+ " 开始调用大模型").

Definition executor_after_model (ctx : CallbackContext) (llm_response : pyval)
  : M World unit :=
  in_hub (Callbacks.after_model formatted_time_at ctx llm_response) ;;;
  append_message (ctx_agent_name ctx +:+ " 完成调用大模型").

(** [if _executor is not None: await _executor.<method>(...)] *)
Definition when_executor (m : M World unit) : M World unit :=
  e <- gets _executor ;;
  match e with
  | Some _ => m
  | None => ret tt
  end.

(** The module-level callbacks handed to the agents by [build_callbacks]. *)
Definition _before_agent (ctx : CallbackContext) : M World unit :=
  in_hub (Callbacks.before_agent formatted_time_at ctx) ;;;
  when_executor (executor_before_agent ctx).

Definition _after_agent (ctx : CallbackContext) : M World unit :=
  in_hub (Callbacks.after_agent formatted_time_at ctx) ;;;
  when_executor (executor_after_agent ctx).

Definition _before_model (ctx : CallbackContext) (llm_request : pyval) : M World unit :=
  in_hub (Callbacks.before_model formatted_time_at ctx llm_request) ;;;
  when_executor (executor_before_model ctx llm_request).

Definition _after_model (ctx : CallbackContext) (llm_response : pyval) : M World unit :=
  in_hub (Callbacks.after_model formatted_time_at ctx llm_response) ;;;
  when_executor (executor_after_model ctx llm_response).

(** One call of a module-level callback. *)
Inductive ModuleCall : Type :=
| MBeforeAgent (ctx : CallbackContext)
| MAfterAgent (ctx : CallbackContext)
| MBeforeModel (ctx : CallbackContext) (llm_request : pyval)
| MAfterModel (ctx : CallbackContext) (llm_response : pyval).

Definition call (c : ModuleCall) : M World unit :=
  match c with
  | MBeforeAgent ctx => _before_agent ctx
  | MAfterAgent ctx => _after_agent ctx
  | MBeforeModel ctx rq => _before_model ctx rq
  | MAfterModel ctx rs => _after_model ctx rs
  end.

(** The hub hook behind a module-level callback, and the progress line the
    executor queues for it. *)
Definition hook_of (c : ModuleCall) : HookCall :=
  match c with
  | MBeforeAgent ctx => BeforeAgent ctx
  | MAfterAgent ctx => AfterAgent ctx
  | MBeforeModel ctx rq => BeforeModel ctx rq
  | MAfterModel ctx rs => AfterModel ctx rs
  end.

Definition line_of (c : ModuleCall) : string :=
  match c with
  | MBeforeAgent ctx => ctx_agent_name ctx +:+ " 智能体启动"
  | MAfterAgent ctx => ctx_agent_name ctx +:+ " 智能体完成"
  | MBeforeModel ctx _ => ctx_agent_name ctx +:+ " 开始调用大模型"
  | MAfterModel ctx _ => ctx_agent_name ctx +:+ " 完成调用大模型"
  end.

End Hooks.

End ExecutorHooks.

(** ** Further inputs for the examples *)

Module FurtherSamples.
Import Samples.

(** The clock's date and time texts, the same at every reading. *)
Definition date_at (n : nat) : string := "2026-11-04".

Definition time_at (n : nat) : string := "12-00-00.123456".

Definition llm_request : pyval := PDict [("model", PStr "qwen")].

(** A step of the stream that is not final, with one progress line queued
    while it was produced. *)
Definition partial_step (content : pyval) : Executor.Step :=
  {| Executor.queued := [(0, "host_agent 开始调用大模型")];
     Executor.item := {| Executor.is_task_complete := false;
                         Executor.content := content |} |}.

(** A [traverse] that finds no image. *)
Definition traverse (obj : pyval) : Exn + list Executor.Event := inr [].

(** The hub with an open store, and an executor that has queued nothing. *)
Definition with_executor : ExecutorHooks.World :=
  {| ExecutorHooks.hub := hub false true; ExecutorHooks._executor := Some [] |}.

End FurtherSamples.

(** * Properties *)

(** ** Strings and the monad *)

Lemma append_cancel_l (a x y : string) : a +:+ x = a +:+ y -> x = y.
Proof.
  induction a as [|c a IH]; simpl; intros H; [exact H|].
  injection H as H. auto.
Qed.

(** A relation on worlds and a class of exceptions that one step of a loop
    respects are respected by the whole loop. *)
Lemma map_m_inv {W A B} (f : A -> M W B) (R : W -> W -> Prop) (E : Exn -> Prop) :
  (forall w, R w w) ->
  (forall a b c, R a b -> R b c -> R a c) ->
  (forall x w r w', f x w = (r, w') -> R w w' /\ forall e, r = inl e -> E e) ->
  forall xs w r w', map_m f xs w = (r, w') -> R w w' /\ forall e, r = inl e -> E e.
Proof.
  intros Hrefl Htrans Hf xs.
  induction xs as [|x xs IH]; simpl; intros w r w' H.
  - inversion H; subst. split; [apply Hrefl | discriminate].
  - unfold bind in H.
    destruct (f x w) as [[e|y] w1] eqn:Hx.
    + inversion H; subst. apply Hf in Hx. destruct Hx as [Hx He].
      split; [exact Hx | intros e' [= <-]; eauto].
    + destruct (map_m f xs w1) as [[e|ys] w2] eqn:Hxs.
      * inversion H; subst. apply Hf in Hx. apply IH in Hxs.
        destruct Hx as [Hx _], Hxs as [Hxs He]. split; [eauto | exact He].
      * unfold ret in H. inversion H; subst. apply Hf in Hx. apply IH in Hxs.
        destruct Hx as [Hx _], Hxs as [Hxs _]. split; [eauto | discriminate].
Qed.

(** The lenient base64 decoder fails with [binascii.Error] only. *)
Lemma a2b_loop_error (s : string) :
  forall q l p out e, Base64.a2b_loop s q l p out = inl e -> exists m, e = BinasciiError m.
Proof.
  induction s as [|c s IH]; simpl; intros q l p out e H.
  - destruct q as [|[|q]]; inversion H; eauto.
  - destruct (Base64.is_pad c).
    + match type of H with (if ?b then _ else _) = _ => destruct b end;
        [discriminate H | eauto].
    + destruct (Base64.sextet c); [|eauto].
      destruct q as [|[|[|q]]]; eauto.
Qed.

(** ** The dispatcher *)

Section DispatcherFacts.
Import A2A HostAgent.

Context (uuid4 : nat -> string) {Store : Type}
        (save_artifact : option string -> Blob -> Store -> string + Store).

Local Notation World := (HostAgent.World Store).
Local Notation send_message := (HostAgent.send_message uuid4 Store save_artifact).
Local Notation build_request := (HostAgent.build_request uuid4 Store).
Local Notation convert_part := (HostAgent.convert_part Store save_artifact).
Local Notation convert_parts := (HostAgent.convert_parts Store save_artifact).
Local Notation collect_response := (HostAgent.collect_response Store save_artifact).
Local Notation update_session := (HostAgent.update_session Store).
Local Notation branch_on_state := (HostAgent.branch_on_state Store).

(** The world right after [state['agent'] = agent_name]. *)
Local Notation agent_set agent_name w :=
  (set_tc_state (fun st => <["agent" := PStr agent_name]> st) w).

(** The identifiers a request carries: task id, context id, message id. *)
Definition ids_of (rq : MessageSendParams) : pyval * pyval * pyval :=
  (msg_taskId (message rq), msg_contextId (message rq), messageId (message rq)).

(** The exceptions that part conversion lets through: a failed base64
    decoding, a file part without inline bytes, a failing artifact service. *)
Definition conversion_error (e : Exn) : Prop :=
  match e with
  | BinasciiError _ | AttributeError _ | ExternalError _ => True
  | ValueError m => m = "string argument should contain only ASCII characters"
  | _ => False
  end.

(** What a conversion may change: the artifact store and the two action
    flags, which it can only raise. *)
Definition conv_frame (w w' : World) : Prop :=
  tc_state w' = tc_state w /\ outbox w' = outbox w /\ uuid_draws w' = uuid_draws w /\
  (skip_summarization w = true -> skip_summarization w' = true) /\
  (escalate w = true -> escalate w' = true).

Lemma conv_frame_refl w : conv_frame w w.
Proof. unfold conv_frame; auto. Qed.

Lemma conv_frame_trans a b c : conv_frame a b -> conv_frame b c -> conv_frame a c.
Proof. unfold conv_frame; intros (?&?&?&?&?) (?&?&?&?&?); repeat split; try congruence; auto. Qed.

Lemma b64decode_error s e : Base64.b64decode s = inl e -> conversion_error e.
Proof.
  unfold Base64.b64decode. destruct (Base64.is_ascii_str s).
  - intros H. apply a2b_loop_error in H as [m ->]. exact I.
  - intros H. inversion H. reflexivity.
Qed.

Lemma convert_part_inv p w r w' :
  convert_part p w = (r, w') -> conv_frame w w' /\ forall e, r = inl e -> conversion_error e.
Proof.
  unfold HostAgent.convert_part.
  destruct (root p) as [text|data|[bytes mime name|uri mime name]].
  - intros H; inversion H; subst. split; [apply conv_frame_refl | discriminate].
  - intros H; inversion H; subst. split; [apply conv_frame_refl | discriminate].
  - unfold bind, lift_result, tool_context_save_artifact, modify, ret.
    destruct (Base64.b64decode bytes) as [e|bs] eqn:Hd.
    + intros H; inversion H; subst. split; [apply conv_frame_refl|].
      intros e' [= <-]. eapply b64decode_error; eauto.
    + destruct (save_artifact name _ (artifact_store w)) as [m|s'].
      * intros H; inversion H; subst. split; [apply conv_frame_refl|].
        intros e' [= <-]. exact I.
      * intros H; inversion H; subst. split; [|discriminate].
        unfold conv_frame; simpl; auto.
  - intros H; inversion H; subst. split; [apply conv_frame_refl|].
    intros e' [= <-]. exact I.
Qed.

Lemma convert_parts_inv ps w r w' :
  convert_parts ps w = (r, w') -> conv_frame w w' /\ forall e, r = inl e -> conversion_error e.
Proof.
  apply (map_m_inv convert_part conv_frame conversion_error).
  - apply conv_frame_refl.
  - apply conv_frame_trans.
  - intros; eapply convert_part_inv; eauto.
Qed.

Lemma convert_artifacts_inv (arts : list Artifact) w r w' :
  map_m (fun a => convert_parts (artifact_parts a)) arts w = (r, w') ->
  conv_frame w w' /\ forall e, r = inl e -> conversion_error e.
Proof.
  apply (map_m_inv (fun a => convert_parts (artifact_parts a)) conv_frame conversion_error).
  - apply conv_frame_refl.
  - apply conv_frame_trans.
  - intros a w0 r0 w0' H0. eapply convert_parts_inv; eauto.
Qed.

Lemma collect_response_inv task w r w' :
  collect_response task w = (r, w') ->
  conv_frame w w' /\ forall e, r = inl e -> conversion_error e.
Proof.
  unfold HostAgent.collect_response, bind, ret.
  destruct (match status_message (status task) with
            | Some m => convert_parts (parts m)
            | None => fun w => (inr [], w)
            end w) as [[e|vs] w1] eqn:H1.
  - intros H; inversion H; subst.
    destruct (status_message (status task)); [|inversion H1].
    apply convert_parts_inv in H1. destruct H1 as [F He].
    split; [exact F | intros e' [= <-]; eauto].
  - assert (F1 : conv_frame w w1).
    { destruct (status_message (status task)).
      - apply convert_parts_inv in H1. tauto.
      - inversion H1; subst. apply conv_frame_refl. }
    destruct (artifacts task) as [arts|].
    + destruct (map_m (fun a => convert_parts (artifact_parts a)) arts w1)
        as [[e|rs] w2] eqn:H2; intros H; inversion H; subst;
        apply convert_artifacts_inv in H2; destruct H2 as [F2 He].
      * split; [eapply conv_frame_trans; eauto | intros e' [= <-]; eauto].
      * split; [eapply conv_frame_trans; eauto | discriminate].
    + intros H; inversion H; subst. split; [exact F1 | discriminate].
Qed.

(** The message id a call hands to the message constructor: the one of the
    session state when that holds a truthy value, a fresh one otherwise. *)
Definition chosen_message_id (w : World) : pyval :=
  if truthy (default PNone (tc_state w !! "message_id"))
  then default PNone (tc_state w !! "message_id")
  else PStr (uuid4 (uuid_draws w)).

(** The world after the uuid draws of [build_request]. *)
Definition after_draws (w : World) : World :=
  {| tc_state := tc_state w; skip_summarization := skip_summarization w;
     escalate := escalate w; artifact_store := artifact_store w;
     uuid_draws := if truthy (default PNone (tc_state w !! "message_id"))
                   then S (uuid_draws w) else S (S (uuid_draws w));
     outbox := outbox w |}.

(** [build_request] touches only the uuid counter; it builds the request
    when the message constructor accepts the three identifiers of the
    session state and raises the constructor's error otherwise. *)
Lemma build_request_run (msg : string) (w : World) :
  build_request msg w =
    (match new_Message msg (chosen_message_id w)
             (default PNone (tc_state w !! "context_id"))
             (default PNone (tc_state w !! "task_id")) with
     | inl e => inl e
     | inr m =>
         inr {| request_id :=
                  uuid4 (if truthy (default PNone (tc_state w !! "message_id"))
                         then uuid_draws w else S (uuid_draws w));
                message := m;
                acceptedOutputModes := ["text"; "text/plain"; "image/png"] |}
     end, after_draws w).
Proof.
  unfold HostAgent.build_request, chosen_message_id, after_draws, bind, state_get, gets,
    new_uuid, ret, lift_result; simpl.
  destruct (truthy (default PNone (tc_state w !! "message_id"))); simpl;
    destruct (new_Message _ _ _ _); reflexivity.
Qed.

Lemma new_Message_inv text m c t msg0 :
  new_Message text m c t = inr msg0 ->
  str_field m = Some (messageId msg0) /\
  opt_str_field c = Some (msg_contextId msg0) /\
  opt_str_field t = Some (msg_taskId msg0) /\
  role msg0 = "user" /\ parts msg0 = [ {| root := TextPart text |} ].
Proof.
  unfold new_Message.
  destruct (str_field m), (opt_str_field c), (opt_str_field t); try discriminate.
  intros [= <-]. auto.
Qed.

Lemma new_Message_error text m c t e :
  new_Message text m c t = inl e -> e = ValidationError "Message".
Proof.
  unfold new_Message.
  destruct (str_field m), (opt_str_field c), (opt_str_field t); congruence.
Qed.

(** A request that was built carries the validated identifiers of the
    session state. *)
Lemma build_request_spec (msg : string) (w : World) rq w' :
  build_request msg w = (inr rq, w') ->
  tc_state w' = tc_state w /\
  skip_summarization w' = skip_summarization w /\
  escalate w' = escalate w /\
  artifact_store w' = artifact_store w /\
  outbox w' = outbox w /\
  uuid_draws w' =
    (if truthy (default PNone (tc_state w !! "message_id"))
     then S (uuid_draws w) else S (S (uuid_draws w))) /\
  opt_str_field (default PNone (tc_state w !! "task_id")) = Some (msg_taskId (message rq)) /\
  opt_str_field (default PNone (tc_state w !! "context_id"))
    = Some (msg_contextId (message rq)) /\
  str_field (chosen_message_id w) = Some (messageId (message rq)) /\
  role (message rq) = "user" /\
  parts (message rq) = [ {| root := TextPart msg |} ].
Proof.
  rewrite build_request_run.
  destruct (new_Message _ _ _ _) as [e|m] eqn:Hm; [discriminate|].
  intros [= <- <-]. simpl.
  apply new_Message_inv in Hm as (H1 & H2 & H3 & H4 & H5). auto 12.
Qed.

(** A request that could not be built: the constructor's error, with only
    the uuid counter moved. *)
Lemma build_request_error (msg : string) (w : World) e w' :
  build_request msg w = (inl e, w') ->
  e = ValidationError "Message" /\ w' = after_draws w.
Proof.
  rewrite build_request_run.
  destruct (new_Message _ _ _ _) as [e'|m] eqn:Hm; [|discriminate].
  intros [= <- <-]. split; [eapply new_Message_error; eauto | reflexivity].
Qed.

(** The world once [request] went out to the remote client. *)
Definition after_send (request : MessageSendParams) (w : World) : World :=
  {| tc_state := tc_state w; skip_summarization := skip_summarization w;
     escalate := escalate w; artifact_store := artifact_store w;
     uuid_draws := uuid_draws w; outbox := (outbox w ++ [request])%list |}.

(** The session state [update_session] leaves behind. *)
Definition updated_state (task : Task) (st : gmap string pyval) : gmap string pyval :=
  <["task_id" := PStr (id task)]>
    (match contextId task with
     | Some c => if String.eqb c "" then (fun m => m) else <["context_id" := PStr c]>
     | None => fun m => m
     end
       (<["session_active" :=
            PBool (negb (bool_decide (state (status task) ∈ inactive_states)))]> st)).

Lemma update_session_spec task (w : World) :
  update_session task w =
    (inr tt, set_tc_state (updated_state task) w).
Proof.
  unfold HostAgent.update_session, updated_state, bind, state_set, modify, ret,
    set_tc_state; simpl.
  destruct (contextId task) as [c|]; simpl; [destruct (String.eqb c "")|]; reflexivity.
Qed.

(** With a registered, non-null client, [send_message] is: write the agent
    name, build the request, send it if it could be built, and act on the
    reply. *)
Lemma send_message_registered self agent_name msg client (w : World) :
  remote_agent_connections self !! agent_name = Some (Some client) ->
  send_message self agent_name msg w =
    match build_request msg (agent_set agent_name w) with
    | (inl e, w1) => (inl e, w1)
    | (inr rq, w1) =>
        match client_send_message client rq with
        | RespMessage _ => (inl (UnboundLocalError "task"), after_send rq w1)
        | RespTask task =>
            bind (branch_on_state agent_name task) (fun _ => collect_response task)
              (set_tc_state (updated_state task) (after_send rq w1))
        end
    end.
Proof.
  intros Hc.
  unfold HostAgent.send_message. rewrite Hc.
  unfold bind at 1. unfold state_set at 1, modify at 1.
  unfold bind at 1.
  destruct (build_request msg (agent_set agent_name w)) as [[e|rq] w1]; [reflexivity|].
  unfold bind at 1, client_call.
  destruct (client_send_message client rq) as [task|m]; [|reflexivity].
  unfold bind at 1. rewrite update_session_spec. reflexivity.
Qed.

(** A hypothesis of the form [fst (build_request ...) = inr rq] names the
    request and the world the build leaves. *)
Lemma built msg (w : World) rq :
  fst (build_request msg w) = inr rq ->
  exists w1, build_request msg w = (inr rq, w1).
Proof.
  destruct (build_request msg w) as [[e|rq'] w1]; simpl; [discriminate|].
  intros [= ->]. eauto.
Qed.

Lemma branch_on_state_spec agent_name task (w : World) :
  branch_on_state agent_name task w =
    match state (status task) with
    | input_required => (inr tt, set_escalate Store true (set_skip_summarization Store true w))
    | canceled => (inl (ValueError ("Agent " +:+ agent_name +:+ " task " +:+ id task
                                    +:+ " is cancelled")), w)
    | failed => (inl (ValueError ("Agent " +:+ agent_name +:+ " task " +:+ id task
                                  +:+ " failed")), w)
    | _ => (inr tt, w)
    end.
Proof.
  unfold HostAgent.branch_on_state. destruct (state (status task)); reflexivity.
Qed.

(** Parts that are converted without touching the artifact service. *)
Definition is_file_part (p : Part) : bool :=
  match root p with FilePart _ => true | _ => false end.

(** Every part a task carries: status message first, then the artifacts. *)
Definition task_parts (task : Task) : list Part :=
  (match status_message (status task) with Some m => parts m | None => [] end ++
   match artifacts task with Some arts => concat (map artifact_parts arts) | None => [] end)%list.

Lemma convert_parts_no_file ps (w : World) :
  forallb (fun p => negb (is_file_part p)) ps = true ->
  exists vs, convert_parts ps w = (inr vs, w).
Proof.
  induction ps as [|p ps IH]; simpl; intros H.
  - eexists; reflexivity.
  - apply andb_true_iff in H as [Hp Hps]. destruct (IH Hps) as [vs Hvs].
    unfold HostAgent.convert_parts in *. simpl. unfold bind at 1.
    unfold is_file_part in Hp. unfold HostAgent.convert_part at 1.
    destruct (root p); try discriminate Hp; unfold ret at 1;
      unfold bind at 1; rewrite Hvs; eexists; reflexivity.
Qed.

Lemma collect_response_no_file task (w : World) :
  forallb (fun p => negb (is_file_part p)) (task_parts task) = true ->
  exists vs, collect_response task w = (inr vs, w).
Proof.
  unfold task_parts. rewrite forallb_app. intros H.
  apply andb_true_iff in H as [H1 H2].
  unfold HostAgent.collect_response, bind.
  assert (E1 : exists vs, match status_message (status task) with
                          | Some m => convert_parts (parts m)
                          | None => ret []
                          end w = (inr vs, w)).
  { destruct (status_message (status task)).
    - apply convert_parts_no_file; exact H1.
    - eexists; reflexivity. }
  destruct E1 as [vs1 ->].
  assert (E2 : exists vs, match artifacts task with
                          | Some arts =>
                              bind (map_m (fun a => convert_parts (artifact_parts a)) arts)
                                   (fun rs => ret (concat rs))
                          | None => ret []
                          end w = (inr vs, w)).
  { destruct (artifacts task) as [arts|]; [|eexists; reflexivity].
    clear H1. induction arts as [|a arts IH]; simpl in *.
    - eexists; reflexivity.
    - rewrite forallb_app in H2. apply andb_true_iff in H2 as [Ha Harts].
      destruct (IH Harts) as [vs Hvs]. unfold bind in *.
      destruct (convert_parts_no_file (artifact_parts a) w Ha) as [va ->].
      destruct (map_m _ arts w) as [[e|rs] w2]; [discriminate Hvs|].
      unfold ret in *. inversion Hvs; subst. eexists; reflexivity. }
  destruct E2 as [vs2 E2]. unfold bind in E2. rewrite E2.
  eexists; reflexivity.
Qed.


(** Two error messages built on the same agent name are told apart by the
    text that follows the name. *)
Ltac message_clash H :=
  injection H as H;
  repeat (apply append_cancel_l in H);
  simpl in H; discriminate H.

Lemma conversion_error_not_dispatch (m : string) :
  conversion_error (ValueError ("Agent " +:+ m)) -> False.
Proof. simpl. discriminate. Qed.

Lemma conversion_error_not_client (m : string) :
  conversion_error (ValueError ("Client not available for " +:+ m)) -> False.
Proof. simpl. discriminate. Qed.

(** C3: [send_message] raises the not-found error exactly when the agent
    name is not registered and the client-unavailable error exactly when the
    name is registered with a null handle; on a returned task it raises the
    cancelled error exactly in state canceled and the failed error exactly in
    state failed, and in every other state the dispatcher raises nothing of
    its own: whatever is raised comes out of the conversion of the task's
    parts. *)
Theorem send_message_error_kinds self agent_name msg (w : World) r w' :
  send_message self agent_name msg w = (r, w') ->
  (r = inl (ValueError ("Agent " +:+ agent_name +:+ " not found")) <->
     remote_agent_connections self !! agent_name = None) /\
  (r = inl (ValueError ("Client not available for " +:+ agent_name)) <->
     remote_agent_connections self !! agent_name = Some None) /\
  (forall client rq task,
     remote_agent_connections self !! agent_name = Some (Some client) ->
     fst (build_request msg (agent_set agent_name w)) = inr rq ->
     client_send_message client rq = RespTask task ->
     (r = inl (ValueError ("Agent " +:+ agent_name +:+ " task " +:+ id task
                           +:+ " is cancelled")) <->
        state (status task) = canceled) /\
     (r = inl (ValueError ("Agent " +:+ agent_name +:+ " task " +:+ id task
                           +:+ " failed")) <->
        state (status task) = failed) /\
     (state (status task) <> canceled -> state (status task) <> failed ->
      forall e, r = inl e -> conversion_error e)).
Proof.
  intros Hrun.
  destruct (remote_agent_connections self !! agent_name) as [[client|]|] eqn:Hc.
  - rewrite (send_message_registered self agent_name msg client w Hc) in Hrun.
    destruct (build_request msg (agent_set agent_name w)) as [[e|rq] w1] eqn:Hb.
    { apply build_request_error in Hb as [-> _]. injection Hrun as <- <-.
      split; [split; discriminate|]. split; [split; discriminate|].
      intros client' rq' task _ Hrq. discriminate Hrq. }
    assert (Task : forall task, client_send_message client rq = RespTask task ->
              (r = inl (ValueError ("Agent " +:+ agent_name +:+ " task " +:+ id task
                                    +:+ " is cancelled")) <->
                 state (status task) = canceled) /\
              (r = inl (ValueError ("Agent " +:+ agent_name +:+ " task " +:+ id task
                                    +:+ " failed")) <->
                 state (status task) = failed) /\
              (state (status task) <> canceled -> state (status task) <> failed ->
               forall e, r = inl e -> conversion_error e) /\
              (r <> inl (ValueError ("Agent " +:+ agent_name +:+ " not found"))) /\
              (r <> inl (ValueError ("Client not available for " +:+ agent_name)))).
    { intros task Hreply. rewrite Hreply in Hrun.
      unfold bind in Hrun. rewrite branch_on_state_spec in Hrun.
      destruct (state (status task)) eqn:Hs;
        try (match type of Hrun with
             | collect_response ?t ?w0 = _ =>
                 destruct (collect_response_inv _ _ _ _ Hrun) as [_ He]
             end;
             repeat split; try discriminate; try congruence;
             try (intros ->; specialize (He _ eq_refl);
                  solve [ exfalso; eapply conversion_error_not_dispatch; exact He
                        | exfalso; eapply conversion_error_not_client; exact He ]);
             auto).
      - inversion Hrun; subst. repeat split; try congruence; try discriminate;
          try (intros H; message_clash H).
      - inversion Hrun; subst. repeat split; try congruence; try discriminate;
          try (intros H; message_clash H). }
    split; [|split].
    + split; [|discriminate]. intros ->.
      destruct (client_send_message client rq) as [task|m] eqn:Hreply.
      * destruct (Task task eq_refl) as (_ & _ & _ & Hn & _). congruence.
      * inversion Hrun.
    + split; [|discriminate]. intros ->.
      destruct (client_send_message client rq) as [task|m] eqn:Hreply.
      * destruct (Task task eq_refl) as (_ & _ & _ & _ & Hn). congruence.
      * inversion Hrun.
    + intros client' rq' task [= <-] Hrq Hreply.
      simpl in Hrq. injection Hrq as <-.
      destruct (Task task Hreply) as (H1 & H2 & H3 & _). auto.
  - unfold HostAgent.send_message in Hrun. rewrite Hc in Hrun.
    unfold bind, state_set, modify, raise in Hrun. inversion Hrun; subst.
    split; [|split].
    + split; [|discriminate]. intros H. message_clash H.
    + tauto.
    + intros ? ? ? [=].
  - unfold HostAgent.send_message in Hrun. rewrite Hc in Hrun.
    unfold raise in Hrun. inversion Hrun; subst.
    split; [|split].
    + tauto.
    + split; [|discriminate]. intros H. message_clash H.
    + intros ? ? ? [=].
Qed.

(** C4 (the code departs from the specification): when the remote client answers
    with a plain message, [send_message] does not convert and return its
    parts; it raises [UnboundLocalError], because the parts are read from the
    local [task], which is bound only further down.  Of the session state
    only [agent] was written; [session_active], [task_id] and [context_id]
    are untouched, and so are the action flags and the artifact store. *)
Theorem send_message_plain_message
    self agent_name msg client rq m (w : World) r w' :
  remote_agent_connections self !! agent_name = Some (Some client) ->
  fst (build_request msg (agent_set agent_name w)) = inr rq ->
  client_send_message client rq = RespMessage m ->
  send_message self agent_name msg w = (r, w') ->
  r = inl (UnboundLocalError "task") /\
  tc_state w' = <["agent" := PStr agent_name]> (tc_state w) /\
  skip_summarization w' = skip_summarization w /\
  escalate w' = escalate w /\
  artifact_store w' = artifact_store w.
Proof.
  intros Hc Hrq Hreply Hrun.
  destruct (built _ _ _ Hrq) as [w1 Hb].
  rewrite (send_message_registered self agent_name msg client w Hc), Hb, Hreply in Hrun.
  destruct (build_request_spec _ _ _ _ Hb) as (Hst & Hsk & Hes & Har & _).
  inversion Hrun; subst. simpl.
  rewrite Hst, Hsk, Hes, Har. simpl. auto.
Qed.

(** What a call with a registered, non-null client leaves behind: the
    request it built is the one new entry of the outbox, and after a task
    reply the session state is the updated one. *)
Lemma send_message_trace self agent_name msg client (w : World) r w' rq w1 :
  remote_agent_connections self !! agent_name = Some (Some client) ->
  build_request msg (agent_set agent_name w) = (inr rq, w1) ->
  send_message self agent_name msg w = (r, w') ->
  outbox w' = (outbox w ++ [rq])%list /\
  uuid_draws w' = uuid_draws w1 /\
  (forall task, client_send_message client rq = RespTask task ->
     tc_state w' = updated_state task (<["agent" := PStr agent_name]> (tc_state w))).
Proof.
  intros Hc Hb Hrun.
  destruct (build_request_spec _ _ _ _ Hb) as (Hst & _ & _ & _ & Hout & _).
  rewrite (send_message_registered self agent_name msg client w Hc), Hb in Hrun.
  destruct (client_send_message client rq) as [task|m] eqn:Hreply.
  - unfold bind in Hrun. rewrite branch_on_state_spec in Hrun.
    set (w2 := set_tc_state (updated_state task) (after_send rq w1)) in *.
    assert (F : tc_state w' = tc_state w2 /\ outbox w' = outbox w2 /\
                uuid_draws w' = uuid_draws w2).
    { destruct (state (status task));
        try (inversion Hrun; subst; auto; fail);
        match type of Hrun with
        | collect_response ?t ?w0 = _ =>
            destruct (collect_response_inv _ _ _ _ Hrun) as [(F1 & F2 & F3 & _) _]
        end; auto. }
    destruct F as (F1 & F2 & F3). rewrite F2, F3. unfold w2; simpl.
    rewrite Hout. simpl. split; [reflexivity|]. split; [reflexivity|].
    intros task' [= <-]. rewrite F1. unfold w2. simpl. rewrite Hst. reflexivity.
  - inversion Hrun; subst. simpl. rewrite Hout. simpl.
    split; [reflexivity|]. split; [reflexivity|]. intros ? [=].
Qed.

(** C1, as the code has it: when a call returns with the remote task in
    state input-required, the next call of the session sends the id of the
    returned task as task id, the returned task's context id when it has a
    non-empty one (the context id of the previous request otherwise), and as
    message id the [message_id] of the session state when that holds a
    truthy value, the same as the previous request did.  When the session
    state holds none, each of the two calls draws its own message id: the
    dispatcher never stores the one it generated. *)
Theorem send_message_next_call_ids
    self a1 m1 c1 rq1 task a2 m2 c2 (w0 : World) r1 w1 r2 w2 :
  remote_agent_connections self !! a1 = Some (Some c1) ->
  fst (build_request m1 (agent_set a1 w0)) = inr rq1 ->
  client_send_message c1 rq1 = RespTask task ->
  state (status task) = input_required ->
  send_message self a1 m1 w0 = (r1, w1) ->
  remote_agent_connections self !! a2 = Some (Some c2) ->
  send_message self a2 m2 w1 = (r2, w2) ->
  exists rq2,
    outbox w2 = (outbox w0 ++ [rq1; rq2])%list /\
    msg_taskId (message rq2) = PStr (id task) /\
    msg_contextId (message rq2) =
      match contextId task with
      | Some c => if String.eqb c "" then msg_contextId (message rq1) else PStr c
      | None => msg_contextId (message rq1)
      end /\
    (if truthy (default PNone (tc_state w0 !! "message_id"))
     then messageId (message rq2) = messageId (message rq1) /\
          str_field (default PNone (tc_state w0 !! "message_id"))
            = Some (messageId (message rq1))
     else messageId (message rq1) = PStr (uuid4 (uuid_draws w0)) /\
          messageId (message rq2) = PStr (uuid4 (S (S (uuid_draws w0))))).
Proof.
  intros Hc1 Hrq1 Hreply Hstate Hrun1 Hc2 Hrun2.
  destruct (built _ _ _ Hrq1) as [wa Hb1].
  destruct (send_message_trace _ _ _ _ _ _ _ _ _ Hc1 Hb1 Hrun1) as (Hout1 & Hdraw1 & Hst1).
  specialize (Hst1 _ Hreply).
  destruct (build_request_spec _ _ _ _ Hb1)
    as (_ & _ & _ & _ & _ & Hd1 & Ht1 & Hx1c & Hm1 & _).
  unfold chosen_message_id in Hm1. simpl in Ht1, Hx1c, Hm1, Hd1.
  rewrite lookup_insert_ne in Ht1, Hx1c, Hm1, Hd1 by done.
  assert (Hmid : tc_state (agent_set a2 w1) !! "message_id" = tc_state w0 !! "message_id").
  { simpl. rewrite Hst1. unfold updated_state. rewrite !lookup_insert_ne by done.
    destruct (contextId task) as [c|]; [destruct (String.eqb c "")|];
      rewrite ?(lookup_insert_ne _ "context_id") by done;
      rewrite !lookup_insert_ne by done; reflexivity. }
  assert (Htid : tc_state (agent_set a2 w1) !! "task_id" = Some (PStr (id task))).
  { simpl. rewrite Hst1. unfold updated_state. rewrite lookup_insert_ne by done.
    apply lookup_insert_eq. }
  assert (Hcid : opt_str_field (default PNone (tc_state (agent_set a2 w1) !! "context_id"))
                 = Some match contextId task with
                        | Some c => if String.eqb c "" then msg_contextId (message rq1)
                                    else PStr c
                        | None => msg_contextId (message rq1)
                        end).
  { simpl. rewrite Hst1. unfold updated_state. rewrite !lookup_insert_ne by done.
    destruct (contextId task) as [c|]; [destruct (String.eqb c "")|];
      rewrite ?lookup_insert_eq; try reflexivity;
      rewrite !lookup_insert_ne by done; exact Hx1c. }
  pose proof (build_request_run m2 (agent_set a2 w1)) as Hb2.
  unfold new_Message, chosen_message_id in Hb2.
  rewrite Hmid, Htid, Hcid in Hb2.
  change (opt_str_field (default PNone (Some (PStr (id task)))))
    with (Some (PStr (id task))) in Hb2.
  assert (Hdraw : uuid_draws (agent_set a2 w1) = uuid_draws wa) by (simpl; exact Hdraw1).
  rewrite Hdraw, Hd1 in Hb2.
  destruct (truthy (default PNone (tc_state w0 !! "message_id"))) eqn:Htruthy.
  - rewrite Hm1 in Hb2.
    destruct (send_message_trace _ _ _ _ _ _ _ _ _ Hc2 Hb2 Hrun2) as (Hout2 & _ & _).
    eexists. split; [rewrite Hout2, Hout1, <- app_assoc; reflexivity|].
    simpl. auto.
  - change (str_field (PStr ?u)) with (Some (PStr u)) in Hb2, Hm1.
    injection Hm1 as Hm1.
    destruct (send_message_trace _ _ _ _ _ _ _ _ _ Hc2 Hb2 Hrun2) as (Hout2 & _ & _).
    eexists. split; [rewrite Hout2, Hout1, <- app_assoc; reflexivity|].
    simpl. auto.
Qed.

(** C5, as the code has it: a text part converts to its string and a data
    part to its structured object, unchanged and without any effect.  A file
    part converts exactly when it carries inline bytes that decode as base64
    and the artifact service accepts the decoded blob: the result is then the
    reference object with the file's name under [artifact-file-id], the blob
    is stored and both action flags are set.  Otherwise the conversion
    raises, with the world as it was: the converter catches nothing. *)
Theorem convert_part_cases (part : Part) (w : World) :
  match root part with
  | TextPart text => convert_part part w = (inr (RStr text), w)
  | DataPart data => convert_part part w = (inr (RObj data), w)
  | FilePart file =>
      (forall v w',
         convert_part part w = (inr v, w') <->
         exists bytes mime name bs store',
           file = FileWithBytes bytes mime name /\
           Base64.b64decode bytes = inr bs /\
           save_artifact name {| mime_type := mime; data := bs |} (artifact_store w)
             = inr store' /\
           v = RDataPart (PDict [("artifact-file-id", opt_str name)]) /\
           w' = set_escalate Store true
                  (set_skip_summarization Store true
                     (set_artifact_store Store store' w))) /\
      (forall e w', convert_part part w = (inl e, w') -> conversion_error e /\ w' = w)
  end.
Proof.
  unfold HostAgent.convert_part.
  destruct (root part) as [text|data|[bytes mime name|uri mime name]];
    try reflexivity.
  - unfold bind, lift_result, tool_context_save_artifact, modify, ret.
    destruct (Base64.b64decode bytes) as [e|bs] eqn:Hd.
    + split.
      * intros v w'. split; [discriminate|].
        intros (b' & m' & n' & bs' & s' & [= <- <- <-] & Hd' & _). congruence.
      * intros e' w' [= <- <-]. split; [eapply b64decode_error; eauto | reflexivity].
    + destruct (save_artifact name _ (artifact_store w)) as [m|s'] eqn:Hs.
      * split.
        -- intros v w'. split; [discriminate|].
           intros (b' & m' & n' & bs' & s' & [= <- <- <-] & Hd' & Hs' & _).
           rewrite Hd in Hd'. injection Hd' as <-. congruence.
        -- intros e' w' [= <- <-]. split; [exact I | reflexivity].
      * split.
        -- intros v w'. split.
           ++ intros [= <- <-]. exists bytes, mime, name, bs, s'. auto 6.
           ++ intros (b' & m' & n' & bs' & s'' & [= <- <- <-] & Hd' & Hs' & -> & ->).
              rewrite Hd in Hd'. injection Hd' as <-.
              rewrite Hs in Hs'. injection Hs' as <-. reflexivity.
        -- intros e' w'. discriminate.
  - split.
    + intros v w'. split; [discriminate|].
      intros (b' & m' & n' & bs' & s' & [=] & _).
    + intros e' w' [= <- <-]. split; [exact I | reflexivity].
Qed.

(** [convert_parts] answers position by position. *)
Lemma convert_parts_order ps (w : World) vs w' :
  convert_parts ps w = (inr vs, w') -> length vs = length ps.
Proof.
  revert w vs w'. induction ps as [|p ps IH]; intros w vs w'; simpl.
  - intros [= <- <-]. reflexivity.
  - unfold HostAgent.convert_parts; simpl. unfold bind.
    destruct (convert_part p w) as [[e|v] w1]; [discriminate|].
    destruct (map_m convert_part ps w1) as [[e|vs'] w2] eqn:Hps; [discriminate|].
    intros [= <- <-]. simpl. f_equal. eapply IH. exact Hps.
Qed.

End DispatcherFacts.

(** ** The dispatcher on concrete sessions *)

Section DispatcherExamples.
Import A2A HostAgent Samples.

Local Notation send := (HostAgent.send_message uuid4 ArtifactStore save_artifact).

(** C1, refuted as stated: a fresh session delegates to a remote agent that
    answers input-required; the next call sends another message id, and a
    task id where the first call had none. *)
Lemma send_message_ids_not_reused :
  let self := host (RespTask (task_in input_required [])) in
  let '(r1, w1) := send self "orchestrator" "book a call" fresh_world in
  let '(r2, w2) := send self "orchestrator" "with Zhang" w1 in
  r1 = inr [] /\
  map ids_of (outbox w2) =
    [ (PNone, PNone, PStr "uuid-0"); (PStr "t1", PStr "c1", PStr "uuid-2") ] /\
  PStr "uuid-0" <> PStr "uuid-2".
Proof. vm_compute. repeat split. discriminate. Qed.

(** The amended C1 on a session whose state carries a [message_id]: the
    second request carries the returned task's id and context id and the
    stored message id. *)
Lemma send_message_next_call_ids_witness :
  let self := host (RespTask (task_in input_required [text_part "which number?"])) in
  let w1 := snd (send self "orchestrator" "book a call" world_with_message_id) in
  let w2 := snd (send self "orchestrator" "with Zhang" w1) in
  exists rq2,
    outbox w2 = [first_request "book a call"; rq2] /\
    ids_of rq2 = (PStr "t1", PStr "c1", PStr "m-7").
Proof.
  intros self w1 w2.
  destruct (send_message_next_call_ids uuid4 save_artifact self
              "orchestrator" "book a call"
              (remote (RespTask (task_in input_required [text_part "which number?"])))
              (first_request "book a call")
              (task_in input_required [text_part "which number?"])
              "orchestrator" "with Zhang"
              (remote (RespTask (task_in input_required [text_part "which number?"])))
              world_with_message_id
              (fst (send self "orchestrator" "book a call" world_with_message_id)) w1
              (fst (send self "orchestrator" "with Zhang" w1)) w2)
    as (rq2 & Hout & Ht & Hc & Hm);
    [ reflexivity | vm_compute; reflexivity | reflexivity | reflexivity
    | vm_compute; reflexivity | reflexivity | vm_compute; reflexivity | ].
  exists rq2. split; [exact Hout|].
  unfold ids_of. rewrite Ht, Hc. simpl in Hm. destruct Hm as [Hm1 Hm2].
  rewrite Hm1. reflexivity.
Defined.


(** C2, refuted as stated: the remote task comes back input-required with
    a file part whose bytes are not base64.  The session state and both
    flags are written, and the call raises. *)
Lemma send_message_input_required_file_raises :
  let self := host (RespTask (task_in input_required [file_part "A"])) in
  let r := fst (send self "orchestrator" "book a call" fresh_world) in
  let w' := snd (send self "orchestrator" "book a call" fresh_world) in
  (exists m, r = inl (BinasciiError m)) /\
  tc_state w' !! "agent" = Some (PStr "orchestrator") /\
  tc_state w' !! "task_id" = Some (PStr "t1") /\
  tc_state w' !! "session_active" = Some (PBool true) /\
  skip_summarization w' = true /\ escalate w' = true.
Proof. split; [eexists; vm_compute; reflexivity | vm_compute; repeat split]. Qed.

(** C3 on the scenario of the specification: the agent [ghost] is not
    registered. *)
Lemma send_message_error_kinds_witness :
  let self := host (RespTask (task_in completed [])) in
  remote_agent_connections self !! "ghost" = None /\
  fst (send self "ghost" "hello" fresh_world) = inl (ValueError "Agent ghost not found").
Proof.
  intros self. split; [reflexivity|].
  destruct (send_message_error_kinds uuid4 save_artifact self "ghost" "hello" fresh_world
              (fst (send self "ghost" "hello" fresh_world))
              (snd (send self "ghost" "hello" fresh_world)))
    as ((_ & Hnf) & _); [vm_compute; reflexivity|].
  apply Hnf. reflexivity.
Defined.

(** C4 at a failing input: the remote agent answers a text message. *)
Lemma send_message_plain_message_witness :
  let self := host (RespMessage plain_reply) in
  fst (send self "orchestrator" "hello" fresh_world) = inl (UnboundLocalError "task").
Proof.
  intros self.
  destruct (send_message_plain_message uuid4 save_artifact self "orchestrator" "hello"
              (remote (RespMessage plain_reply)) (fresh_request "hello") plain_reply
              fresh_world
              (fst (send self "orchestrator" "hello" fresh_world))
              (snd (send self "orchestrator" "hello" fresh_world)))
    as (Hr & _);
    [ reflexivity | vm_compute; reflexivity | reflexivity | vm_compute; reflexivity | ].
  exact Hr.
Defined.

(** C5, refuted as stated: a file part whose bytes are not base64 makes the
    converter raise, although the artifact service accepts everything. *)
Lemma convert_part_malformed_file_raises :
  exists m, fst (HostAgent.convert_part ArtifactStore save_artifact (file_part "A") fresh_world)
            = inl (BinasciiError m).
Proof. eexists. vm_compute. reflexivity. Qed.

(** A well-formed file part is stored and answered by its reference. *)
Example convert_part_file :
  HostAgent.convert_part ArtifactStore save_artifact (file_part "aGk=") fresh_world
  = (inr (RDataPart (PDict [("artifact-file-id", PStr "cat.png")])),
     {| tc_state := ∅; skip_summarization := true; escalate := true;
        artifact_store :=
          [(Some "cat.png", {| mime_type := Some "image/png"; data := [104; 105]%Z |})];
        uuid_draws := 0; outbox := [] |}).
Proof. reflexivity. Qed.

End DispatcherExamples.

(** ** The recorder *)

Section RecorderFacts.
Import Recorder.

Context (formatted_time_at : nat -> string).

Local Notation make_filename := (Recorder.make_filename formatted_time_at).
Local Notation make_filenames := (Recorder.make_filenames formatted_time_at).

(** The rotating alphabet of sequence tags. *)
Definition alphabet : string := tags (init "").

(** A recorder as [__init__] leaves its constants. *)
Definition well_formed (r : Recorder) : Prop :=
  tags r = alphabet /\ max r = 62.

(** The index the next call will use when the clock reads [t]. *)
Definition next_idx (t : string) (r : Recorder) : nat :=
  if bool_decide (last_formatted_time r = Some t) then S (idx r) mod 62 else 0.

(** The name of a recorded file: time, tag, logical name. *)
Definition full_name (t : string) (tag : ascii) (filename : string) : string :=
  t +:+ "." +:+ String tag "" +:+ "-" +:+ filename.

Lemma alphabet_length : String.length alphabet = 62.
Proof. reflexivity. Qed.

Lemma get_in_range (s : string) : forall i, i < String.length s -> is_Some (String.get i s).
Proof.
  induction s as [|c s IH]; simpl; intros i Hi; [lia|].
  destruct i; [eauto|]. apply IH. lia.
Qed.

Lemma get_lookup (s : string) :
  forall i, String.get i s = list_ascii_of_string s !! i.
Proof.
  induction s as [|c s IH]; intros [|i]; simpl; auto.
Qed.

Lemma alphabet_NoDup : NoDup (list_ascii_of_string alphabet).
Proof. apply (bool_decide_unpack _). vm_compute. exact I. Qed.

Lemma alphabet_get_inj i j c :
  String.get i alphabet = Some c -> String.get j alphabet = Some c -> i = j.
Proof.
  rewrite !get_lookup. intros Hi Hj.
  eapply NoDup_lookup; eauto using alphabet_NoDup.
Qed.

Lemma next_idx_bound t r : next_idx t r < 62.
Proof.
  unfold next_idx. case_bool_decide; [apply Nat.mod_upper_bound|]; lia.
Qed.

(** The world after one [make_filename] at clock reading [t]. *)
Definition stepped (t : string) (w : World) : World :=
  {| with_record := with_record w;
     recorder := {| last_formatted_time := Some t; idx := next_idx t (recorder w);
                    tags := tags (recorder w); max := max (recorder w);
                    root := root (recorder w) |};
     fs := fs w;
     clock_reads := S (clock_reads w) |}.

(** One call: it never raises on a well-formed recorder, uses the next
    index, and names the file [<time>.<tag>-<name>] under the root. *)
Lemma make_filename_spec filename (w : World) :
  well_formed (recorder w) ->
  let t := formatted_time_at (clock_reads w) in
  exists tag,
    String.get (next_idx t (recorder w)) alphabet = Some tag /\
    make_filename filename w =
      (inr (path_join (root (recorder w)) (full_name t tag filename)), stepped t w).
Proof.
  intros [Htags Hmax] t.
  destruct (get_in_range alphabet (next_idx t (recorder w))) as [tag Htag].
  { rewrite alphabet_length. apply next_idx_bound. }
  exists tag. split; [exact Htag|].
  unfold Recorder.make_filename, get_formatted_time, bind, gets, modify, ret, raise,
    set_recorder. simpl. fold t.
  unfold next_idx in Htag. unfold stepped, next_idx.
  destruct (bool_decide (last_formatted_time (recorder w) = Some t)) eqn:Hlast.
  - apply bool_decide_eq_true in Hlast. rewrite Hmax.
    cbn -[Nat.modulo String.get alphabet path_join].
    rewrite Htags, Htag, Hlast. reflexivity.
  - cbn -[Nat.modulo String.get alphabet path_join].
    rewrite Htags, Htag. reflexivity.
Qed.

Lemma stepped_well_formed t w : well_formed (recorder w) -> well_formed (recorder (stepped t w)).
Proof. unfold well_formed; simpl; auto. Qed.

Lemma next_idx_stepped t w :
  next_idx t (recorder (stepped t w)) = S (next_idx t (recorder w)) mod 62.
Proof.
  unfold next_idx at 1. simpl. rewrite bool_decide_eq_true_2 by reflexivity. reflexivity.
Qed.

(** A run of calls that all read the clock at [t]: no call raises, and the
    k-th file gets the tag at index [next_idx + k] modulo 62. *)
Lemma make_filenames_run (names : list string) :
  forall (w : World) t,
    well_formed (recorder w) ->
    (forall k, k < length names -> formatted_time_at (clock_reads w + k) = t) ->
    exists paths w',
      make_filenames names w = (inr paths, w') /\
      length paths = length names /\
      forall k name, names !! k = Some name ->
        exists tag,
          String.get ((next_idx t (recorder w) + k) mod 62) alphabet = Some tag /\
          paths !! k = Some (path_join (root (recorder w)) (full_name t tag name)).
Proof.
  induction names as [|n ns IH]; intros w t Hwf Hclock.
  - exists [], w. split; [reflexivity|]. split; [reflexivity|].
    intros k name Hk. rewrite lookup_nil in Hk. discriminate Hk.
  - destruct (make_filename_spec n w Hwf) as (tag0 & Htag0 & Hcall).
    assert (Ht : formatted_time_at (clock_reads w) = t).
    { rewrite <- (Hclock 0) by (simpl; lia). f_equal. lia. }
    rewrite Ht in Htag0, Hcall.
    destruct (IH (stepped t w) t (stepped_well_formed t w Hwf)) as (paths & w' & Hrun & Hlen & Hk).
    { intros k Hlt. simpl. rewrite <- (Hclock (S k)) by (simpl; lia). f_equal. lia. }
    exists (path_join (root (recorder w)) (full_name t tag0 n) :: paths), w'.
    split.
    { unfold Recorder.make_filenames in *. simpl. unfold bind at 1. rewrite Hcall.
      unfold bind at 1. rewrite Hrun. reflexivity. }
    split; [simpl; congruence|].
    intros [|k] name Hname; simpl in Hname.
    + injection Hname as <-. exists tag0. split; [|reflexivity].
      rewrite Nat.add_0_r, Nat.mod_small by apply next_idx_bound. exact Htag0.
    + destruct (Hk k name Hname) as (tag & Htag & Hpath).
      exists tag. split; [|exact Hpath].
      rewrite next_idx_stepped in Htag.
      rewrite Nat.Div0.add_mod_idemp_l in Htag.
      replace (next_idx t (recorder w) + S k) with (S (next_idx t (recorder w)) + k) by lia.
      exact Htag.
Qed.

(** File names with different tags differ, whatever the logical names. *)
Lemma path_join_tag_inj root0 t tag tag' name name' :
  path_join root0 (full_name t tag name) = path_join root0 (full_name t tag' name') ->
  tag = tag'.
Proof.
  unfold path_join, full_name.
  assert (Hp : String.prefix "/" (t +:+ "." +:+ String tag "" +:+ "-" +:+ name) =
               String.prefix "/" (t +:+ "." +:+ String tag' "" +:+ "-" +:+ name')).
  { assert (He : forall x, String.prefix "" x = true) by (intros []; reflexivity).
    assert (Hc : forall a x, String.prefix "/" (String a x) =
                             if ascii_dec "/" a then String.prefix "" x else false)
      by reflexivity.
    destruct t as [|a t]; [reflexivity|].
    change (String a t +:+ ?x) with (String a (t +:+ x)).
    rewrite !Hc, !He. reflexivity. }
  rewrite Hp. clear Hp.
  repeat match goal with |- context [if ?b then _ else _] => destruct b end;
    intros H; repeat (apply append_cancel_l in H); injection H; auto.
Qed.

(** C8: every generated file name is [<formatted-time>.<seq>-<logical_name>]
    under the recorder's root, with [seq] one character of a fixed alphabet
    of 62 symbols; the index of [seq] is 0 whenever the formatted time
    differs from the one of the previous call; calls that read the same
    formatted time get consecutive indices modulo 62, so that up to 62 of
    them get pairwise distinct tags and file names, while the 63rd gets the
    tag of the first again and, for the same logical name, the same file
    name. *)
Theorem make_filename_rotation (names : list string) (w : World) t :
  well_formed (recorder w) ->
  (forall k, k < length names -> formatted_time_at (clock_reads w + k) = t) ->
  String.length alphabet = 62 /\
  exists paths w',
    make_filenames names w = (inr paths, w') /\
    length paths = length names /\
    (forall k name, names !! k = Some name ->
       exists tag,
         String.get ((next_idx t (recorder w) + k) mod 62) alphabet = Some tag /\
         paths !! k = Some (path_join (root (recorder w)) (full_name t tag name))) /\
    (last_formatted_time (recorder w) <> Some t -> next_idx t (recorder w) = 0) /\
    (length names <= 62 -> NoDup paths) /\
    (forall k name, names !! k = Some name -> names !! (k + 62) = Some name ->
       paths !! (k + 62) = paths !! k).
Proof.
  intros Hwf Hclock. split; [reflexivity|].
  destruct (make_filenames_run names w t Hwf Hclock) as (paths & w' & Hrun & Hlen & Hk).
  exists paths, w'. split; [exact Hrun|]. split; [exact Hlen|]. split; [exact Hk|].
  split; [|split].
  - intros Hne. unfold next_idx. rewrite bool_decide_eq_false_2 by exact Hne. reflexivity.
  - intros Hle. apply NoDup_alt. intros i j p Hi Hj.
    assert (Bi : i < length names) by (rewrite <- Hlen; eapply lookup_lt_Some; eauto).
    assert (Bj : j < length names) by (rewrite <- Hlen; eapply lookup_lt_Some; eauto).
    destruct (lookup_lt_is_Some_2 names i Bi) as [ni Hni].
    destruct (lookup_lt_is_Some_2 names j Bj) as [nj Hnj].
    destruct (Hk i ni Hni) as (ti & Hti & Hpi).
    destruct (Hk j nj Hnj) as (tj & Htj & Hpj).
    rewrite Hi in Hpi. rewrite Hj in Hpj. injection Hpi as ->.
    injection Hpj as Hpj. apply path_join_tag_inj in Hpj. subst tj.
    pose proof (alphabet_get_inj _ _ _ Hti Htj) as Hmod.
    pose proof (next_idx_bound t (recorder w)) as Hb.
    set (n0 := next_idx t (recorder w)) in *.
    assert (Hi62 : i < 62) by lia. assert (Hj62 : j < 62) by lia.
    destruct (Nat.lt_ge_cases (n0 + i) 62) as [Hli|Hgi];
      destruct (Nat.lt_ge_cases (n0 + j) 62) as [Hlj|Hgj].
    + rewrite !Nat.mod_small in Hmod by assumption. lia.
    + rewrite (Nat.mod_small (n0 + i)) in Hmod by assumption.
      replace (n0 + j) with ((n0 + j - 62) + 1 * 62) in Hmod by lia.
      rewrite Nat.Div0.mod_add, Nat.mod_small in Hmod by lia. lia.
    + rewrite (Nat.mod_small (n0 + j)) in Hmod by assumption.
      replace (n0 + i) with ((n0 + i - 62) + 1 * 62) in Hmod by lia.
      rewrite Nat.Div0.mod_add, Nat.mod_small in Hmod by lia. lia.
    + replace (n0 + i) with ((n0 + i - 62) + 1 * 62) in Hmod by lia.
      replace (n0 + j) with ((n0 + j - 62) + 1 * 62) in Hmod by lia.
      rewrite !Nat.Div0.mod_add, !Nat.mod_small in Hmod by lia. lia.
  - intros k name Hname Hname'.
    destruct (Hk k name Hname) as (tg & Htg & Hp).
    destruct (Hk (k + 62) name Hname') as (tg' & Htg' & Hp').
    replace (next_idx t (recorder w) + (k + 62))
      with ((next_idx t (recorder w) + k) + 1 * 62) in Htg' by lia.
    rewrite Nat.Div0.mod_add in Htg'. rewrite Htg in Htg'. injection Htg' as <-.
    congruence.
Qed.

(** *** Paths and the file system *)

(** A root directory written without a trailing separator. *)
Definition clean (r : string) : bool :=
  negb (String.eqb r "") &&
  negb (String.eqb (String.substring (String.length r - 1) 1 r) "/").

Fixpoint ends_with_slash (s : string) : bool :=
  match s with
  | EmptyString => false
  | String c s' =>
      match s' with
      | EmptyString => is_slash c
      | String _ _ => ends_with_slash s'
      end
  end.

Lemma append_cons c (a b : string) : String c a +:+ b = String c (a +:+ b).
Proof. reflexivity. Qed.

Lemma append_nil_l (b : string) : "" +:+ b = b.
Proof. reflexivity. Qed.

Lemma length_append (a b : string) :
  String.length (a +:+ b) = String.length a + String.length b.
Proof.
  induction a as [|c a IH]; [reflexivity|].
  rewrite append_cons. simpl. rewrite IH. reflexivity.
Qed.

Lemma last_char_slash (s : string) :
  s <> "" ->
  String.eqb (String.substring (String.length s - 1) 1 s) "/" = ends_with_slash s.
Proof.
  induction s as [|c s IH]; [congruence|]. intros _.
  destruct s as [|c' s].
  - simpl. unfold is_slash. destruct (Ascii.eqb c "/"); reflexivity.
  - change (String.length (String c (String c' s)) - 1) with (S (String.length s)).
    change (String.substring (S (String.length s)) 1 (String c (String c' s)))
      with (String.substring (String.length s) 1 (String c' s)).
    change (ends_with_slash (String c (String c' s))) with (ends_with_slash (String c' s)).
    rewrite <- IH by discriminate. simpl. rewrite Nat.sub_0_r. reflexivity.
Qed.

Lemma clean_spec r : clean r = true -> r <> "" /\ ends_with_slash r = false.
Proof.
  unfold clean. intros H. apply andb_true_iff in H as [H1 H2].
  apply negb_true_iff in H1, H2.
  assert (Hne : r <> "") by (intros ->; discriminate H1).
  split; [exact Hne|]. rewrite <- last_char_slash by exact Hne. exact H2.
Qed.

Lemma all_slash_ends s : all_slash s = true -> s <> "" -> ends_with_slash s = true.
Proof.
  induction s as [|c s IH]; [congruence|]. simpl. intros H _.
  apply andb_true_iff in H as [Hc Hs].
  destruct s as [|c' s]; [exact Hc|]. apply IH; [exact Hs | discriminate].
Qed.

Lemma rstrip_fixed s : ends_with_slash s = false -> rstrip_slash s = s.
Proof.
  induction s as [|c s IH]; [reflexivity|]. intros H.
  change (rstrip_slash (String c s))
    with (if all_slash s then (if is_slash c then EmptyString else String c EmptyString)
          else String c (rstrip_slash s)).
  destruct s as [|c' s].
  - simpl in *. rewrite H. reflexivity.
  - change (ends_with_slash (String c (String c' s)))
      with (ends_with_slash (String c' s)) in H.
    destruct (all_slash (String c' s)) eqn:Ha.
    + rewrite all_slash_ends in H; [discriminate H | exact Ha | discriminate].
    + rewrite IH by exact H. reflexivity.
Qed.

Lemma all_slash_app a b : all_slash (a +:+ b) = all_slash a && all_slash b.
Proof.
  induction a as [|c a IH]; [reflexivity|].
  rewrite append_cons. simpl. rewrite IH, andb_assoc. reflexivity.
Qed.

Lemma has_slash_app a b : has_slash (a +:+ b) = has_slash a || has_slash b.
Proof.
  induction a as [|c a IH]; [reflexivity|].
  rewrite append_cons. simpl. rewrite IH, orb_assoc. reflexivity.
Qed.

Lemma rstrip_app_slash r : rstrip_slash (r +:+ "/") = rstrip_slash r.
Proof.
  induction r as [|c r IH]; [reflexivity|].
  rewrite append_cons.
  change (rstrip_slash (String c (r +:+ "/")))
    with (if all_slash (r +:+ "/")
          then (if is_slash c then EmptyString else String c EmptyString)
          else String c (rstrip_slash (r +:+ "/"))).
  rewrite all_slash_app, IH. simpl all_slash at 2. rewrite andb_true_r. reflexivity.
Qed.

Lemma head_raw_cons c p :
  head_raw (String c p) =
    if has_slash p then String c (head_raw p)
    else if is_slash c then String c "" else "".
Proof. reflexivity. Qed.

Lemma has_slash_sep n : has_slash ("/" +:+ n) = true.
Proof. reflexivity. Qed.

Lemma head_raw_join r n : has_slash n = false -> head_raw (r +:+ "/" +:+ n) = r +:+ "/".
Proof.
  intros Hn. induction r as [|c r IH].
  - rewrite !append_nil_l. change ("/" +:+ n) with (String "/" n).
    rewrite head_raw_cons, Hn. reflexivity.
  - rewrite !(append_cons c r), head_raw_cons, has_slash_app, has_slash_sep, orb_true_r, IH.
    reflexivity.
Qed.

Lemma dirname_join r n : clean r = true -> has_slash n = false -> dirname (r +:+ "/" +:+ n) = r.
Proof.
  intros Hr Hn. apply clean_spec in Hr as [Hne He].
  unfold dirname. rewrite head_raw_join by exact Hn.
  rewrite all_slash_app.
  destruct (all_slash r) eqn:Ha.
  - rewrite all_slash_ends in He; [discriminate He | exact Ha | exact Hne].
  - simpl. rewrite rstrip_app_slash. apply rstrip_fixed. exact He.
Qed.

Lemma path_join_clean r n :
  clean r = true -> has_slash n = false -> path_join r n = r +:+ "/" +:+ n.
Proof.
  intros Hr Hn. unfold path_join.
  assert (Hp : String.prefix "/" n = false).
  { destruct n as [|c n]; [reflexivity|]. simpl in Hn.
    apply orb_false_iff in Hn as [Hc _]. unfold is_slash in Hc.
    apply Ascii.eqb_neq in Hc.
    assert (Hx : forall a x, String.prefix "/" (String a x) =
                             if ascii_dec "/" a then String.prefix "" x else false)
      by reflexivity.
    rewrite Hx. destruct (ascii_dec "/" c); [congruence | reflexivity]. }
  rewrite Hp. unfold clean in Hr. apply andb_true_iff in Hr as [H1 H2].
  apply negb_true_iff in H1, H2. rewrite H1, H2. reflexivity.
Qed.

Lemma length_head_raw p : String.length (head_raw p) <= String.length p.
Proof.
  induction p as [|c p IH]; [reflexivity|]. simpl.
  destruct (has_slash p); [simpl; lia|]. destruct (is_slash c); simpl; lia.
Qed.

Lemma length_rstrip s : String.length (rstrip_slash s) <= String.length s.
Proof.
  induction s as [|c s IH]; [reflexivity|]. simpl.
  destruct (all_slash s); [destruct (is_slash c); simpl; lia | simpl; lia].
Qed.

Lemma length_dirname p : String.length (dirname p) <= String.length p.
Proof.
  unfold dirname. destruct (all_slash (head_raw p)).
  - apply length_head_raw.
  - etransitivity; [apply length_rstrip | apply length_head_raw].
Qed.

Lemma ancestors_length n : forall p a,
  a ∈ ancestors_upto n p -> String.length a <= String.length p.
Proof.
  induction n as [|n IH]; intros p a; simpl; [intros H; inversion H|].
  destruct (_ || _); [intros H; inversion H|].
  intros H. apply elem_of_cons in H as [->|H]; [apply length_dirname|].
  etransitivity; [apply (IH _ _ H) | apply length_dirname].
Qed.

(** A file name under the root is a longer text than the root and than
    every directory above it. *)
Lemma under_root_fresh r n :
  r +:+ "/" +:+ n <> r /\ (r +:+ "/" +:+ n) ∉ ancestors r.
Proof.
  assert (Hlen : String.length r < String.length (r +:+ "/" +:+ n)).
  { rewrite !length_append. simpl. lia. }
  split.
  - intros H. rewrite H in Hlen. lia.
  - intros H. apply ancestors_length in H. lia.
Qed.

(** The recorder's directory can be used: the root is written without a
    trailing separator, is not a regular file, exists or can be created
    (no regular file above it), and has no directory directly under it. *)
Definition healthy (w : World) : Prop :=
  let r := root (recorder w) in
  clean r = true /\
  (r ∉ dom (files (fs w))) /\
  (r ∈ dirs (fs w) \/ Forall (fun a => a ∉ dom (files (fs w))) (ancestors r)) /\
  (forall n, has_slash n = false -> (r +:+ "/" +:+ n) ∉ dirs (fs w)).

(** An exception of the file system. *)
Definition os_error (e : Exn) : Prop := exists cls, e = OSError cls.

(** [ensure_root_exist] changes at most the set of directories; it can only
    fail with an [OSError], and on a usable directory it returns with the
    root in place. *)
Lemma ensure_root_exist_spec (w : World) :
  exists r w1, ensure_root_exist w = (r, w1) /\
    recorder w1 = recorder w /\ with_record w1 = with_record w /\
    clock_reads w1 = clock_reads w /\ files (fs w1) = files (fs w) /\
    (forall e, r = inl e -> os_error e) /\
    (healthy w -> r = inr tt /\ healthy w1 /\ root (recorder w) ∈ dirs (fs w1)).
Proof.
  assert (Hsame : forall r, (forall e, r = inl e -> os_error e) ->
            (healthy w -> r = inr tt /\ root (recorder w) ∈ dirs (fs w)) ->
            recorder w = recorder w /\ with_record w = with_record w /\
            clock_reads w = clock_reads w /\ files (fs w) = files (fs w) /\
            (forall e, r = inl e -> os_error e) /\
            (healthy w -> r = inr tt /\ healthy w /\ root (recorder w) ∈ dirs (fs w))).
  { intros r Hos Hh. do 4 (split; [reflexivity|]). split; [exact Hos|].
    intros H. destruct (Hh H). auto. }
  unfold ensure_root_exist, bind, gets, makedirs, path_exists, ret.
  destruct (bool_decide (root (recorder w) ∈ dirs (fs w))) eqn:Hd; cbn [orb negb].
  { apply bool_decide_eq_true in Hd.
    exists (inr tt), w. split; [reflexivity|]. apply Hsame; [discriminate | auto]. }
  apply bool_decide_eq_false in Hd.
  destruct (bool_decide (root (recorder w) ∈ dom (files (fs w)))) eqn:Hf; cbn [negb].
  { apply bool_decide_eq_true in Hf.
    exists (inr tt), w. split; [reflexivity|]. apply Hsame; [discriminate|].
    intros (_ & Hnf & _). contradiction. }
  apply bool_decide_eq_false in Hf.
  destruct (String.eqb (root (recorder w)) "") eqn:He.
  { exists (inl (OSError "FileNotFoundError")), w. split; [reflexivity|].
    apply Hsame; [intros e [= <-]; eexists; reflexivity|].
    intros (Hc & _). unfold clean in Hc. rewrite He in Hc. discriminate Hc. }
  rewrite (bool_decide_eq_false_2 _ Hd), (bool_decide_eq_false_2 _ Hf). cbn [orb].
  destruct (existsb _ (ancestors (root (recorder w)))) eqn:Ha.
  { exists (inl (OSError "NotADirectoryError")), w. split; [reflexivity|].
    apply Hsame; [intros e [= <-]; eexists; reflexivity|].
    intros (_ & _ & [Hin|Hfree] & _); [contradiction|].
    apply existsb_exists in Ha as (a & Hin & Hfile).
    apply bool_decide_eq_true in Hfile.
    rewrite Forall_forall in Hfree. exfalso. apply (Hfree a); [|exact Hfile].
    apply list_elem_of_In. exact Hin. }
  eexists (inr tt), _. split; [reflexivity|]. simpl.
  do 4 (split; [reflexivity|]). split; [discriminate|].
  intros (Hc & _ & _ & H3). split; [reflexivity|].
  assert (Hin : root (recorder w)
                ∈ list_to_set (root (recorder w) :: ancestors (root (recorder w)))
                  ∪ dirs (fs w)).
  { apply elem_of_union_l, elem_of_list_to_set, elem_of_cons. left. reflexivity. }
  split; [|exact Hin].
  unfold healthy; simpl. split; [exact Hc|]. split; [exact Hf|].
  split; [left; exact Hin|].
  intros n Hn.
  destruct (under_root_fresh (root (recorder w)) n) as [Hne Hna].
  specialize (H3 n Hn). intros Hx.
  apply elem_of_union in Hx as [Hx|Hx]; [|contradiction].
  apply elem_of_union in Hx as [Hx|Hx].
  - apply elem_of_singleton in Hx. contradiction.
  - apply elem_of_list_to_set in Hx. contradiction.
Qed.

(** What [open_w] does. *)
Lemma open_w_inv path (w : World) r w' :
  open_w path w = (r, w') ->
  (r = inr tt /\ (path ∉ dirs (fs w)) /\
   w' = set_fs {| dirs := dirs (fs w); files := <[path := Truncated]> (files (fs w)) |} w) \/
  (exists e, r = inl e /\ os_error e /\ w' = w).
Proof.
  unfold open_w.
  destruct (String.eqb path "");
    [intros [= <- <-]; right; eexists; split; [reflexivity|]; split;
       [eexists; reflexivity | reflexivity]|].
  destruct (String.eqb (head_raw path) path); cbn [orb];
    [intros [= <- <-]; right; eexists; split; [reflexivity|]; split;
       [eexists; reflexivity | reflexivity]|].
  destruct (bool_decide (path ∈ dirs (fs w))) eqn:Hp;
    [intros [= <- <-]; right; eexists; split; [reflexivity|]; split;
       [eexists; reflexivity | reflexivity]|].
  apply bool_decide_eq_false in Hp.
  destruct (_ || _).
  - intros [= <- <-]. left. auto.
  - destruct (bool_decide _); intros [= <- <-]; right; eexists;
      (split; [reflexivity|]; split; [eexists; reflexivity | reflexivity]).
Qed.

(** Under an existing, usable root every name without a separator can be
    opened. *)
Lemma open_w_under_root n (w : World) :
  healthy w -> root (recorder w) ∈ dirs (fs w) -> has_slash n = false -> n <> "" ->
  open_w (path_join (root (recorder w)) n) w =
    (inr tt, set_fs {| dirs := dirs (fs w);
                       files := <[path_join (root (recorder w)) n := Truncated]>
                                  (files (fs w)) |} w).
Proof.
  intros (Hc & Hnf & _ & Hfree) Hin Hn Hne.
  rewrite (path_join_clean _ _ Hc Hn). unfold open_w.
  rewrite (dirname_join _ _ Hc Hn), (head_raw_join _ _ Hn).
  assert (E1 : String.eqb (root (recorder w) +:+ "/" +:+ n) "" = false).
  { apply String.eqb_neq. intros H. apply (f_equal String.length) in H.
    rewrite !length_append in H. simpl in H. lia. }
  assert (E2 : String.eqb (root (recorder w) +:+ "/")
                 (root (recorder w) +:+ "/" +:+ n) = false).
  { apply String.eqb_neq. intros H. apply (f_equal String.length) in H.
    rewrite !length_append in H. simpl in H.
    destruct n; [congruence | simpl in H; lia]. }
  rewrite E1, E2. cbn [orb].
  rewrite (bool_decide_eq_false_2 _ (Hfree n Hn)), (bool_decide_eq_true_2 _ Hin).
  rewrite orb_true_r. reflexivity.
Qed.

(** Creating a file under an existing root keeps the directory usable. *)
Lemma healthy_after_file (w : World) path c :
  healthy w -> root (recorder w) ∈ dirs (fs w) -> path ∉ dirs (fs w) ->
  healthy (set_fs {| dirs := dirs (fs w); files := <[path := c]> (files (fs w)) |} w).
Proof.
  intros (Hc & Hnf & _ & Hfree) Hin Hp. unfold healthy; simpl.
  split; [exact Hc|]. split; [|split; [left; exact Hin | exact Hfree]].
  rewrite dom_insert, elem_of_union, elem_of_singleton.
  intros [Heq|H]; [rewrite Heq in Hin|]; contradiction.
Qed.

(** The same for any world that differs by files at that path only. *)
Lemma healthy_grow (w w' : World) path :
  healthy w -> root (recorder w) ∈ dirs (fs w) -> path ∉ dirs (fs w) ->
  root (recorder w') = root (recorder w) -> dirs (fs w') = dirs (fs w) ->
  (forall x, x ∈ dom (files (fs w')) -> x = path \/ x ∈ dom (files (fs w))) ->
  healthy w'.
Proof.
  intros (Hc & Hnf & _ & Hfree) Hin Hp Hr Hd Hf. unfold healthy. rewrite Hr, Hd.
  split; [exact Hc|]. split; [|split; [left; exact Hin | exact Hfree]].
  intros Hx. apply Hf in Hx as [Heq|Hx]; [rewrite Heq in Hin|]; contradiction.
Qed.

Lemma healthy_stepped t (w : World) : healthy w -> healthy (stepped t w).
Proof. unfold healthy; simpl; auto. Qed.

(** The tags of the alphabet and the separator. *)
Lemma alphabet_no_slash i tag : String.get i alphabet = Some tag -> is_slash tag = false.
Proof.
  rewrite get_lookup. intros H. apply list_elem_of_lookup_2 in H.
  assert (Hall : Forall (fun c => is_slash c = false) (list_ascii_of_string alphabet)).
  { apply (bool_decide_unpack _). vm_compute. exact I. }
  rewrite Forall_forall in Hall. apply Hall. exact H.
Qed.

Lemma full_name_no_slash t tag filename :
  has_slash t = false -> is_slash tag = false -> has_slash filename = false ->
  has_slash (full_name t tag filename) = false /\ full_name t tag filename <> "".
Proof.
  intros Ht Htag Hf. unfold full_name. split.
  - rewrite !has_slash_app, Ht, Hf. simpl. rewrite Htag. reflexivity.
  - intros H. apply (f_equal String.length) in H. rewrite !length_append in H.
    simpl in H. lia.
Qed.

(** The steps every save starts with, on a usable directory: the root is
    there afterwards, the name is the one [make_filename] chose, and the
    file is open and empty when the continuation runs. *)
Lemma save_opens filename (w : World) :
  well_formed (recorder w) -> healthy w ->
  has_slash (formatted_time_at (clock_reads w)) = false ->
  has_slash filename = false ->
  let t := formatted_time_at (clock_reads w) in
  exists tag wo,
    String.get (next_idx t (recorder w)) alphabet = Some tag /\
    (forall A (k : string -> M World A),
       bind ensure_root_exist
         (fun _ => bind (make_filename filename)
                     (fun path => bind (open_w path) (fun _ => k path))) w
       = k (path_join (root (recorder w)) (full_name t tag filename)) wo) /\
    recorder wo = recorder (stepped t w) /\
    with_record wo = with_record w /\
    clock_reads wo = S (clock_reads w) /\
    files (fs wo) =
      <[path_join (root (recorder w)) (full_name t tag filename) := Truncated]>
        (files (fs w)) /\
    healthy wo /\
    root (recorder w) ∈ dirs (fs wo) /\
    path_join (root (recorder w)) (full_name t tag filename) ∉ dirs (fs wo).
Proof.
  intros Hwf Hh Ht Hf t.
  destruct (ensure_root_exist_spec w)
    as (r1 & w1 & H1 & Hr1 & Hon1 & Hck1 & Hf1 & _ & Hh1).
  destruct (Hh1 Hh) as (-> & Hh1' & Hin1).
  assert (Hwf1 : well_formed (recorder w1)) by (rewrite Hr1; exact Hwf).
  destruct (make_filename_spec filename w1 Hwf1) as (tag & Htag & Hcall).
  rewrite Hck1, Hr1 in Htag, Hcall. fold t in Htag, Hcall.
  destruct (full_name_no_slash t tag filename Ht (alphabet_no_slash _ _ Htag) Hf)
    as [Hplain Hne].
  assert (Hhs : healthy (stepped t w1)) by (apply healthy_stepped; exact Hh1').
  assert (Hroot : root (recorder (stepped t w1)) = root (recorder w))
    by (simpl; rewrite Hr1; reflexivity).
  pose proof (open_w_under_root (full_name t tag filename) (stepped t w1) Hhs) as Hopen.
  rewrite Hroot in Hopen. specialize (Hopen Hin1 Hplain Hne).
  assert (Hpd : path_join (root (recorder w)) (full_name t tag filename) ∉ dirs (fs w1)).
  { destruct Hhs as (Hc & _ & _ & Hfree).
    rewrite (path_join_clean (root (recorder w)) (full_name t tag filename))
      by (rewrite <- ?Hroot; assumption).
    rewrite <- Hroot. apply Hfree. exact Hplain. }
  assert (Hho : healthy
                  (set_fs {| dirs := dirs (fs (stepped t w1));
                             files := <[path_join (root (recorder w))
                                          (full_name t tag filename) := Truncated]>
                                        (files (fs (stepped t w1))) |} (stepped t w1))).
  { apply healthy_after_file; [exact Hhs | rewrite Hroot; exact Hin1 | exact Hpd]. }
  exists tag. eexists. split; [exact Htag|]. split.
  { intros A k. unfold bind at 1. rewrite H1. unfold bind at 1. rewrite Hcall.
    unfold bind at 1. rewrite Hopen. reflexivity. }
  split; [simpl; rewrite Hr1; reflexivity|].
  split; [exact Hon1|].
  split; [simpl; rewrite Hck1; reflexivity|].
  split; [simpl; rewrite Hf1; reflexivity|].
  split; [exact Hho|]. split; [exact Hin1 | exact Hpd].
Qed.

(** [save_json] on a well-formed recorder.  It keeps the flag, the root and
    the recorder's constants, and a usable directory stays usable.  It
    returns only if the flag is off or the value serialises; what it raises
    is the serialiser's [TypeError] or an [OSError] of the file system; and
    when the flag is off, or the directory is usable and neither the time
    text nor the name holds a separator, it returns whenever the value
    serialises. *)
Lemma save_json_spec filename obj escape (w : World) :
  well_formed (recorder w) ->
  exists r w',
    Recorder.save_json formatted_time_at filename obj escape w = (r, w') /\
    with_record w' = with_record w /\
    well_formed (recorder w') /\
    (healthy w -> healthy w') /\
    (r = inr tt -> negb (with_record w) || json_serializable obj = true) /\
    (forall e, r = inl e -> e = not_serializable \/ os_error e) /\
    ((with_record w = false \/
      (healthy w /\ has_slash (formatted_time_at (clock_reads w)) = false /\
       has_slash filename = false)) ->
     negb (with_record w) || json_serializable obj = true -> r = inr tt).
Proof.
  intros Hwf. unfold Recorder.save_json. unfold bind at 1, gets at 1.
  cbv beta iota.
  destruct (with_record w) eqn:Hon; cbn [negb orb]; cbv beta iota.
  2: { exists (inr tt), w. unfold ret. split; [reflexivity|].
       split; [exact Hon|]. split; [exact Hwf|]. split; [auto|].
       split; [reflexivity|]. split; [discriminate | reflexivity]. }
  destruct (ensure_root_exist_spec w)
    as (r1 & w1 & H1 & Hr1 & Hon1 & Hck1 & Hf1 & Hos1 & Hh1).
  unfold bind at 1. rewrite H1.
  assert (Hwf1 : well_formed (recorder w1)) by (rewrite Hr1; exact Hwf).
  destruct r1 as [e1|[]].
  - exists (inl e1), w1. split; [reflexivity|].
    split; [congruence|]. split; [exact Hwf1|].
    split; [intros Hh; destruct (Hh1 Hh) as [Hx _]; discriminate Hx|].
    split; [discriminate|].
    split; [intros e [= <-]; right; apply Hos1; reflexivity|].
    intros [Hoff | (Hh & _)] _; [discriminate Hoff|].
    destruct (Hh1 Hh) as [Hx _]; discriminate Hx.
  - destruct (make_filename_spec filename w1 Hwf1) as (tag & Htag & Hcall).
    unfold bind at 1. rewrite Hcall.
    rewrite Hck1 in Htag, Hcall |- *.
    set (t := formatted_time_at (clock_reads w)) in *.
    set (path := path_join (root (recorder w1)) (full_name t tag filename)) in *.
    assert (Hwfs : well_formed (recorder (stepped t w1)))
      by (apply stepped_well_formed; exact Hwf1).
    unfold utils_save_json. unfold bind at 1.
    destruct (open_w path (stepped t w1)) as [ro wo] eqn:Ho.
    destruct (open_w_inv _ _ _ _ Ho) as [(-> & Hpd & ->) | (e & -> & Hose & ->)].
    + unfold bind, ret, raise, write, modify.
      destruct (json_serializable obj) eqn:Hser.
      * eexists (inr tt), _. split; [reflexivity|]. simpl.
        split; [congruence|]. split; [exact Hwfs|].
        split; [|split; [reflexivity|split; [discriminate | reflexivity]]].
        intros Hh. destruct (Hh1 Hh) as (_ & Hh1' & Hin).
        apply (healthy_grow (stepped t w1) _ path);
          [apply healthy_stepped; exact Hh1' | simpl; rewrite Hr1; exact Hin | exact Hpd
          | reflexivity | reflexivity |].
        simpl. intros x Hx. rewrite !dom_insert, !elem_of_union, !elem_of_singleton in Hx.
        tauto.
      * eexists (inl not_serializable), _. split; [reflexivity|]. simpl.
        split; [congruence|]. split; [exact Hwfs|].
        split; [|split; [discriminate|split; [intros e [= <-]; left; reflexivity|]]].
        -- intros Hh. destruct (Hh1 Hh) as (_ & Hh1' & Hin).
           apply (healthy_grow (stepped t w1) _ path);
             [apply healthy_stepped; exact Hh1' | simpl; rewrite Hr1; exact Hin | exact Hpd
             | reflexivity | reflexivity |].
           simpl. intros x Hx. rewrite dom_insert, elem_of_union, elem_of_singleton in Hx.
           tauto.
        -- intros _ Hx. discriminate Hx.
    + exists (inl e), (stepped t w1). split; [reflexivity|]. simpl.
      split; [congruence|]. split; [exact Hwfs|].
      split; [intros Hh; apply healthy_stepped; apply Hh1; exact Hh|].
      split; [discriminate|].
      split; [intros e' [= <-]; right; exact Hose|].
      intros [Hoff | (Hh & Ht & Hf)] _; [discriminate Hoff|].
      destruct (Hh1 Hh) as (_ & Hh1' & Hin).
      destruct (full_name_no_slash t tag filename Ht (alphabet_no_slash _ _ Htag) Hf)
        as [Hplain Hne].
      pose proof (open_w_under_root (full_name t tag filename) (stepped t w1)
                    (healthy_stepped t w1 Hh1')) as Hopen.
      simpl in Hopen. rewrite Hr1 in Hopen. specialize (Hopen Hin Hplain Hne).
      unfold path in Ho. rewrite Hr1 in Ho. rewrite Hopen in Ho. discriminate Ho.
Qed.

(** With the flag off each of the four save operations returns at once and
    leaves the whole world as it was. *)
Lemma saves_off cv2_imwrite (w : World) filename text image obj escape :
  with_record w = false ->
  Recorder.save_text formatted_time_at filename text w = (inr tt, w) /\
  Recorder.save_image formatted_time_at cv2_imwrite filename image w = (inr tt, w) /\
  Recorder.save_yaml formatted_time_at filename obj w = (inr tt, w) /\
  Recorder.save_json formatted_time_at filename obj escape w = (inr tt, w).
Proof.
  intros Hoff.
  unfold Recorder.save_text, Recorder.save_image, Recorder.save_yaml, Recorder.save_json,
    bind, gets, ret.
  rewrite Hoff. simpl. auto.
Qed.

End RecorderFacts.

(** ** The recorder on concrete runs *)

Section RecorderExamples.
Import Recorder Samples.

(** Three files written within one millisecond. *)
Example make_filenames_three :
  fst (Recorder.make_filenames clock ["state.json"; "args.json"; "state.json"]
         (recording true))
  = inr [ "/rec/1104-120000.000.0-state.json";
          "/rec/1104-120000.000.1-args.json";
          "/rec/1104-120000.000.2-state.json" ].
Proof. vm_compute. reflexivity. Qed.

(** The 63rd file of a millisecond takes the name of the first. *)
Example make_filenames_collision :
  exists paths,
    fst (Recorder.make_filenames clock (replicate 63 "state.json") (recording true))
      = inr paths /\
    paths !! 62 = paths !! 0.
Proof. eexists. split; [vm_compute; reflexivity | reflexivity]. Qed.

(** The tag starts over when the clock has moved on. *)
Example make_filenames_reset :
  fst (Recorder.make_filenames clock ["a"; "b"; "c"]
         {| with_record := true; recorder := init "/rec";
            fs := {| dirs := ∅; files := ∅ |}; clock_reads := 98 |})
  = inr [ "/rec/1104-120000.000.0-a"; "/rec/1104-120000.000.1-b";
          "/rec/1104-120000.001.0-c" ].
Proof. vm_compute. reflexivity. Qed.

(** C8 on three calls within one millisecond. *)
Lemma make_filename_rotation_witness :
  exists paths w',
    Recorder.make_filenames clock ["state.json"; "args.json"; "state.json"]
      (recording true) = (inr paths, w') /\
    NoDup paths.
Proof.
  destruct (make_filename_rotation clock ["state.json"; "args.json"; "state.json"]
              (recording true) "1104-120000.000")
    as (_ & paths & w' & Hrun & _ & _ & _ & Hnd & _).
  - split; reflexivity.
  - intros k Hk. simpl in Hk. unfold clock. simpl.
    destruct (Nat.ltb_spec k 100) as [_|Hge]; [reflexivity | lia].
  - exists paths, w'. split; [exact Hrun|]. apply Hnd. simpl. lia.
Defined.

(** The sample recorder's directory is usable, and the sample clock's time
    texts hold no separator. *)
Lemma recording_healthy on : healthy (recording on).
Proof.
  unfold healthy; simpl. split; [reflexivity|].
  split; [rewrite dom_empty; apply not_elem_of_empty|].
  split; [right; apply Forall_forall; intros a _; rewrite dom_empty; apply not_elem_of_empty|].
  intros n _. apply not_elem_of_empty.
Qed.

Lemma clock_plain n : has_slash (clock n) = false.
Proof. unfold clock. destruct (n <? 100)%nat; reflexivity. Qed.

(** With the flag on, a save creates the root and the file. *)
Example save_json_with_record :
  let w' := snd (Recorder.save_json clock "state.json" (PDict [("k", PInt 1)]) false
                   (recording true)) in
  dirs (fs w') = {[ "/rec"; "/" ]} /\
  files (fs w') !! "/rec/1104-120000.000.0-state.json"
    = Some (Json (PDict [("k", PInt 1)]) false) /\
  idx (recorder w') = 0 /\
  last_formatted_time (recorder w') = Some "1104-120000.000".
Proof. vm_compute. auto. Qed.

End RecorderExamples.

(** ** The callback hub *)

Section HubFacts.
Import Recorder Callbacks.

Context (formatted_time_at : nat -> string).

Local Notation World := Callbacks.World.
Local Notation fire := (Callbacks.fire formatted_time_at).
Local Notation recorder_save_json := (Callbacks.recorder_save_json formatted_time_at).
Local Notation record_dialogue := (Callbacks.record_dialogue).

(** A value the dialogue record model accepts as [data]. *)
Definition storable (p : pyval) : bool :=
  match p with PDict _ | PNone => true | _ => false end.

(** The value [p] can go into a recorder file in [w]: the recorder is off,
    or the value serialises. *)
Definition can_save (w : World) (p : pyval) : bool :=
  negb (with_record (rec_world w)) || json_serializable p.

(** The value [p] can go into the dialogue store in [w]: no store is open,
    or it is a serialisable mapping. *)
Definition can_store (w : World) (p : pyval) : bool :=
  match _dialogue_history w with
  | None => true
  | Some _ => storable p && json_serializable p
  end.

(** The exceptions a recording step raises: the serialiser's [TypeError],
    an [OSError] of the file system, the store's [StatementError], the
    record model's [ValidationError]. *)
Definition recording_error (e : Exn) : Prop :=
  e = not_serializable \/
  os_error e \/
  e = StatementError "Object of type bytes is not JSON serializable" \/
  e = ValidationError "DialogueRecord".

(** The file system lets the recorder create the files named [names]: the
    recorder is off, or its directory is usable and neither the time texts
    nor the names hold a separator. *)
Definition files_can_be_created (names : list string) (w : World) : Prop :=
  with_record (rec_world w) = false \/
  (healthy (rec_world w) /\
   (forall n, has_slash (formatted_time_at n) = false) /\
   Forall (fun f => has_slash f = false) names).

(** What the recording steps keep: the flag, the recorder's constants,
    whether a dialogue store is open, and a usable directory. *)
Definition same_setup (w w' : World) : Prop :=
  with_record (rec_world w') = with_record (rec_world w) /\
  (well_formed (recorder (rec_world w)) -> well_formed (recorder (rec_world w'))) /\
  (_dialogue_history w' = None <-> _dialogue_history w = None) /\
  (healthy (rec_world w) -> healthy (rec_world w')).

Lemma same_setup_refl w : same_setup w w.
Proof. unfold same_setup; tauto. Qed.

Lemma same_setup_trans a b c : same_setup a b -> same_setup b c -> same_setup a c.
Proof.
  unfold same_setup; intros (H1 & H2 & H3 & H4) (H5 & H6 & H7 & H8).
  split; [congruence|]. split; [auto|]. split; [rewrite H7; exact H3 | auto].
Qed.

Lemma same_setup_can_save w w' p : same_setup w w' -> can_save w' p = can_save w p.
Proof. intros (H & _). unfold can_save. rewrite H. reflexivity. Qed.

Lemma same_setup_can_store w w' p : same_setup w w' -> can_store w' p = can_store w p.
Proof.
  intros (_ & _ & H & _). unfold can_store.
  destruct (_dialogue_history w'), (_dialogue_history w); try reflexivity.
  - destruct H as [_ H]. discriminate (H eq_refl).
  - destruct H as [H _]. discriminate (H eq_refl).
Qed.

Lemma same_setup_files names w w' :
  same_setup w w' -> files_can_be_created names w -> files_can_be_created names w'.
Proof.
  intros (Hon & _ & _ & Hh) [Hoff | (H1 & H2 & H3)].
  - left. congruence.
  - right. auto.
Qed.

Lemma files_can_be_created_app names1 names2 w :
  files_can_be_created (names1 ++ names2) w ->
  files_can_be_created names1 w /\ files_can_be_created names2 w.
Proof.
  intros [Hoff | (H1 & H2 & H3)]; [split; left; exact Hoff|].
  apply Forall_app in H3 as [Ha Hb]. split; right; auto.
Qed.

(** A recording computation governed by the condition [c] on the values
    and writing the files [names]: from a well-formed recorder it keeps the
    setup, returns only if [c] holds, raises nothing but recording errors,
    and does return under [c] when the files can be created. *)
Definition governed (m : M World unit) (c : World -> bool) (names : list string) : Prop :=
  (forall w w', same_setup w w' -> c w' = c w) /\
  forall w, well_formed (recorder (rec_world w)) ->
    exists r w', m w = (r, w') /\ same_setup w w' /\
      (r = inr tt -> c w = true) /\
      (forall e, r = inl e -> recording_error e) /\
      (files_can_be_created names w -> c w = true -> r = inr tt).

Lemma governed_save filename p escape :
  governed (recorder_save_json filename p escape) (fun w => can_save w p) [filename].
Proof.
  split; [intros w w' H; apply same_setup_can_save; exact H|].
  intros w Hwf. unfold Callbacks.recorder_save_json, in_recorder, can_save.
  destruct (save_json_spec formatted_time_at filename p escape (rec_world w) Hwf)
    as (r & rw' & -> & Hon & Hwf' & Hh & Hret & Herr & Hpos).
  exists r. eexists. split; [reflexivity|].
  split; [unfold same_setup; simpl; split; [exact Hon|]; split; [auto|]; split; tauto|].
  split; [exact Hret|]. split.
  - intros e He. destruct (Herr e He) as [->|Hos]; unfold recording_error; auto.
  - intros [Hoff | (Hhw & Ht & Hn)] Hc; apply Hpos; auto.
    right. split; [exact Hhw|]. split; [apply Ht|]. inversion Hn; assumption.
Qed.

Lemma governed_store sess inv agent tg nm p :
  governed (record_dialogue sess inv agent tg nm p) (fun w => can_store w p) [].
Proof.
  split; [intros w w' H; apply same_setup_can_store; exact H|].
  intros w _. unfold Callbacks.record_dialogue, can_store, bind, gets.
  destruct (_dialogue_history w) as [db|] eqn:Hdb.
  - unfold datetime_now, in_recorder. cbn -[json_serializable new_DialogueRecord append].
    assert (Hsetup : forall dh',
               same_setup w
                 {| rec_world :=
                      {| with_record := with_record (rec_world w);
                         recorder := recorder (rec_world w);
                         fs := fs (rec_world w);
                         clock_reads := S (clock_reads (rec_world w)) |};
                    _dialogue_history := Some dh' |}).
    { intros dh'. unfold same_setup; simpl. rewrite Hdb.
      split; [reflexivity|]. split; [auto|]. split; [split; discriminate | auto]. }
    destruct (storable p) eqn:Hst.
    + assert (Hnew : exists rec0, forall w0 : World,
                 new_DialogueRecord (clock_reads (rec_world w)) sess inv agent tg nm p w0
                   = (inr rec0, w0) /\ data rec0 = p).
      { destruct p; try discriminate Hst; eexists; intros w0; split; reflexivity. }
      destruct Hnew as (rec0 & Hnew).
      destruct (Hnew {| rec_world :=
                          {| with_record := with_record (rec_world w);
                             recorder := recorder (rec_world w);
                             fs := fs (rec_world w);
                             clock_reads := S (clock_reads (rec_world w)) |};
                        _dialogue_history := _dialogue_history w |}) as [-> Hdata].
      unfold append. rewrite Hdata.
      destruct (json_serializable p) eqn:Hser; cbn -[json_serializable].
      * eexists _, _. split; [reflexivity|]. split; [apply Hsetup|].
        split; [reflexivity|]. split; [discriminate | reflexivity].
      * eexists _, _. split; [reflexivity|].
        split; [rewrite Hdb; apply Hsetup|].
        split; [discriminate|]. split; [|intros _ Hx; discriminate Hx].
        intros e [= <-]. unfold recording_error; auto.
    + assert (Hnew : forall w0 : World,
                 new_DialogueRecord (clock_reads (rec_world w)) sess inv agent tg nm p w0
                   = (inl (ValidationError "DialogueRecord"), w0)).
      { destruct p; try discriminate Hst; intros w0; reflexivity. }
      rewrite Hnew. cbn -[json_serializable].
      eexists _, _. split; [reflexivity|].
      split; [rewrite Hdb; apply Hsetup|].
      split; [discriminate|]. split; [|intros _ Hx; discriminate Hx].
      intros e [= <-]. unfold recording_error; auto.
  - exists (inr tt), w. split; [reflexivity|]. split; [apply same_setup_refl|].
    split; [reflexivity|]. split; [discriminate | reflexivity].
Qed.

Lemma governed_seq m1 c1 n1 m2 c2 n2 :
  governed m1 c1 n1 -> governed m2 c2 n2 ->
  governed (bind m1 (fun _ => m2)) (fun w => c1 w && c2 w) (n1 ++ n2).
Proof.
  intros [I1 G1] [I2 G2]. split.
  - intros w w' H. rewrite (I1 _ _ H), (I2 _ _ H). reflexivity.
  - intros w Hwf. unfold bind.
    destruct (G1 w Hwf) as (r1 & w1 & -> & S1 & T1 & E1 & P1).
    destruct r1 as [e|[]].
    + exists (inl e), w1. split; [reflexivity|]. split; [exact S1|].
      split; [discriminate|]. split; [exact E1|].
      intros Hf Hc. apply andb_true_iff in Hc as [Hc1 _].
      apply files_can_be_created_app in Hf as [Hf1 _]. exact (P1 Hf1 Hc1).
    + assert (Hwf1 : well_formed (recorder (rec_world w1))) by (apply S1; exact Hwf).
      destruct (G2 w1 Hwf1) as (r2 & w2 & -> & S2 & T2 & E2 & P2).
      rewrite (I2 _ _ S1) in T2, P2.
      exists r2, w2. split; [reflexivity|].
      split; [eapply same_setup_trans; eauto|].
      split; [intros Hr; rewrite (T1 eq_refl), (T2 Hr); reflexivity|].
      split; [exact E2|].
      intros Hf Hc. apply andb_true_iff in Hc as [_ Hc2].
      apply files_can_be_created_app in Hf as [_ Hf2].
      apply P2; [eapply same_setup_files; eauto | exact Hc2].
Qed.

(** Both the recorder write and the store append of [p] can go through. *)
Definition writable (w : World) (p : pyval) : bool := can_save w p && can_store w p.

(** Every hook is a sequence of recorder writes and store appends of the
    values it snapshots, under the names it gives the files. *)
Lemma fire_governed (h : HookCall) :
  governed (fire h) (fun w => forallb (writable w) (payloads h)) (file_names h).
Proof.
  destruct h; simpl fire; simpl payloads; simpl file_names;
    unfold before_agent, after_agent, before_model, after_model, before_tool,
      after_tool, on_event;
    cbv zeta;
    match goal with
    | |- governed ?m _ _ =>
        let rec build m :=
          lazymatch m with
          | bind ?a (fun _ => ?b) =>
              let ga := build a in
              let gb := build b in
              constr:(governed_seq _ _ _ _ _ _ ga gb)
          | Callbacks.recorder_save_json _ ?f ?p ?e => constr:(governed_save f p e)
          | Callbacks.record_dialogue ?s ?i ?a ?t ?n ?p =>
              constr:(governed_store s i a t n p)
          end in
        let g := build m in
        pose proof g as [I0 G0]
    end;
    (split;
     [ intros w1 w2 H12; unfold writable; simpl forallb;
       rewrite ?(same_setup_can_save _ _ _ H12), ?(same_setup_can_store _ _ _ H12);
       reflexivity
     | intros w0 Hwf0; destruct (G0 w0 Hwf0) as (r & w' & Hrun & Hs & T & E & P);
       exists r, w'; split; [exact Hrun|]; split; [exact Hs|];
       unfold writable; simpl forallb;
       split; [|split; [exact E|]];
       [ intros Hr; specialize (T Hr); revert T; clear;
         repeat match goal with
                | |- context [can_save ?a ?b] => destruct (can_save a b)
                | |- context [can_store ?a ?b] => destruct (can_store a b)
                end; simpl; auto
       | intros Hf Hc; apply P; [exact Hf|]; revert Hc; clear;
         repeat match goal with
                | |- context [can_save ?a ?b] => destruct (can_save a b)
                | |- context [can_store ?a ?b] => destruct (can_store a b)
                end; simpl; auto ] ]).
Qed.


End HubFacts.

(** ** The callback hub on concrete firings *)

Section HubExamples.
Import Recorder Callbacks Samples.


(** The same with the recorder off and a dialogue store open: the store's
    failure comes out of the hook. *)
Example before_agent_store_failure_propagates :
  fst (Callbacks.before_agent clock ctx_bytes (hub false true))
  = inl (StatementError "Object of type bytes is not JSON serializable").
Proof. vm_compute. reflexivity. Qed.

(** The file had been opened when the serialiser failed: it stays behind,
    empty. *)
Example before_agent_leaves_truncated_file :
  files (fs (rec_world (snd (Callbacks.before_agent clock ctx_bytes (hub true false)))))
    !! "/rec/1104-120000.000.0-456789.BA.host_agent.state.json"
  = Some Truncated.
Proof. vm_compute. reflexivity. Qed.

(** A value that serialises is no guarantee: when the recorder's directory
    is the name of a regular file, opening the snapshot's file fails. *)
Example before_agent_root_is_a_file :
  let w := {| rec_world :=
                {| with_record := true; recorder := Recorder.init "/rec";
                   fs := {| dirs := {[ "/" ]}; files := {[ "/rec" := Text "x" ]} |};
                   clock_reads := 0 |};
              _dialogue_history := None |} in
  fst (Callbacks.before_agent clock ctx_plain w) = inl (OSError "NotADirectoryError").
Proof. vm_compute. reflexivity. Qed.

(** Nor is an agent name with a path separator in it: the file would lie in
    a directory that does not exist. *)
Example before_agent_name_with_separator :
  let ctx := {| ctx_invocation_id := "e-0123456789"; ctx_agent_name := "host/agent";
                ctx_state := [("author", PStr "leon")]; ctx_session := session0 |} in
  fst (Callbacks.before_agent clock ctx (hub true false)) = inl (OSError "FileNotFoundError").
Proof. vm_compute. reflexivity. Qed.


End HubExamples.

(** ** The execution loop *)

Section ExecutorFacts.
Import A2A Executor.

Context (json_loads : string -> option pyval)
        (scan : pyval -> Exn + list Event).

Local Notation handle_item := (Executor.handle_item json_loads scan).
Local Notation loop_body := (Executor.loop_body json_loads scan).
Local Notation run_loop := (Executor.run_loop json_loads scan).
Local Notation execute := (Executor.execute json_loads scan).
Local Notation steps_processed := (Executor.steps_processed json_loads scan).

(** The world with [evs] added to the event queue. *)
Definition emit (evs : list Event) (w : World) : World :=
  {| _messages := _messages w; event_queue := (event_queue w ++ evs)%list |}.

(** The status update a queued progress line becomes. *)
Definition progress_event (tc : nat * string) : Event :=
  StatusUpdate working (Some [TextPart (snd tc)]) false (Some (fst tc)).

(** The world once the progress lines of [step] went out. *)
Definition flushed (step : Step) (w : World) : World :=
  {| _messages := [];
     event_queue := (event_queue w ++ map progress_event (_messages w ++ queued step))%list |}.

(** The three terminal updates of the loop. *)
Definition needs_input (data : pyval) : Event :=
  StatusUpdate input_required (Some [DataPart data]) true None.

Definition unexpected_state : Event :=
  StatusUpdate failed (Some [TextPart "Reaching an unexpected state"]) true None.

Definition done : Event := StatusUpdate completed None true None.

Lemma emit_nil w : emit [] w = w.
Proof. destruct w. unfold emit. simpl. rewrite app_nil_r. reflexivity. Qed.

Lemma emit_emit a b w : emit b (emit a w) = emit (a ++ b) w.
Proof. unfold emit. simpl. rewrite <- app_assoc. reflexivity. Qed.

Lemma for_each_enqueue {A} (f : A -> Event) (xs : list A) (w : World) :
  for_each (fun x => enqueue_event (f x)) xs w = (inr tt, emit (map f xs) w).
Proof.
  revert w. induction xs as [|x xs IH]; intros w; simpl.
  - unfold ret. rewrite emit_nil. reflexivity.
  - unfold bind, enqueue_event, modify. rewrite IH. unfold emit. simpl.
    rewrite <- app_assoc. reflexivity.
Qed.

Lemma flush_messages_spec step (w : World) :
  Executor.flush_messages step w = (inr tt, flushed step w).
Proof.
  unfold Executor.flush_messages, bind, modify, gets. simpl.
  rewrite (for_each_enqueue progress_event). reflexivity.
Qed.

Lemma loop_body_spec step (w : World) :
  loop_body step w = handle_item (item step) (flushed step w).
Proof.
  unfold Executor.loop_body, bind. rewrite flush_messages_spec. reflexivity.
Qed.

(** A step that answers [Break] is the last one the loop goes through. *)
Lemma break_ends_loop step rest (w w' : World) :
  loop_body step w = (inr Break, w') ->
  run_loop (step :: rest) w = (inr tt, w') /\ steps_processed (step :: rest) w = 1.
Proof.
  intros H. simpl. unfold bind. rewrite H. split; reflexivity.
Qed.

(** A step that answers [Continue] hands the rest of the stream to the loop. *)
Lemma continue_goes_on step rest (w w' : World) :
  loop_body step w = (inr Continue, w') ->
  run_loop (step :: rest) w = run_loop rest w' /\
  steps_processed (step :: rest) w = S (steps_processed rest w').
Proof.
  intros H. simpl. unfold bind. rewrite H. split; reflexivity.
Qed.

(** A final mapping whose [response] is a mapping with a [result] text that
    parses to an object: one final input-required update, and [Continue]. *)
Lemma final_form_step (step : Step) (w : World) d r s data :
  is_task_complete (item step) = true ->
  content (item step) = PDict d ->
  dict_get "response" d = Some (PDict r) ->
  dict_get "result" r = Some (PStr s) ->
  json_loads s = Some (PDict data) ->
  loop_body step w = (inr Continue, emit [needs_input (PDict data)] (flushed step w)).
Proof.
  intros Hfinal Hc Hresp Hres Hparse. rewrite loop_body_spec.
  unfold Executor.handle_item. rewrite Hfinal, Hc. cbn [negb].
  unfold bind, lift_result, py_json_loads, enqueue_event, ret. rewrite Hresp.
  cbn [py_contains py_getitem]. rewrite Hres.
  rewrite bool_decide_eq_true_2 by eauto.
  rewrite Hresp. cbn [py_getitem]. rewrite Hres, Hparse. reflexivity.
Qed.

(** A final string: the [form] artifact, the final completed update, and
    [Break]. *)
Lemma final_text_step (step : Step) (w : World) text :
  is_task_complete (item step) = true ->
  content (item step) = PStr text ->
  loop_body step w =
    (inr Break, emit [ArtifactUpdate "form" [TextPart text]; done] (flushed step w)).
Proof.
  intros Hfinal Hc. rewrite loop_body_spec.
  unfold Executor.handle_item. rewrite Hfinal, Hc. cbn [negb].
  unfold bind, enqueue_event, modify, ret, emit. simpl.
  rewrite <- app_assoc. reflexivity.
Qed.

(** What a final item can do. *)
Lemma handle_final_outcomes (it : Item) (w : World) r w' :
  is_task_complete it = true ->
  handle_item it w = (r, w') ->
  (exists data, r = inr Continue /\ w' = emit [needs_input data] w) \/
  (r = inr Break /\ w' = emit [unexpected_state] w) \/
  (exists text, r = inr Break /\ w' = emit [ArtifactUpdate "form" [TextPart text]; done] w) \/
  (exists e, r = inl e /\ w' = w).
Proof.
  intros Hfinal. unfold Executor.handle_item. rewrite Hfinal. cbn [negb].
  destruct (content it) as [| | |text| | |d];
    try (unfold raise; intros [= <- <-]; right; right; right; eauto; fail).
  - unfold bind, enqueue_event, modify, ret. simpl. intros [= <- <-].
    right; right; left. exists text. split; [reflexivity|].
    unfold emit. simpl. rewrite <- app_assoc. reflexivity.
  - unfold bind at 1.
    destruct (match dict_get "response" d with
              | Some response => lift_result (py_contains "result" response)
              | None => ret false
              end w) as [[e|[|]] w2] eqn:Hform.
    + assert (w2 = w) as ->.
      { destruct (dict_get "response" d); [unfold lift_result in Hform|unfold ret in Hform];
          congruence. }
      intros [= <- <-]. right; right; right; eauto.
    + assert (w2 = w) as ->.
      { destruct (dict_get "response" d); [unfold lift_result in Hform|unfold ret in Hform];
          congruence. }
      unfold bind, lift_result, py_json_loads, enqueue_event, modify, ret, raise.
      destruct (py_getitem "response" (PDict d)) as [e|response];
        [intros [= <- <-]; right; right; right; eauto|].
      destruct (py_getitem "result" response) as [e|result];
        [intros [= <- <-]; right; right; right; eauto|].
      assert (Hdata : forall data : pyval,
                 match data with
                 | PDict _ => (inr Continue, emit [needs_input data] w)
                 | _ => (inl (ValidationError "DataPart"), w)
                 end = (r, w') ->
                 (exists data, r = inr Continue /\ w' = emit [needs_input data] w) \/
                 (r = inr Break /\ w' = emit [unexpected_state] w) \/
                 (exists text, r = inr Break /\
                               w' = emit [ArtifactUpdate "form" [TextPart text]; done] w) \/
                 (exists e, r = inl e /\ w' = w)).
      { intros data H. destruct data; injection H as <- <-; eauto 7. }
      destruct result;
        try (intros [= <- <-]; right; right; right; eauto; fail);
        match goal with
        | |- context [json_loads ?x] => destruct (json_loads x) as [data|]
        end;
        try (intros [= <- <-]; right; right; right; eauto; fail);
        intros H; apply (Hdata data); destruct data; exact H.
    + assert (w2 = w) as ->.
      { destruct (dict_get "response" d); [unfold lift_result in Hform|unfold ret in Hform];
          congruence. }
      unfold bind, enqueue_event, modify, ret. simpl. intros [= <- <-].
      right; left. split; reflexivity.
Qed.

(** What the parser's answer on the text of [response.result] leads to. *)
Definition parse_outcome (step : Step) (w : World) (parsed : option pyval)
  : (Exn + Control) * World :=
  match parsed with
  | Some (PDict data) => (inr Continue, emit [needs_input (PDict data)] (flushed step w))
  | Some _ => (inl (ValidationError "DataPart"), flushed step w)
  | None => (inl JSONDecodeError, flushed step w)
  end.


(** A final mapping whose [response.result] is not a text never reaches a
    terminal state: [json.loads] rejects it and the exception leaves
    [execute], whatever the parser does on texts. *)
Lemma final_step_result_not_text (d : list (string * pyval)) (l : list pyval) (w : World) :
  dict_get "response" d = Some (PDict [("result", PList l)]) ->
  loop_body (Samples.final_step (PDict d)) w
  = (inl (TypeError "the JSON object must be str, bytes or bytearray"),
     flushed (Samples.final_step (PDict d)) w).
Proof.
  intros Hresp. rewrite loop_body_spec.
  unfold Executor.handle_item, bind, lift_result.
  cbn [Samples.final_step item is_task_complete content negb py_getitem].
  rewrite Hresp. reflexivity.
Qed.

(** C7 (the code departs from the specification).  A final step that ends in
    input-required does not end the loop: when the stream yields a further
    final step, the loop goes through it as well and emits a second terminal
    update.  Here a form step is followed by a text step: both are
    processed, and the queue ends with the final input-required update, the
    [form] artifact and the final completed update. *)
Theorem input_required_does_not_end_loop (s text : string) (data : list (string * pyval))
    (w : World) :
  json_loads s = Some (PDict data) ->
  let stream :=
    [ Samples.final_step (PDict [("response", PDict [("result", PStr s)])]);
      Samples.final_step (PStr text) ] in
  execute true stream w =
    (inr tt,
     {| _messages := [];
        event_queue :=
          (event_queue w ++ map progress_event (_messages w) ++
           [ needs_input (PDict data); ArtifactUpdate "form" [TextPart text]; done ])%list |})
  /\ steps_processed stream w = 2.
Proof.
  intros Hparse stream.
  assert (H1 : loop_body (Samples.final_step (PDict [("response", PDict [("result", PStr s)])])) w
               = (inr Continue,
                  emit [needs_input (PDict data)]
                    (flushed (Samples.final_step
                                (PDict [("response", PDict [("result", PStr s)])])) w))).
  { eapply final_form_step; try reflexivity. exact Hparse. }
  set (w1 := emit _ _) in H1.
  assert (H2 : loop_body (Samples.final_step (PStr text)) w1
               = (inr Break,
                  emit [ArtifactUpdate "form" [TextPart text]; done]
                    (flushed (Samples.final_step (PStr text)) w1))).
  { apply final_text_step; reflexivity. }
  split.
  - unfold Executor.execute, bind, ret, stream.
    destruct (continue_goes_on _ [Samples.final_step (PStr text)] _ _ H1) as [-> _].
    destruct (break_ends_loop _ [] _ _ H2) as [-> _].
    f_equal. unfold emit, flushed, w1, emit, flushed. simpl.
    rewrite !app_nil_r, <- !app_assoc. reflexivity.
  - unfold stream.
    destruct (continue_goes_on _ [Samples.final_step (PStr text)] _ _ H1) as [_ ->].
    destruct (break_ends_loop _ [] _ _ H2) as [_ ->]. reflexivity.
Qed.

End ExecutorFacts.

(** ** The execution loop on concrete streams *)

Section ExecutorExamples.
Import A2A Executor Samples.

Local Notation run := (Executor.execute json_loads no_images true).


(** The scenario of the specification: the final content is the string
    [Done]. *)
Example execute_done :
  run [final_step (PStr "Done")] quiet
  = (inr tt,
     {| _messages := [];
        event_queue := [ArtifactUpdate "form" [TextPart "Done"];
                        StatusUpdate completed None true None] |}).
Proof. reflexivity. Qed.


(** The result of the repository's [call_number] tool is a text that is not
    JSON: the turn ends in a decoding error. *)
Example execute_result_plain_text_raises :
  fst (run [final_step (PDict [("response",
                                PDict [("phone_number", PStr "1234567890");
                                       ("result", PStr "Calling 1234567890...")])])]
         quiet)
  = inl JSONDecodeError.
Proof. reflexivity. Qed.

(** C7 at a failing input: a form step followed by a text step. *)
Lemma input_required_does_not_end_loop_witness :
  final_updates
    (event_queue
       (snd (run [ final_step (PDict [("response", PDict [("result", PStr form_document)])]);
                   final_step (PStr "Done") ] quiet)))
  = [ StatusUpdate input_required (Some [DataPart (PDict [("a", PInt 1)])]) true None;
      StatusUpdate completed None true None ].
Proof.
  destruct (input_required_does_not_end_loop json_loads no_images form_document "Done"
              [("a", PInt 1)] quiet eq_refl) as [H _].
  rewrite H. reflexivity.
Defined.

End ExecutorExamples.

(** * Further properties *)

(** ** Part conversion and dispatch, beyond single parts *)

Section ConversionFacts.
Import A2A HostAgent.

Context (uuid4 : nat -> string) {Store : Type}
        (save_artifact : option string -> Blob -> Store -> string + Store).

Local Notation World := (HostAgent.World Store).
Local Notation send_message := (HostAgent.send_message uuid4 Store save_artifact).
Local Notation build_request := (HostAgent.build_request uuid4 Store).
Local Notation convert_part := (HostAgent.convert_part Store save_artifact).
Local Notation convert_parts := (HostAgent.convert_parts Store save_artifact).
Local Notation collect_response := (HostAgent.collect_response Store save_artifact).
Local Notation branch_on_state := (HostAgent.branch_on_state Store).

(** The name a file object carries. *)
Definition file_name (f : FileObj) : option string :=
  match f with
  | FileWithBytes _ _ name => name
  | FileWithUri _ _ name => name
  end.

(** The value a part stands for in a converted list. *)
Definition value_of (p : Part) : retval :=
  match root p with
  | TextPart text => RStr text
  | DataPart data => RObj data
  | FilePart f => RDataPart (PDict [("artifact-file-id", opt_str (file_name f))])
  end.

Lemma convert_part_value p (w : World) v w' :
  convert_part p w = (inr v, w') ->
  v = value_of p /\
  (is_file_part p = true -> skip_summarization w' = true /\ escalate w' = true) /\
  (is_file_part p = false -> w' = w).
Proof.
  unfold HostAgent.convert_part, value_of, is_file_part.
  destruct (root p) as [text|data|[bytes mime name|uri mime name]].
  - intros [= <- <-]. repeat split; auto; discriminate.
  - intros [= <- <-]. repeat split; auto; discriminate.
  - unfold bind, lift_result, tool_context_save_artifact, modify, ret.
    destruct (Base64.b64decode bytes) as [e|bs]; [discriminate|].
    destruct (save_artifact name _ (artifact_store w)) as [m|s']; [discriminate|].
    intros [= <- <-]. simpl. repeat split; auto; discriminate.
  - discriminate.
Qed.

Lemma convert_parts_values ps : forall (w : World) vs w',
  convert_parts ps w = (inr vs, w') -> vs = map value_of ps.
Proof.
  induction ps as [|p ps IH]; intros w vs w'.
  - intros [= <- <-]. reflexivity.
  - unfold HostAgent.convert_parts; simpl. unfold bind.
    destruct (convert_part p w) as [[e|v] w1] eqn:Hp; [discriminate|].
    destruct (map_m convert_part ps w1) as [[e|vs'] w2] eqn:Hps; [discriminate|].
    intros [= <- <-]. simpl.
    apply convert_part_value in Hp as [-> _].
    f_equal. eapply IH. exact Hps.
Qed.

(** X1: when [convert_parts] returns, its result has one value per part, in
    the order of the parts: the text of a text part, the object of a data
    part, the reference to its file name for a file part. *)
Theorem convert_parts_pointwise ps (w : World) vs w' :
  convert_parts ps w = (inr vs, w') -> vs = map value_of ps.
Proof.
  revert w vs w'. induction ps as [|p ps IH]; intros w vs w'.
  - intros [= <- <-]. reflexivity.
  - unfold HostAgent.convert_parts; simpl. unfold bind.
    destruct (convert_part p w) as [[e|v] w1] eqn:Hp; [discriminate|].
    destruct (map_m convert_part ps w1) as [[e|vs'] w2] eqn:Hps; [discriminate|].
    intros [= <- <-]. simpl.
    apply convert_part_value in Hp as [-> _].
    f_equal. eapply IH. exact Hps.
Qed.

(** X2: a conversion that returns has set both action flags as soon as one
    of the parts is a file, and has left the tool context exactly as it was
    when none is. *)
Theorem convert_parts_effects ps (w : World) vs w' :
  convert_parts ps w = (inr vs, w') ->
  (existsb is_file_part ps = true ->
     skip_summarization w' = true /\ escalate w' = true) /\
  (existsb is_file_part ps = false -> w' = w).
Proof.
  revert w vs w'. induction ps as [|p ps IH]; intros w vs w'.
  - intros [= <- <-]. split; [discriminate | reflexivity].
  - unfold HostAgent.convert_parts; simpl. unfold bind.
    destruct (convert_part p w) as [[e|v] w1] eqn:Hp; [discriminate|].
    destruct (map_m convert_part ps w1) as [[e|vs'] w2] eqn:Hps; [discriminate|].
    intros [= <- <-].
    pose proof (convert_part_value _ _ _ _ Hp) as (_ & Hfile & Hplain).
    pose proof (convert_parts_inv save_artifact _ _ _ _ Hps) as [(_ & _ & _ & Hs & He) _].
    destruct (IH _ _ _ Hps) as [IHf IHp].
    destruct (is_file_part p) eqn:Hk; simpl.
    + split; [|discriminate]. intros _. destruct (Hfile eq_refl). auto.
    + rewrite (Hplain eq_refl) in *. split; [exact IHf | exact IHp].
Qed.

(** X3: [convert_parts] gives up at the first part that fails: the
    exception of that part is the result, the parts after it are not
    looked at, and what the parts before it did (artifacts stored, flags
    set) stays. *)
Theorem convert_parts_stops_at_failure before p after (w : World) vs w1 e w2 :
  convert_parts before w = (inr vs, w1) ->
  convert_part p w1 = (inl e, w2) ->
  convert_parts (before ++ p :: after) w = (inl e, w1) /\ w2 = w1.
Proof.
  intros Hbefore Hp.
  assert (Hw : w2 = w1).
  { unfold HostAgent.convert_part in Hp.
    destruct (root p) as [text|data|[bytes mime name|uri mime name]];
      try discriminate Hp.
    - unfold bind, lift_result, tool_context_save_artifact, modify, ret in Hp.
      destruct (Base64.b64decode bytes) as [e'|bs]; [congruence|].
      destruct (save_artifact name _ (artifact_store w1)) as [m|s']; [congruence|].
      discriminate Hp.
    - unfold raise in Hp. congruence. }
  split; [|exact Hw]. subst w2.
  revert w vs Hbefore. induction before as [|q qs IH]; intros w vs.
  - intros [= <- <-]. unfold HostAgent.convert_parts; simpl. unfold bind.
    rewrite Hp. reflexivity.
  - unfold HostAgent.convert_parts; simpl. unfold bind.
    destruct (convert_part q w) as [[e'|v] wq] eqn:Hq; [discriminate|].
    destruct (map_m convert_part qs wq) as [[e'|vs'] w'] eqn:Hqs; [discriminate|].
    intros [= <- <-].
    specialize (IH wq vs' Hqs). unfold HostAgent.convert_parts in IH.
    rewrite IH. reflexivity.
Qed.

Lemma concat_map_value (arts : list Artifact) :
  concat (map (fun a => map value_of (artifact_parts a)) arts)
  = map value_of (concat (map artifact_parts arts)).
Proof.
  induction arts as [|a arts IH]; simpl; [reflexivity|].
  rewrite map_app, IH. reflexivity.
Qed.

Lemma convert_artifacts_pointwise (arts : list Artifact) (w : World) rs w' :
  map_m (fun a => convert_parts (artifact_parts a)) arts w = (inr rs, w') ->
  rs = map (fun a => map value_of (artifact_parts a)) arts.
Proof.
  revert w rs w'. induction arts as [|a arts IH]; intros w rs w'; simpl.
  - intros [= <- <-]. reflexivity.
  - unfold bind.
    destruct (convert_parts (artifact_parts a) w) as [[e|v] w1] eqn:Ha; [discriminate|].
    destruct (map_m _ arts w1) as [[e|rs'] w2] eqn:Harts; [discriminate|].
    intros [= <- <-]. simpl.
    apply convert_parts_values in Ha. apply IH in Harts. congruence.
Qed.

Lemma collect_response_pointwise task (w : World) vs w' :
  collect_response task w = (inr vs, w') -> vs = map value_of (task_parts task).
Proof.
  unfold HostAgent.collect_response, task_parts, bind, ret.
  destruct (match status_message (status task) with
            | Some m => convert_parts (parts m)
            | None => fun w => (inr [], w)
            end w) as [[e|vs1] w1] eqn:H1; [discriminate|].
  assert (E1 : vs1 = map value_of match status_message (status task) with
                                  | Some m => parts m
                                  | None => []
                                  end).
  { destruct (status_message (status task)).
    - eapply convert_parts_values; eauto.
    - injection H1 as <- <-. reflexivity. }
  destruct (artifacts task) as [arts|].
  - destruct (map_m _ arts w1) as [[e|rs] w2] eqn:H2; [discriminate|].
    intros [= <- <-]. apply convert_artifacts_pointwise in H2. subst rs vs1.
    rewrite map_app, concat_map_value. reflexivity.
  - intros [= <- <-]. subst vs1. rewrite map_app. reflexivity.
Qed.

(** X4: whatever [send_message] returns is the list of the converted parts
    of the returned task, those of the status message first and then those
    of each artifact, in the order the remote agent gave them. *)
Theorem send_message_result_order self agent_name msg client rq task (w : World) vs w' :
  remote_agent_connections self !! agent_name = Some (Some client) ->
  fst (build_request msg
         (set_tc_state (fun st => <["agent" := PStr agent_name]> st) w)) = inr rq ->
  client_send_message client rq = RespTask task ->
  send_message self agent_name msg w = (inr vs, w') ->
  vs = map value_of (task_parts task).
Proof.
  intros Hc Hrq Hreply Hrun.
  destruct (built uuid4 _ _ _ Hrq) as [w1 Hb].
  rewrite (send_message_registered uuid4 save_artifact self agent_name msg client w Hc),
    Hb, Hreply in Hrun.
  unfold bind in Hrun.
  destruct (branch_on_state agent_name task _) as [[e|[]] w2]; [discriminate|].
  eapply collect_response_pointwise. exact Hrun.
Qed.

(** The message constructor accepts the identifiers of the session state:
    a truthy [message_id] is a text (or bytes that decode), and [context_id]
    and [task_id] are each absent, [None] or such a text. *)
Definition ids_accepted (w : World) : bool :=
  let m := default PNone (tc_state w !! "message_id") in
  (if truthy m then bool_decide (is_Some (str_field m)) else true) &&
  bool_decide (is_Some (opt_str_field (default PNone (tc_state w !! "context_id")))) &&
  bool_decide (is_Some (opt_str_field (default PNone (tc_state w !! "task_id")))).

Lemma build_request_accepts msg (w : World) :
  (exists rq, fst (build_request msg w) = inr rq) <-> ids_accepted w = true.
Proof.
  rewrite build_request_run. unfold new_Message, chosen_message_id, ids_accepted. simpl.
  destruct (truthy (default PNone (tc_state w !! "message_id")));
    [destruct (str_field (default PNone (tc_state w !! "message_id")))|
     change (str_field (PStr ?u)) with (Some (PStr u))];
    destruct (opt_str_field (default PNone (tc_state w !! "context_id")));
    destruct (opt_str_field (default PNone (tc_state w !! "task_id")));
    simpl;
    rewrite ?(bool_decide_eq_true_2 (is_Some (Some _))) by eauto;
    rewrite ?(bool_decide_eq_false_2 (is_Some None)) by (intros [? ?]; discriminate);
    simpl; split; try (intros [? ?]); try discriminate; eauto.
Qed.


End ConversionFacts.

(** ** The registry and the active agent *)

Section RegistryFacts.
Import A2A HostAgent Registry.

Context (connect : AgentCard -> RemoteAgentConnections)
        (json_dumps : pyval -> string).

Local Notation register_agent_card := (Registry.register_agent_card connect json_dumps).
Local Notation add_card := (Registry.add_card connect).
Local Notation register_all := (Registry.register_all connect json_dumps).

Lemma dict_lookup_set {V} k (v : V) d k' :
  dict_lookup k' (dict_set k v d) = if String.eqb k' k then Some v else dict_lookup k' d.
Proof.
  induction d as [|[k0 v0] d IH]; simpl.
  - reflexivity.
  - destruct (String.eqb_spec k k0) as [->|Hne]; simpl.
    + destruct (String.eqb k' k0); reflexivity.
    + rewrite IH. destruct (String.eqb_spec k' k0) as [->|Hne'].
      * destruct (String.eqb_spec k0 k); [congruence | reflexivity].
      * reflexivity.
Qed.

Lemma dict_set_set {V} k (v1 v2 : V) d :
  dict_set k v2 (dict_set k v1 d) = dict_set k v2 d.
Proof.
  induction d as [|[k0 v0] d IH]; simpl.
  - rewrite String.eqb_refl. reflexivity.
  - destruct (String.eqb k k0) eqn:Hk; simpl; rewrite ?String.eqb_refl, ?Hk, ?IH;
      reflexivity.
Qed.

Lemma dict_set_keys {V} k (v : V) d :
  map fst (dict_set k v d) =
    if bool_decide (k ∈ map fst d) then map fst d else (map fst d ++ [k])%list.
Proof.
  induction d as [|[k0 v0] d IH]; simpl.
  - reflexivity.
  - destruct (String.eqb_spec k k0) as [->|Hne]; simpl.
    + rewrite bool_decide_eq_true_2 by (left). reflexivity.
    + rewrite IH. destruct (bool_decide (k ∈ map fst d)) eqn:Hin.
      * apply bool_decide_eq_true in Hin.
        rewrite bool_decide_eq_true_2 by (right; exact Hin). reflexivity.
      * apply bool_decide_eq_false in Hin.
        rewrite bool_decide_eq_false_2; [reflexivity|].
        intros Hc. apply elem_of_cons in Hc as [?|?]; [congruence | contradiction].
Qed.

Lemma dispatcher_lookup (self : Host) k :
  remote_agent_connections (dispatcher self) !! k
  = option_map Some (dict_lookup k (connections self)).
Proof.
  unfold dispatcher; simpl.
  induction (connections self) as [|[k0 c0] d IH]; simpl.
  - apply lookup_empty.
  - destruct (String.eqb_spec k k0) as [->|Hne].
    + apply lookup_insert_eq.
    + rewrite lookup_insert_ne by congruence. exact IH.
Qed.

(** X6: after [register_agent_card] the dispatcher resolves the card's name
    to the handle built for that card, and every other name as before. *)
Theorem register_then_resolve (card : AgentCard) (self : Host) :
  remote_agent_connections (dispatcher (register_agent_card card self)) !! card_name card
    = Some (Some (connect card)) /\
  (forall other, other <> card_name card ->
     remote_agent_connections (dispatcher (register_agent_card card self)) !! other
     = remote_agent_connections (dispatcher self) !! other).
Proof.
  split.
  - rewrite dispatcher_lookup. simpl. rewrite dict_lookup_set, String.eqb_refl.
    reflexivity.
  - intros other Hne. rewrite !dispatcher_lookup. simpl. rewrite dict_lookup_set.
    destruct (String.eqb_spec other (card_name card)); [contradiction | reflexivity].
Qed.

(** X7: registering a card under a name that is already registered replaces
    the earlier card in place: the registry is the one that registering only
    the later card gives.  In particular registering the same card twice is
    registering it once. *)
Theorem register_last_wins (c1 c2 : AgentCard) (self : Host) :
  card_name c1 = card_name c2 ->
  register_agent_card c2 (register_agent_card c1 self) = register_agent_card c2 self.
Proof.
  intros Hn. unfold Registry.register_agent_card, Registry.refresh_agents, Registry.add_card.
  simpl. rewrite Hn, !dict_set_set. reflexivity.
Qed.

(** The two dictionaries have the same keys, each once. *)
Definition aligned (self : Host) : Prop :=
  map fst (connections self) = map fst (cards self) /\ NoDup (map fst (cards self)).

Lemma add_card_aligned card self : aligned self -> aligned (add_card card self).
Proof.
  intros [Hk Hnd]. unfold aligned. simpl. rewrite !dict_set_keys, Hk.
  split; [reflexivity|].
  destruct (bool_decide (card_name card ∈ map fst (cards self))) eqn:Hin; [exact Hnd|].
  apply bool_decide_eq_false in Hin.
  apply NoDup_app. split; [exact Hnd|]. split.
  - intros x Hx Hx'. apply list_elem_of_singleton in Hx'. subst. contradiction.
  - apply NoDup_singleton.
Qed.

Lemma find_over_app {A} (f : A -> bool) (l1 l2 : list A) :
  List.find f (l1 ++ l2) =
    match List.find f l1 with Some x => Some x | None => List.find f l2 end.
Proof.
  induction l1 as [|x l1 IH]; simpl; [reflexivity|].
  destruct (f x); [reflexivity | exact IH].
Qed.

Lemma register_all_cards (new_cards : list AgentCard) : forall (self : Host) n,
  dict_lookup n (cards (register_all new_cards self))
  = match List.find (fun c => String.eqb n (card_name c)) (rev new_cards) with
    | Some c => Some c
    | None => dict_lookup n (cards self)
    end.
Proof.
  unfold Registry.register_all.
  induction new_cards as [|c cs IH]; intros self n; simpl.
  - reflexivity.
  - rewrite IH. rewrite find_over_app. simpl.
    destruct (List.find _ (rev cs)); [reflexivity|].
    rewrite dict_lookup_set. destruct (String.eqb n (card_name c)); reflexivity.
Qed.

Lemma register_all_connections (new_cards : list AgentCard) : forall (self : Host) n,
  dict_lookup n (connections (register_all new_cards self))
  = match List.find (fun c => String.eqb n (card_name c)) (rev new_cards) with
    | Some c => Some (connect c)
    | None => dict_lookup n (connections self)
    end.
Proof.
  unfold Registry.register_all.
  induction new_cards as [|c cs IH]; intros self n; simpl.
  - reflexivity.
  - rewrite IH. rewrite find_over_app. simpl.
    destruct (List.find _ (rev cs)); [reflexivity|].
    rewrite dict_lookup_set. destruct (String.eqb n (card_name c)); reflexivity.
Qed.

Lemma register_all_aligned (new_cards : list AgentCard) : forall self : Host,
  aligned self -> aligned (register_all new_cards self).
Proof.
  unfold Registry.register_all.
  induction new_cards as [|c cs IH]; intros self H; simpl; [exact H|].
  apply IH. apply (add_card_aligned c self) in H. exact H.
Qed.

(** X8: cards registered one after the other, on a registry whose two
    dictionaries have the same names, each once (the empty one to begin
    with), keep it so; afterwards every name that was registered resolves to
    the last card that carried it and to the connection built for that
    card, every other name to what it resolved to before, and the listing
    has one entry per name. *)
Theorem registered_cards (new_cards : list AgentCard) (self : Host) :
  aligned self ->
  aligned (register_all new_cards self) /\
  (forall n,
     dict_lookup n (cards (register_all new_cards self))
     = match List.find (fun c => String.eqb n (card_name c)) (rev new_cards) with
       | Some c => Some c
       | None => dict_lookup n (cards self)
       end) /\
  (forall n,
     dict_lookup n (connections (register_all new_cards self))
     = match List.find (fun c => String.eqb n (card_name c)) (rev new_cards) with
       | Some c => Some (connect c)
       | None => dict_lookup n (connections self)
       end) /\
  length (list_remote_agents (register_all new_cards self))
    = length (cards (register_all new_cards self)).
Proof.
  intros Hal.
  pose proof (register_all_aligned new_cards self Hal) as Ha.
  split; [exact Ha|]. split; [apply register_all_cards|].
  split; [apply register_all_connections|].
  unfold list_remote_agents. destruct Ha as [Hk _].
  destruct (connections _) as [|x xs] eqn:Hc.
  - simpl in Hk. destruct (cards _); [reflexivity | discriminate Hk].
  - rewrite length_map. reflexivity.
Qed.

End RegistryFacts.

Section ActiveAgentFacts.
Import A2A HostAgent Registry.

Context (uuid4 : nat -> string) {Store : Type}
        (save_artifact : option string -> Blob -> Store -> string + Store)
        (py_repr : pyval -> string).

Local Notation World := (HostAgent.World Store).
Local Notation send_message := (HostAgent.send_message uuid4 Store save_artifact).
Local Notation build_request := (HostAgent.build_request uuid4 Store).
Local Notation check_state := (Registry.check_state py_repr).

(** X9: after a call that received a task, [check_state] names the agent
    that was called exactly when the task is in none of the states
    completed, canceled, failed, unknown and a context id is known, from the
    task or from before; otherwise it answers [None]. *)
Theorem check_state_after_task self agent_name msg client rq task (w : World) r w' :
  remote_agent_connections self !! agent_name = Some (Some client) ->
  fst (build_request msg
         (set_tc_state (fun st => <["agent" := PStr agent_name]> st) w)) = inr rq ->
  client_send_message client rq = RespTask task ->
  send_message self agent_name msg w = (r, w') ->
  check_state (tc_state w') =
    PDict [("active_agent",
            PStr (if bool_decide (state (status task) ∈ inactive_states) then "None"
                  else if match contextId task with
                          | Some c => negb (String.eqb c "")
                          | None => false
                          end || bool_decide (is_Some (tc_state w !! "context_id"))
                       then agent_name else "None"))].
Proof.
  intros Hc Hrq Hreply Hrun.
  destruct (built uuid4 _ _ _ Hrq) as [w1 Hb].
  destruct (send_message_trace uuid4 save_artifact _ _ _ _ _ _ _ _ _ Hc Hb Hrun)
    as (_ & _ & Hst).
  rewrite (Hst _ Hreply). unfold Registry.check_state, updated_state.
  assert (Hctx : forall st : gmap string pyval,
             is_Some (st !! "context_id") <->
             is_Some ((<["agent" := PStr agent_name]> st) !! "context_id")).
  { intros st. rewrite lookup_insert_ne by done. reflexivity. }
  destruct (contextId task) as [c|]; [destruct (String.eqb c "") eqn:Hcempty|];
    simpl negb; cbn [orb];
    repeat first
      [ rewrite lookup_insert_eq
      | rewrite lookup_insert_ne by done ];
    destruct (bool_decide (state (status task) ∈ inactive_states)); simpl;
    try reflexivity;
    destruct (tc_state w !! "context_id") eqn:Hold; simpl;
    try rewrite bool_decide_eq_true_2 by eauto;
    try rewrite bool_decide_eq_false_2 by (intros [? ?]; discriminate);
    reflexivity.
Qed.

End ActiveAgentFacts.

(** ** Conversion, dispatch and registry on concrete inputs *)

Section ConversionExamples.
Import A2A HostAgent Samples MoreSamples.

Local Notation send := (HostAgent.send_message uuid4 ArtifactStore save_artifact).
Local Notation conv := (HostAgent.convert_parts ArtifactStore save_artifact).

Lemma convert_parts_pointwise_witness :
  fst (conv [text_part "a"; file_part "aGk="; text_part "b"] fresh_world)
  = inr [RStr "a"; RDataPart (PDict [("artifact-file-id", PStr "cat.png")]); RStr "b"].
Proof.
  rewrite (convert_parts_pointwise save_artifact
             [text_part "a"; file_part "aGk="; text_part "b"] fresh_world
             [RStr "a"; RDataPart (PDict [("artifact-file-id", PStr "cat.png")]); RStr "b"]
             (snd (conv [text_part "a"; file_part "aGk="; text_part "b"] fresh_world))
             ltac:(vm_compute; reflexivity)).
  vm_compute. reflexivity.
Defined.

Lemma convert_parts_effects_witness :
  let w' := snd (conv [text_part "a"; file_part "aGk="] fresh_world) in
  skip_summarization w' = true /\ escalate w' = true.
Proof.
  intros w'.
  destruct (convert_parts_effects save_artifact [text_part "a"; file_part "aGk="]
              fresh_world
              (map value_of [text_part "a"; file_part "aGk="]) w'
              ltac:(vm_compute; reflexivity)) as [H _].
  apply H. reflexivity.
Defined.

Lemma convert_parts_stops_at_failure_witness :
  let w1 := snd (conv [file_part "aGk="] fresh_world) in
  exists e,
    conv ([file_part "aGk="] ++ file_part "A" :: [text_part "never seen"]) fresh_world
    = (inl e, w1) /\
    artifact_store w1
    = [(Some "cat.png", {| mime_type := Some "image/png"; data := [104; 105]%Z |})].
Proof.
  intros w1. eexists. split; [|reflexivity].
  apply (convert_parts_stops_at_failure save_artifact [file_part "aGk="] (file_part "A")
           [text_part "never seen"] fresh_world
           [RDataPart (PDict [("artifact-file-id", PStr "cat.png")])] w1 _ w1);
    vm_compute; reflexivity.
Defined.

Lemma send_message_result_order_witness :
  fst (send (host (RespTask (task_with_artifact completed))) "orchestrator" "go" fresh_world)
  = inr [RStr "done"; RObj (PInt 3);
         RDataPart (PDict [("artifact-file-id", PStr "cat.png")])].
Proof.
  rewrite (send_message_result_order uuid4 save_artifact
             (host (RespTask (task_with_artifact completed))) "orchestrator" "go"
             (remote (RespTask (task_with_artifact completed))) (fresh_request "go")
             (task_with_artifact completed) fresh_world
             [RStr "done"; RObj (PInt 3);
              RDataPart (PDict [("artifact-file-id", PStr "cat.png")])]
             (snd (send (host (RespTask (task_with_artifact completed)))
                     "orchestrator" "go" fresh_world)));
    [ reflexivity | reflexivity | vm_compute; reflexivity | reflexivity
    | vm_compute; reflexivity ].
Defined.


(** A session whose [message_id] is a number: the message constructor
    refuses it and nothing is sent.  One whose [message_id] is bytes: they
    are decoded and the request goes out with the text. *)
Example send_message_refused_message_id :
  let self := host (RespTask (task_in completed [])) in
  let w := {| tc_state := {["message_id" := PInt 7]}; skip_summarization := false;
              escalate := false; artifact_store := []; uuid_draws := 0; outbox := [] |} in
  fst (send self "orchestrator" "go" w) = inl (ValidationError "Message") /\
  outbox (snd (send self "orchestrator" "go" w)) = [].
Proof. vm_compute. split; reflexivity. Qed.

Example send_message_bytes_message_id :
  let self := host (RespTask (task_in completed [])) in
  let w := {| tc_state := {["message_id" := PBytes [109; 45; 55]%Z]};
              skip_summarization := false; escalate := false; artifact_store := [];
              uuid_draws := 0; outbox := [] |} in
  map (fun rq => messageId (message rq)) (outbox (snd (send self "orchestrator" "go" w)))
  = [PStr "m-7"].
Proof. vm_compute. reflexivity. Qed.

Example utf8_valid_samples :
  utf8_valid [228; 189; 160]%Z = true /\ utf8_valid [192; 128]%Z = false /\
  utf8_valid [237; 160; 128]%Z = false /\ utf8_valid [240; 159; 152; 128]%Z = true /\
  utf8_valid [255]%Z = false /\ utf8_valid [228; 189]%Z = false.
Proof. vm_compute. repeat split. Qed.

Lemma register_last_wins_witness :
  Registry.list_remote_agents
    (Registry.register_agent_card connect dumps news_card_v2
       (Registry.register_agent_card connect dumps news_card empty_registry))
  = [PDict [("name", PStr "news"); ("description", PStr "finds and ranks the news")]].
Proof.
  rewrite (register_last_wins connect dumps news_card news_card_v2 empty_registry eq_refl).
  reflexivity.
Defined.

(** X8 on the empty registry and two cards of one name. *)
Lemma registered_cards_witness :
  let self := Registry.register_all connect dumps [news_card; news_card_v2] empty_registry in
  Registry.dict_lookup "news" (Registry.cards self) = Some news_card_v2 /\
  Registry.dict_lookup "weather" (Registry.cards self) = None /\
  length (Registry.list_remote_agents self) = 1.
Proof.
  intros self.
  destruct (registered_cards connect dumps [news_card; news_card_v2] empty_registry)
    as (_ & Hcards & _ & Hlen).
  - split; [reflexivity | constructor].
  - subst self. rewrite (Hcards "news"), (Hcards "weather"), Hlen.
    repeat split; reflexivity.
Defined.

Lemma check_state_after_task_witness :
  let self := host (RespTask (task_in input_required [])) in
  Registry.check_state repr
    (tc_state (snd (send self "orchestrator" "book a call" fresh_world)))
  = PDict [("active_agent", PStr "orchestrator")].
Proof.
  intros self.
  rewrite (check_state_after_task uuid4 save_artifact repr self "orchestrator"
             "book a call" (remote (RespTask (task_in input_required [])))
             (fresh_request "book a call") (task_in input_required []) fresh_world
             (fst (send self "orchestrator" "book a call" fresh_world))
             (snd (send self "orchestrator" "book a call" fresh_world)));
    [ reflexivity | reflexivity | vm_compute; reflexivity | reflexivity
    | vm_compute; reflexivity ].
Defined.

End ConversionExamples.

(** ** The recorder: directories, files that survive, files left behind *)

Section RecorderMoreFacts.
Import Recorder RecorderDirs.

Context (formatted_time_at : nat -> string).

Local Notation save_text := (Recorder.save_text formatted_time_at).
Local Notation save_json := (Recorder.save_json formatted_time_at).

Lemma substring_length (s : string) : forall n m,
  n + m <= String.length s -> String.length (String.substring n m s) = m.
Proof.
  induction s as [|c s IH]; intros n m H; simpl in H.
  - assert (m = 0) by lia. subst. destruct n; reflexivity.
  - destruct n as [|n]; simpl.
    + destruct m as [|m]; simpl; [reflexivity|]. f_equal. apply IH. simpl. lia.
    + apply IH. lia.
Qed.

Lemma has_slash_substring (s : string) : forall n m,
  has_slash s = false -> has_slash (String.substring n m s) = false.
Proof.
  induction s as [|c s IH]; intros n m H.
  - destruct n, m; reflexivity.
  - simpl in H. apply orb_false_iff in H as [Hc Hs].
    destruct n as [|n]; simpl.
    + destruct m as [|m]; [reflexivity|]. simpl. rewrite Hc. apply IH. exact Hs.
    + apply IH. exact Hs.
Qed.

Lemma not_absolute x : has_slash x = false -> String.prefix "/" x = false.
Proof.
  intros Hx. destruct x as [|c x]; [reflexivity|]. simpl in Hx.
  apply orb_false_iff in Hx as [Hc _]. unfold is_slash in Hc.
  apply Ascii.eqb_neq in Hc.
  assert (Hp : forall a y, String.prefix "/" (String a y) =
                           if ascii_dec "/" a then String.prefix "" y else false)
    by reflexivity.
  rewrite Hp. destruct (ascii_dec "/" c); [congruence | reflexivity].
Qed.

(** Joining a relative name adds its length to a length that depends on the
    directory only. *)
Lemma path_join_length a x :
  has_slash x = false ->
  String.length (path_join a x) = String.length (path_join a "") + String.length x.
Proof.
  intros Hx. unfold path_join. rewrite (not_absolute x Hx).
  change (String.prefix "/" "") with false. cbv iota.
  destruct (String.eqb a ""); [reflexivity|].
  destruct (String.eqb _ "/"); rewrite !length_append; simpl; lia.
Qed.

(** X10: [set_name] keeps the sequence state and the files and replaces the
    root by the record directory, the date, one single character (the third
    from the end of the clock's time text) and the name when it is not
    empty.  The constructor puts the time text without its last three
    characters where [set_name] puts that character, so that for a time
    text as the clock formats it (no separator, more than four characters)
    [set_name] with an empty name does not give back the directory the
    constructor chose at the same instant. *)
Theorem set_name_root record_dir date_at time_at name (w : World) :
  5 <= String.length (time_at (clock_reads w)) ->
  has_slash (time_at (clock_reads w)) = false ->
  exists c,
    String.length c = 1 /\
    third_from_end (time_at (clock_reads w)) = inr c /\
    RecorderDirs.set_name record_dir date_at time_at name w =
      (inr tt,
       {| with_record := with_record w;
          recorder :=
            {| last_formatted_time := last_formatted_time (recorder w);
               idx := idx (recorder w); tags := tags (recorder w);
               max := max (recorder w);
               root :=
                 if String.eqb name ""
                 then path_join (path_join record_dir (date_at (clock_reads w))) c
                 else path_join
                        (path_join (path_join record_dir (date_at (clock_reads w))) c)
                        name |};
          fs := fs w;
          clock_reads := S (clock_reads w) |}) /\
    root (new_recorder record_dir date_at time_at (clock_reads w))
      = path_join (path_join record_dir (date_at (clock_reads w)))
          (without_last3 (time_at (clock_reads w))) /\
    root (new_recorder record_dir date_at time_at (clock_reads w))
      <> path_join (path_join record_dir (date_at (clock_reads w))) c.
Proof.
  intros Hlen Hplain.
  set (t := time_at (clock_reads w)) in *.
  exists (String.substring (String.length t - 3) 1 t).
  assert (Ht : third_from_end t = inr (String.substring (String.length t - 3) 1 t)).
  { unfold third_from_end.
    destruct (Nat.ltb_spec (String.length t) 3); [lia|reflexivity]. }
  assert (Hc : String.length (String.substring (String.length t - 3) 1 t) = 1)
    by (apply substring_length; lia).
  split; [exact Hc|]. split; [exact Ht|]. split; [|split; [reflexivity|]].
  - unfold RecorderDirs.set_name. fold t. rewrite Ht. unfold set_recorder. simpl.
    destruct (String.eqb name ""); reflexivity.
  - unfold new_recorder. simpl. fold t. intros Heq.
    apply (f_equal String.length) in Heq.
    rewrite (path_join_length _ (without_last3 t)) in Heq
      by (apply has_slash_substring; exact Hplain).
    rewrite (path_join_length _ (String.substring (String.length t - 3) 1 t)) in Heq
      by (apply has_slash_substring; exact Hplain).
    rewrite Hc in Heq. unfold without_last3 in Heq.
    rewrite substring_length in Heq by lia. lia.
Qed.

Lemma mod62_inj n0 i j :
  i < 62 -> j < 62 -> (n0 + i) mod 62 = (n0 + j) mod 62 -> i = j.
Proof.
  intros Hi Hj H.
  pose proof (Nat.div_mod_eq (n0 + i) 62) as Ei.
  pose proof (Nat.div_mod_eq (n0 + j) 62) as Ej.
  pose proof (Nat.mod_upper_bound (n0 + i) 62 ltac:(lia)).
  pose proof (Nat.mod_upper_bound (n0 + j) 62 ltac:(lia)).
  rewrite H in Ei. nia.
Qed.

(** One [save_text] with the flag on and a usable directory: the file
    named by [make_filename] holds the text, nothing else changes among the
    files, and the directory stays usable. *)
Lemma save_text_spec filename text (w : World) :
  well_formed (recorder w) ->
  with_record w = true ->
  healthy w ->
  has_slash (formatted_time_at (clock_reads w)) = false ->
  has_slash filename = false ->
  let t := formatted_time_at (clock_reads w) in
  exists tag w',
    String.get (next_idx t (recorder w)) alphabet = Some tag /\
    save_text filename text w = (inr tt, w') /\
    recorder w' = recorder (stepped t w) /\
    with_record w' = true /\
    clock_reads w' = S (clock_reads w) /\
    files (fs w') =
      <[path_join (root (recorder w)) (full_name t tag filename) := Text text]>
        (files (fs w)) /\
    healthy w'.
Proof.
  intros Hwf Hon Hh Ht Hf t.
  destruct (save_opens formatted_time_at filename w Hwf Hh Ht Hf)
    as (tag & wo & Htag & Hrun & Hrec & Hono & Hck & Hfiles & Hho & Hin & Hpd).
  fold t in Htag, Hrun, Hrec, Hfiles, Hpd.
  exists tag. eexists. split; [exact Htag|].
  unfold Recorder.save_text. unfold bind at 1, gets at 1. cbv beta iota.
  rewrite Hon. cbn [negb]. cbv beta iota.
  rewrite (Hrun unit (fun path => write path (Text text))).
  unfold write, modify. split; [reflexivity|]. simpl.
  split; [exact Hrec|]. split; [congruence|]. split; [exact Hck|].
  split; [rewrite Hfiles; apply insert_insert_eq|].
  apply (healthy_grow wo _ (path_join (root (recorder w)) (full_name t tag filename)));
    [exact Hho | rewrite Hrec; exact Hin | exact Hpd | reflexivity | reflexivity |].
  simpl. intros x Hx. rewrite dom_insert, elem_of_union, elem_of_singleton in Hx. tauto.
Qed.



End RecorderMoreFacts.

(** ** The dialogue store and what the hooks add to it *)

Section StoreFacts.
Import Recorder Callbacks DialogueStore.

Context (formatted_time_at : nat -> string).

Local Notation World := Callbacks.World.
Local Notation fire := (Callbacks.fire formatted_time_at).
Local Notation recorder_save_json := (Callbacks.recorder_save_json formatted_time_at).

(** The rows [new] are what the store of [w'] has beyond the store of [w]:
    they come after the old rows and carry the ids that follow. *)
Definition grows (w w' : World) (new : list (nat * DialogueRecord)) : Prop :=
  match _dialogue_history w with
  | None => _dialogue_history w' = None /\ new = []
  | Some db =>
      exists db', _dialogue_history w' = Some db' /\
                  rows db' = (rows db ++ new)%list /\
                  next_id db' = next_id db + length new /\
                  map fst new = seq (next_id db) (length new)
  end.

Definition stored_data (new : list (nat * DialogueRecord)) : list pyval :=
  map (fun row : nat * DialogueRecord => data (snd row)) new.

(** A computation that appends the values [ps], in this order, as far as it
    gets. *)
Definition stores (m : M World unit) (ps : list pyval) : Prop :=
  forall w r w', m w = (r, w') ->
    exists new, grows w w' new /\
      stored_data new `prefix_of` ps /\
      (r = inr tt -> is_Some (_dialogue_history w) -> stored_data new = ps).

Lemma grows_nil w w' :
  _dialogue_history w' = _dialogue_history w -> grows w w' [].
Proof.
  intros H. unfold grows. destruct (_dialogue_history w) as [db|]; [|auto].
  exists db. rewrite app_nil_r, Nat.add_0_r. auto.
Qed.

Lemma grows_app w w1 w2 new1 new2 :
  grows w w1 new1 -> grows w1 w2 new2 -> grows w w2 (new1 ++ new2).
Proof.
  unfold grows. destruct (_dialogue_history w) as [db|].
  - intros (db1 & -> & Hr1 & Hn1 & Hi1) (db2 & H2 & Hr2 & Hn2 & Hi2).
    exists db2. split; [exact H2|].
    rewrite Hr2, Hr1, Hn2, Hn1, length_app, <- app_assoc, map_app, Hi1, Hi2, Hn1.
    rewrite seq_app. repeat split; auto; lia.
  - intros (-> & ->) (H2 & ->). auto.
Qed.

Lemma stores_save filename p escape : stores (recorder_save_json filename p escape) [].
Proof.
  intros w r w' H. exists []. split; [|split; [reflexivity | reflexivity]].
  apply grows_nil. unfold Callbacks.recorder_save_json, in_recorder in H.
  destruct (Recorder.save_json _ _ _ _ _) in H. injection H as _ <-. reflexivity.
Qed.

Lemma stores_store sess inv agent tg nm p :
  stores (record_dialogue sess inv agent tg nm p) [p].
Proof.
  intros w r w'. unfold record_dialogue, bind, gets.
  destruct (_dialogue_history w) as [db|] eqn:Hdb.
  - unfold datetime_now, in_recorder. cbn -[json_serializable new_DialogueRecord append].
    destruct (new_DialogueRecord _ sess inv agent tg nm p _) as [[e|rec0] w1] eqn:Hnew.
    + assert (w1 = {| rec_world :=
                        {| with_record := with_record (rec_world w);
                           recorder := recorder (rec_world w);
                           fs := fs (rec_world w);
                           clock_reads := S (clock_reads (rec_world w)) |};
                      _dialogue_history := _dialogue_history w |}) as ->.
      { unfold new_DialogueRecord in Hnew. destruct p; inversion Hnew; reflexivity. }
      intros [= <- <-]. exists [].
      split; [apply grows_nil; reflexivity|].
      split; [apply prefix_nil | discriminate].
    + assert (data rec0 = p /\
              w1 = {| rec_world :=
                        {| with_record := with_record (rec_world w);
                           recorder := recorder (rec_world w);
                           fs := fs (rec_world w);
                           clock_reads := S (clock_reads (rec_world w)) |};
                      _dialogue_history := _dialogue_history w |}) as [Hdata ->].
      { unfold new_DialogueRecord in Hnew. destruct p; inversion Hnew; auto. }
      unfold append. rewrite Hdata.
      destruct (json_serializable p); cbn -[json_serializable].
      * intros [= <- <-]. exists [(next_id db, rec0)].
        split; [|split; [unfold stored_data; simpl; rewrite Hdata; reflexivity
                        | intros _ _; unfold stored_data; simpl; rewrite Hdata; reflexivity]].
        unfold grows. rewrite Hdb. eexists. split; [reflexivity|]. simpl.
        repeat split; auto; lia.
      * intros [= <- <-]. exists [].
        split; [apply grows_nil; reflexivity|].
        split; [apply prefix_nil | discriminate].
  - intros [= <- <-]. exists []. split; [apply grows_nil; reflexivity|].
    split; [apply prefix_nil|]. intros _ [? ?]. congruence.
Qed.

Lemma stores_seq m1 ps1 m2 ps2 :
  stores m1 ps1 -> stores m2 ps2 -> stores (bind m1 (fun _ => m2)) (ps1 ++ ps2).
Proof.
  intros S1 S2 w r w'. unfold bind.
  destruct (m1 w) as [[e|[]] w1] eqn:H1.
  - intros [= <- <-]. destruct (S1 _ _ _ H1) as (new & G & P & _).
    exists new. split; [exact G|]. split; [|discriminate].
    apply prefix_app_r. exact P.
  - intros H2. destruct (S1 _ _ _ H1) as (new1 & G1 & P1 & E1).
    destruct (S2 _ _ _ H2) as (new2 & G2 & P2 & E2).
    exists (new1 ++ new2)%list. split; [eapply grows_app; eauto|].
    unfold stored_data in *. rewrite map_app.
    destruct (_dialogue_history w) as [db|] eqn:Hdb.
    + rewrite (E1 eq_refl) by eauto.
      split; [apply prefix_app; exact P2|].
      intros Hr _. rewrite E2; [reflexivity | exact Hr |].
      unfold grows in G1. rewrite Hdb in G1. destruct G1 as (db1 & -> & _). eauto.
    + unfold grows in G1. rewrite Hdb in G1. destruct G1 as [Hn ->].
      unfold grows in G2. rewrite Hn in G2. destruct G2 as [_ ->]. simpl.
      split; [apply prefix_nil|]. intros _ [? ?]. discriminate.
Qed.

(** Every hook is a sequence of recorder writes and store appends. *)
Lemma fire_stores (h : HookCall) : stores (fire h) (payloads h).
Proof.
  destruct h; simpl fire; simpl payloads;
    unfold before_agent, after_agent, before_model, after_model, before_tool,
      after_tool, on_event;
    cbv zeta;
    match goal with
    | |- stores ?m _ =>
        let rec build m :=
          lazymatch m with
          | bind ?a (fun _ => ?b) =>
              let ga := build a in
              let gb := build b in
              constr:(stores_seq _ _ _ _ ga gb)
          | Callbacks.recorder_save_json _ ?f ?p ?e =>
              constr:(stores_save f p e)
          | Callbacks.record_dialogue ?s ?i ?a ?t ?n ?p =>
              constr:(stores_store s i a t n p)
          end in
        let g := build m in
        exact g
    end.
Qed.

(** A computation that, with the flag off, keeps the flag off and leaves
    the files, the directories and the recorder's state alone. *)
Definition leaves_files (m : M World unit) : Prop :=
  forall w r w', with_record (rec_world w) = false -> m w = (r, w') ->
    with_record (rec_world w') = false /\
    fs (rec_world w') = fs (rec_world w) /\
    recorder (rec_world w') = recorder (rec_world w).

Lemma leaves_files_save filename p escape : leaves_files (recorder_save_json filename p escape).
Proof.
  intros w r w' Hoff. unfold Callbacks.recorder_save_json, in_recorder.
  destruct (saves_off formatted_time_at (fun _ _ f => inr f) (rec_world w) filename ""
              PNone p escape Hoff) as (_ & _ & _ & ->).
  intros [= <- <-]. auto.
Qed.

Lemma leaves_files_store sess inv agent tg nm p :
  leaves_files (record_dialogue sess inv agent tg nm p).
Proof.
  intros w r w' Hoff. unfold record_dialogue, bind, gets.
  destruct (_dialogue_history w) as [db|]; [|intros [= <- <-]; auto].
  unfold datetime_now, in_recorder. cbn -[json_serializable new_DialogueRecord append].
  destruct (new_DialogueRecord _ sess inv agent tg nm p _) as [[e|rec0] w1] eqn:Hnew;
    (assert (w1 = {| rec_world :=
                       {| with_record := with_record (rec_world w);
                          recorder := recorder (rec_world w);
                          fs := fs (rec_world w);
                          clock_reads := S (clock_reads (rec_world w)) |};
                     _dialogue_history := _dialogue_history w |}) as ->
       by (unfold new_DialogueRecord in Hnew; destruct p; inversion Hnew; reflexivity)).
  - intros [= <- <-]. auto.
  - unfold append. destruct (json_serializable (data rec0)); cbn -[json_serializable];
      intros [= <- <-]; auto.
Qed.

Lemma leaves_files_seq m1 m2 :
  leaves_files m1 -> leaves_files m2 -> leaves_files (bind m1 (fun _ => m2)).
Proof.
  intros L1 L2 w r w' Hoff. unfold bind.
  destruct (m1 w) as [[e|[]] w1] eqn:H1.
  - intros [= <- <-]. eapply L1; eauto.
  - intros H2. destruct (L1 _ _ _ Hoff H1) as (Hoff1 & Hf1 & Hr1).
    destruct (L2 _ _ _ Hoff1 H2) as (Hoff2 & Hf2 & Hr2).
    split; [exact Hoff2|]. split; congruence.
Qed.

Lemma fire_leaves_files (h : HookCall) : leaves_files (fire h).
Proof.
  destruct h; simpl fire;
    unfold before_agent, after_agent, before_model, after_model, before_tool,
      after_tool, on_event;
    cbv zeta;
    match goal with
    | |- leaves_files ?m =>
        let rec build m :=
          lazymatch m with
          | bind ?a (fun _ => ?b) =>
              let ga := build a in
              let gb := build b in
              constr:(leaves_files_seq _ _ ga gb)
          | Callbacks.recorder_save_json _ ?f ?p ?e =>
              constr:(leaves_files_save f p e)
          | Callbacks.record_dialogue ?s ?i ?a ?t ?n ?p =>
              constr:(leaves_files_store s i a t n p)
          end in
        let g := build m in
        exact g
    end.
Qed.


(** X14: the hooks only ever append to the dialogue store.  Whatever a
    firing does, the rows that were in the store are still there, in place,
    and the rows it added carry the ids that follow and hold, in order, the
    values the hook snapshots, all of them when the hook returns and the
    first ones when it raises; every record that [get_by_id] found before
    the firing it finds after it. *)
Theorem hooks_append_only (h : HookCall) (w : World) r w' :
  fire h w = (r, w') ->
  exists new,
    grows w w' new /\
    stored_data new `prefix_of` payloads h /\
    (r = inr tt -> is_Some (_dialogue_history w) -> stored_data new = payloads h) /\
    (forall db j x, _dialogue_history w = Some db -> get_by_id db j = Some x ->
       exists db', _dialogue_history w' = Some db' /\ get_by_id db' j = Some x).
Proof.
  intros Hrun.
  destruct (fire_stores h _ _ _ Hrun) as (new & G & P & E).
  exists new. split; [exact G|]. split; [exact P|]. split; [exact E|].
  intros db j x Hdb Hget. unfold grows in G. rewrite Hdb in G.
  destruct G as (db' & Hdb' & Hrows & _). exists db'. split; [exact Hdb'|].
  unfold get_by_id in *. rewrite Hrows, find_over_app, Hget. reflexivity.
Qed.

(** X15: with the recorder switched off and no dialogue store open, a
    firing of any hook does nothing at all: it returns and the world,
    clock and sequence state included, is the one it started from. *)
Theorem hooks_idle_when_disabled (h : HookCall) (w : World) :
  with_record (rec_world w) = false ->
  _dialogue_history w = None ->
  fire h w = (inr tt, w).
Proof.
  intros Hoff Hnone.
  assert (Hsave : forall f p e, recorder_save_json f p e w = (inr tt, w)).
  { intros f p e. unfold Callbacks.recorder_save_json, in_recorder, Recorder.save_json,
      bind, gets, ret. rewrite Hoff. simpl. destruct w; reflexivity. }
  assert (Hstore : forall s i a t n p, record_dialogue s i a t n p w = (inr tt, w)).
  { intros. unfold record_dialogue, bind, gets. rewrite Hnone. reflexivity. }
  destruct h; simpl;
    unfold before_agent, after_agent, before_model, after_model, before_tool,
      after_tool, on_event; cbv zeta; unfold bind;
    repeat first [rewrite Hsave | rewrite Hstore]; reflexivity.
Qed.

Lemma to_dict_identity : forall obj : pyval, to_dict obj = obj.
Proof.
  fix IH 1. intros [ | b | z | s | bs | l | d]; simpl; try reflexivity.
  - f_equal. induction l as [|x l IHl]; [reflexivity|].
    rewrite (IH x), IHl. reflexivity.
  - f_equal. induction d as [|[k x] d IHd]; [reflexivity|].
    rewrite (IH x), IHd. reflexivity.
Qed.

(** X16: [to_dict] gives back plain data (mappings, sequences, scalars) as
    it is, however deeply nested; so what [after_tool] snapshots is the tool
    response itself. *)
Theorem after_tool_records_response tool args ctx (tool_response : pyval) :
  to_dict tool_response = tool_response /\
  payloads (AfterTool tool args ctx tool_response) = [tool_response].
Proof.
  split; [apply to_dict_identity|]. simpl. rewrite to_dict_identity. reflexivity.
Qed.

Lemma grows_same_store w w1 w2 new :
  grows w w1 new -> _dialogue_history w2 = _dialogue_history w1 -> grows w w2 new.
Proof. unfold grows. intros G ->. exact G. Qed.

(** X21: a module-level callback of the orchestrator calls the hub's hook
    itself and then the executor's method, which calls the same hook again:
    with an executor set, a call that returns has stored every value the
    hook snapshots twice (once per pass, in this order) and has queued the
    callback's one progress line behind the lines already there; a call
    that raises has queued nothing. *)
Theorem module_callback_records_twice (c : ExecutorHooks.ModuleCall)
    (w : ExecutorHooks.World) msgs r w' :
  ExecutorHooks._executor w = Some msgs ->
  ExecutorHooks.call formatted_time_at c w = (r, w') ->
  exists new,
    grows (ExecutorHooks.hub w) (ExecutorHooks.hub w') new /\
    stored_data new `prefix_of`
      (payloads (ExecutorHooks.hook_of c) ++ payloads (ExecutorHooks.hook_of c))%list /\
    match r with
    | inr _ =>
        (is_Some (_dialogue_history (ExecutorHooks.hub w)) ->
         stored_data new =
           (payloads (ExecutorHooks.hook_of c) ++ payloads (ExecutorHooks.hook_of c))%list) /\
        exists t, ExecutorHooks._executor w' =
                    Some (msgs ++ [(t, ExecutorHooks.line_of c)])%list
    | inl _ => ExecutorHooks._executor w' = Some msgs
    end.
Proof.
  intros Hex.
  assert (Hcall : ExecutorHooks.call formatted_time_at c
                  = bind (ExecutorHooks.in_hub (fire (ExecutorHooks.hook_of c)))
                      (fun _ => ExecutorHooks.when_executor
                         (bind (ExecutorHooks.in_hub (fire (ExecutorHooks.hook_of c)))
                            (fun _ => ExecutorHooks.append_message
                                        (ExecutorHooks.line_of c)))))
    by (destruct c; reflexivity).
  rewrite Hcall. clear Hcall.
  pose proof (stores_seq _ _ _ _ (fire_stores (ExecutorHooks.hook_of c))
                (fire_stores (ExecutorHooks.hook_of c))) as Htwice.
  specialize (Htwice (ExecutorHooks.hub w)). revert Htwice.
  unfold bind at 1 2. unfold ExecutorHooks.in_hub at 1.
  destruct (fire (ExecutorHooks.hook_of c) (ExecutorHooks.hub w)) as [[e|[]] h1].
  - intros Htwice [= <- <-]. destruct (Htwice _ _ eq_refl) as (new & G & P & _).
    exists new. simpl. auto.
  - unfold ExecutorHooks.when_executor, bind, gets. cbn [ExecutorHooks._executor].
    rewrite Hex. unfold ExecutorHooks.in_hub at 1. cbn [ExecutorHooks.hub].
    destruct (fire (ExecutorHooks.hook_of c) h1) as [[e|[]] h2].
    + intros Htwice [= <- <-]. destruct (Htwice _ _ eq_refl) as (new & G & P & _).
      exists new. simpl. auto.
    + intros Htwice. destruct (Htwice _ _ eq_refl) as (new & G & P & E).
      unfold ExecutorHooks.append_message, bind, ExecutorHooks.in_hub, datetime_now,
        in_recorder, modify. cbn.
      intros [= <- <-]. exists new. cbn.
      split; [eapply grows_same_store; [exact G | reflexivity]|].
      split; [exact P|]. split; [intros Hs; apply E; auto | eauto].
Qed.

End StoreFacts.

(** ** The execution loop over whole streams *)

Section LoopFacts.
Import A2A Executor.

Context (json_loads : string -> option pyval)
        (scan : pyval -> Exn + list Event).

Local Notation handle_item := (Executor.handle_item json_loads scan).
Local Notation loop_body := (Executor.loop_body json_loads scan).
Local Notation run_loop := (Executor.run_loop json_loads scan).
Local Notation steps_processed := (Executor.steps_processed json_loads scan).

(** A final update in state failed or completed. *)
Definition closing (e : Event) : bool :=
  match e with
  | StatusUpdate failed _ true _ | StatusUpdate completed _ true _ => true
  | _ => false
  end.

(** The scan adds no status update flagged final. *)
Definition scan_adds_no_final : Prop :=
  forall content evs, scan content = inr evs -> final_updates evs = [].

Lemma final_updates_app a b : final_updates (a ++ b) = (final_updates a ++ final_updates b)%list.
Proof. unfold final_updates. apply List.filter_app. Qed.

Lemma final_updates_progress msgs : final_updates (map progress_event msgs) = [].
Proof. induction msgs as [|m msgs IH]; simpl; auto. Qed.

Lemma closing_is_final evs : final_updates evs = [] -> forallb (fun e => negb (closing e)) evs = true.
Proof.
  induction evs as [|e evs IH]; simpl; [reflexivity|].
  destruct e as [|st msg [|] ts| |]; simpl; try discriminate; auto.
  destruct st; auto.
Qed.

Lemma for_each_enqueue_events (added : list Event) (w : World) :
  for_each enqueue_event added w = (inr tt, emit added w).
Proof.
  rewrite <- (map_id added) at 2.
  exact (for_each_enqueue (fun e : Event => e) added w).
Qed.

(** What a step that is not final can do. *)
Lemma handle_partial_outcomes (it : Item) (w : World) r w' :
  is_task_complete it = false ->
  handle_item it w = (r, w') ->
  (exists added, scan (content it) = inr added /\ r = inr Continue /\ w' = emit added w) \/
  (exists e, scan (content it) = inl e /\ r = inl e /\ w' = w).
Proof.
  intros Hpart. unfold Executor.handle_item. rewrite Hpart. cbn [negb].
  unfold bind, lift_result.
  destruct (scan (content it)) as [e|added].
  - intros [= <- <-]. right. eauto.
  - rewrite for_each_enqueue_events. unfold ret. intros [= <- <-]. left. eauto.
Qed.

(** The events of one pass through the loop body. *)
Lemma loop_body_events (Hscan : scan_adds_no_final) step (w : World) r w1 :
  loop_body step w = (r, w1) ->
  exists evs,
    event_queue w1 = (event_queue w ++ evs)%list /\
    match r with
    | inr Break =>
        is_task_complete (item step) = true /\
        exists body e, evs = (body ++ [e])%list /\ closing e = true /\
                       final_updates body = []
    | inr Continue =>
        forallb (fun e => negb (closing e)) evs = true /\
        (is_task_complete (item step) = false -> final_updates evs = [])
    | inl _ => final_updates evs = []
    end.
Proof.
  rewrite loop_body_spec. intros H.
  set (lines := map progress_event (_messages w ++ queued step)).
  assert (Hq : event_queue (flushed step w) = (event_queue w ++ lines)%list) by reflexivity.
  assert (Hl : final_updates lines = []) by apply final_updates_progress.
  destruct (is_task_complete (item step)) eqn:Hfinal.
  - destruct (handle_final_outcomes json_loads scan _ _ _ _ Hfinal H)
      as [(data & -> & ->) | [(-> & ->) | [(text & -> & ->) | (e & -> & ->)]]].
    + exists (lines ++ [needs_input data])%list.
      split; [unfold emit; simpl; rewrite <- app_assoc; reflexivity|].
      split; [|discriminate].
      rewrite forallb_app, (closing_is_final _ Hl). reflexivity.
    + exists (lines ++ [unexpected_state])%list.
      split; [unfold emit; simpl; rewrite <- app_assoc; reflexivity|].
      split; [reflexivity|]. exists lines, unexpected_state. auto.
    + exists (lines ++ [ArtifactUpdate "form" [TextPart text]; done])%list.
      split; [unfold emit; simpl; rewrite <- app_assoc; reflexivity|].
      split; [reflexivity|].
      exists (lines ++ [ArtifactUpdate "form" [TextPart text]])%list, done.
      split; [rewrite <- app_assoc; reflexivity|]. split; [reflexivity|].
      rewrite final_updates_app, Hl. reflexivity.
    + exists lines. split; [exact Hq | exact Hl].
  - destruct (handle_partial_outcomes _ _ _ _ Hfinal H)
      as [(added & Hs & -> & ->) | (e & Hs & -> & ->)].
    + exists (lines ++ added)%list.
      split; [unfold emit; simpl; rewrite <- app_assoc; reflexivity|].
      assert (Hf : final_updates (lines ++ added) = [])
        by (rewrite final_updates_app, Hl, (Hscan _ _ Hs); reflexivity).
      split; [apply closing_is_final; exact Hf | intros _; exact Hf].
    + exists lines. split; [exact Hq | exact Hl].
Qed.

(** X17: a failed or completed update closes the turn.  In what a run of
    the loop adds to the event queue there is at most one of them, and
    nothing comes after it: it is there exactly when the loop was left by
    [break]. *)
Theorem closing_update_is_last (stream : list Step) :
  scan_adds_no_final ->
  forall (w : World) r w',
    run_loop stream w = (r, w') ->
    exists body tail,
      event_queue w' = (event_queue w ++ body ++ tail)%list /\
      forallb (fun e => negb (closing e)) body = true /\
      (tail = [] \/ exists e, tail = [e] /\ closing e = true /\ r = inr tt).
Proof.
  intros Hscan. induction stream as [|step rest IH]; intros w r w'; simpl.
  - intros [= <- <-]. exists [], []. rewrite app_nil_r. auto.
  - unfold bind.
    destruct (loop_body step w) as [[e|[|]] w1] eqn:Hstep;
      destruct (loop_body_events Hscan _ _ _ _ Hstep) as (evs & Hq & Hshape).
    + intros [= <- <-]. exists evs, []. rewrite app_nil_r.
      split; [exact Hq|]. split; [apply closing_is_final; exact Hshape | auto].
    + intros Hrest. destruct (IH _ _ _ Hrest) as (body & tail & Hq' & Hbody & Htail).
      exists (evs ++ body)%list, tail.
      split; [rewrite Hq', Hq, <- !app_assoc; reflexivity|].
      split; [|exact Htail].
      rewrite forallb_app, Hbody. destruct Hshape as [-> _]. reflexivity.
    + intros [= <- <-]. destruct Hshape as (_ & body & e & -> & Hc & Hb).
      exists body, [e]. split; [exact Hq|].
      split; [apply closing_is_final; exact Hb|]. right. eauto.
Qed.

(** X18: a stream that ends without a final step leaves the turn open: the
    loop goes through every step, and when it returns it has added no final
    update of any kind to the event queue. *)
Theorem stream_without_final_step (stream : list Step) :
  scan_adds_no_final ->
  Forall (fun step => is_task_complete (item step) = false) stream ->
  forall (w : World) r w',
    run_loop stream w = (r, w') ->
    final_updates (event_queue w') = final_updates (event_queue w) /\
    (r = inr tt -> steps_processed stream w = length stream).
Proof.
  intros Hscan Hall. induction Hall as [|step rest Hpart _ IH]; intros w r w'; simpl.
  - intros [= <- <-]. auto.
  - unfold bind.
    destruct (loop_body step w) as [[e|[|]] w1] eqn:Hstep;
      destruct (loop_body_events Hscan _ _ _ _ Hstep) as (evs & Hq & Hshape).
    + intros [= <- <-]. rewrite Hq, final_updates_app, Hshape, app_nil_r.
      split; [reflexivity | discriminate].
    + intros Hrest. destruct (IH _ _ _ Hrest) as [Hf Hn].
      destruct Hshape as [_ Hnone].
      rewrite Hf, Hq, final_updates_app, (Hnone Hpart), app_nil_r.
      split; [reflexivity|]. intros Hr. rewrite (Hn Hr). reflexivity.
    + destruct Hshape as [Hfinal _]. congruence.
Qed.

End LoopFacts.

(** ** The image scan, the stream's items, the executor's hooks *)

Section ScanFacts.
Import A2A Executor Images OrchestratorStream.

Context (json_loads : string -> option pyval)
        (traverse : pyval -> Exn + list Event).

Local Notation scan := (Images._find_and_add_images traverse).
Local Notation run_loop := (Executor.run_loop json_loads scan).

(** X19: the image scan looks under the key [response] only, and asks with
    [in]: on a step that is not final, a text without the word [response]
    or a mapping without that key adds nothing and the loop goes on, while a
    text that contains the word makes the scan index a string: the turn
    ends there in a [TypeError], and the rest of the stream is not read. *)
Theorem partial_step_scan (step : Step) (rest : list Step) (w : World) :
  is_task_complete (item step) = false ->
  (forall s, content (item step) = PStr s ->
     run_loop (step :: rest) w =
       if is_substring "response" s
       then (inl (TypeError "string indices must be integers"), flushed step w)
       else run_loop rest (flushed step w)) /\
  (forall d, content (item step) = PDict d -> dict_get "response" d = None ->
     run_loop (step :: rest) w = run_loop rest (flushed step w)).
Proof.
  intros Hpart.
  assert (Hbody : Executor.loop_body json_loads scan step w
                  = match scan (content (item step)) with
                    | inl e => (inl e, flushed step w)
                    | inr added => (inr Continue, emit added (flushed step w))
                    end).
  { rewrite loop_body_spec. unfold Executor.handle_item. rewrite Hpart. cbn [negb].
    unfold bind, lift_result. destruct (scan (content (item step))) as [e|added];
      [reflexivity|].
    rewrite for_each_enqueue_events. reflexivity. }
  split.
  - intros s Hc. simpl. unfold bind. rewrite Hbody, Hc.
    unfold Images._find_and_add_images. cbn [py_contains py_getitem].
    destruct (is_substring "response" s); [reflexivity|].
    rewrite emit_nil. reflexivity.
  - intros d Hc Hno. simpl. unfold bind. rewrite Hbody, Hc.
    unfold Images._find_and_add_images. cbn [py_contains]. rewrite Hno.
    rewrite bool_decide_eq_false_2 by (intros [? ?]; discriminate).
    rewrite emit_nil. reflexivity.
Qed.

(** X20: the item the stream yields for an event carries the event's
    finality and, as content, a text or a mapping, never anything else; it
    cannot be built exactly when the first part has neither text nor
    function response while a later part has a function response: then the
    stream raises [AttributeError]. *)
Theorem item_of_event_shape (event : AdkEvent) :
  (forall it, item_of_event event = inr it ->
     is_task_complete it = is_final_response event /\
     ((exists s, content it = PStr s) \/ (exists d, content it = PDict d))) /\
  (forall e, item_of_event event = inl e <->
     e = AttributeError "model_dump" /\
     exists first rest,
       ev_parts event = Some (first :: rest) /\
       has_text first = false /\ has_function_response first = false /\
       existsb has_function_response rest = true).
Proof.
  assert (Hok : forall c,
             (forall it,
                 inr {| is_task_complete := is_final_response event; content := c |}
                 = (inr it : Exn + Item) ->
                 is_task_complete it = is_final_response event /\ content it = c)).
  { intros c it H. injection H as <-. auto. }
  unfold item_of_event.
  destruct (ev_parts event) as [[|first rest]|] eqn:Hparts.
  - split.
    + intros it H. apply Hok in H as [H1 H2]. eauto.
    + intros e. split; [discriminate|]. intros (_ & f & r & H & _). discriminate H.
  - destruct (has_text first) eqn:Ht.
    + split.
      * intros it H. apply Hok in H as [H1 H2]. eauto.
      * intros e. split; [discriminate|].
        intros (_ & f & r & H & Hf & _). injection H as <- <-. congruence.
    + cbn [existsb].
      destruct (function_response first) as [dump|] eqn:Hfr.
      * assert (Hh : has_function_response first = true)
          by (unfold has_function_response; rewrite Hfr; reflexivity).
        rewrite Hh. cbn [orb]. split.
        -- intros it H. apply Hok in H as [H1 H2]. eauto.
        -- intros e. split; [discriminate|].
           intros (_ & f & r & H & _ & Hf & _). injection H as <- <-. congruence.
      * assert (Hh : has_function_response first = false)
          by (unfold has_function_response; rewrite Hfr; reflexivity).
        rewrite Hh. cbn [orb].
        destruct (existsb has_function_response rest) eqn:Hrest.
        -- split; [intros it H; discriminate H|].
           intros e. split.
           ++ intros H. injection H as <-. split; [reflexivity|]. exists first, rest. auto.
           ++ intros [-> _]. reflexivity.
        -- split.
           ++ intros it H. apply Hok in H as [H1 H2]. eauto.
           ++ intros e. split; [discriminate|].
              intros (_ & f & r & H & _ & _ & Hr). injection H as <- <-. congruence.
  - split.
    + intros it H. apply Hok in H as [H1 H2]. eauto.
    + intros e. split; [discriminate|]. intros (_ & f & r & H & _). discriminate H.
Qed.

End ScanFacts.

(** ** Examples for the further properties *)

Section FurtherExamples.
Import A2A Recorder Callbacks DialogueStore Executor Samples FurtherSamples.

(** X10 on a recorder renamed for the host agent: the directory is the one
    character [4]. *)
Lemma set_name_root_witness :
  exists w',
    RecorderDirs.set_name "/rec" date_at time_at "host" (recording true) = (inr tt, w') /\
    root (recorder w') = "/rec/2026-11-04/4/host" /\
    root (RecorderDirs.new_recorder "/rec" date_at time_at 0)
      = "/rec/2026-11-04/12-00-00.123".
Proof.
  destruct (set_name_root "/rec" date_at time_at "host" (recording true))
    as (c & _ & Hc & Hrun & Hnew & _); [vm_compute; lia | reflexivity |].
  injection Hc as <-.
  eexists. split; [exact Hrun|]. split; [reflexivity | exact Hnew].
Defined.




(** C10, refuted as stated: with the flag off and a dialogue store open,
    [before_agent] creates no file and still records: the store has one row
    more, the state it snapshots. *)
Lemma before_agent_records_without_flag :
  let w := hub false true in
  let w' := snd (Callbacks.fire clock (BeforeAgent ctx_plain) w) in
  Recorder.with_record (Callbacks.rec_world w) = false /\
  Recorder.fs (Callbacks.rec_world w') = Recorder.fs (Callbacks.rec_world w) /\
  option_map (fun db => map (fun row => Callbacks.data (snd row)) (Callbacks.rows db))
             (Callbacks._dialogue_history w) = Some [] /\
  option_map (fun db => map (fun row => Callbacks.data (snd row)) (Callbacks.rows db))
             (Callbacks._dialogue_history w') = Some [PDict [("author", PStr "leon")]].
Proof. vm_compute. repeat split. Qed.

(** X14 on [before_model] with the recorder on and the store open: the
    state and the request are the two new rows. *)
Lemma hooks_append_only_witness :
  exists new,
    stored_data new = [PDict [("author", PStr "leon")]; llm_request] /\
    map fst new = [1; 2].
Proof.
  destruct (hooks_append_only clock (BeforeModel ctx_plain llm_request) (hub true true)
              (inr tt)
              (snd (Callbacks.fire clock (BeforeModel ctx_plain llm_request)
                      (hub true true))))
    as (new & G & _ & E & _); [vm_compute; reflexivity|].
  exists new. split; [apply E; [reflexivity | eexists; reflexivity]|].
  destruct G as (db' & _ & _ & _ & Hids).
  assert (Hlen : length new = 2).
  { pose proof (E eq_refl (ex_intro _ _ eq_refl)) as Hd.
    apply (f_equal (@length pyval)) in Hd. unfold stored_data in Hd.
    rewrite length_map in Hd. exact Hd. }
  rewrite Hids, Hlen. reflexivity.
Defined.

(** X15 on a hook whose snapshot would not serialise: with nothing switched
    on it is not even looked at. *)
Lemma hooks_idle_when_disabled_witness :
  Callbacks.fire clock (BeforeAgent ctx_bytes) (hub false false) = (inr tt, hub false false).
Proof.
  apply (hooks_idle_when_disabled clock (BeforeAgent ctx_bytes) (hub false false));
    reflexivity.
Defined.

(** X17 on a stream of a progress step and a final text. *)
Lemma closing_update_is_last_witness :
  exists body tail,
    event_queue (snd (Executor.run_loop json_loads no_images
                        [partial_step (PStr "thinking"); final_step (PStr "here you are")]
                        quiet))
      = (body ++ tail)%list /\
    forallb (fun e => negb (closing e)) body = true /\
    length tail <= 1.
Proof.
  destruct (closing_update_is_last json_loads no_images
              [partial_step (PStr "thinking"); final_step (PStr "here you are")]
              (fun content evs H =>
                 match H in _ = r return match r with inr evs' => final_updates evs' = []
                                                  | inl _ => True end
                 with eq_refl => eq_refl end)
              quiet
              (fst (Executor.run_loop json_loads no_images
                      [partial_step (PStr "thinking"); final_step (PStr "here you are")]
                      quiet))
              (snd (Executor.run_loop json_loads no_images
                      [partial_step (PStr "thinking"); final_step (PStr "here you are")]
                      quiet)))
    as (body & tail & Hq & Hbody & Htail); [vm_compute; reflexivity|].
  exists body, tail. split; [exact Hq|]. split; [exact Hbody|].
  destruct Htail as [-> | (e & -> & _)]; simpl; lia.
Defined.

(** X18 on a stream of two steps, neither of them final. *)
Lemma stream_without_final_step_witness :
  final_updates
    (event_queue (snd (Executor.run_loop json_loads no_images
                         [partial_step (PStr "thinking"); partial_step (PStr "searching")]
                         quiet))) = [] /\
  Executor.steps_processed json_loads no_images
    [partial_step (PStr "thinking"); partial_step (PStr "searching")] quiet = 2.
Proof.
  destruct (stream_without_final_step json_loads no_images
              [partial_step (PStr "thinking"); partial_step (PStr "searching")]
              (fun content evs H =>
                 match H in _ = r return match r with inr evs' => final_updates evs' = []
                                                  | inl _ => True end
                 with eq_refl => eq_refl end)
              ltac:(repeat constructor)
              quiet (inr tt)
              (snd (Executor.run_loop json_loads no_images
                      [partial_step (PStr "thinking"); partial_step (PStr "searching")]
                      quiet)))
    as [Hf Hn]; [vm_compute; reflexivity|].
  split; [exact Hf | exact (Hn eq_refl)].
Defined.

(** X19 on a progress text that happens to contain the word. *)
Lemma partial_step_scan_witness :
  Executor.run_loop json_loads (Images._find_and_add_images traverse)
    [partial_step (PStr "waiting for the response"); final_step (PStr "done")] quiet
  = (inl (TypeError "string indices must be integers"),
     flushed (partial_step (PStr "waiting for the response")) quiet).
Proof.
  destruct (partial_step_scan json_loads traverse
              (partial_step (PStr "waiting for the response"))
              [final_step (PStr "done")] quiet) as [Htext _]; [reflexivity|].
  exact (Htext "waiting for the response" eq_refl).
Defined.

(** X21 on [_before_model] with an executor set and the store open: four
    rows for two values, one progress line. *)
Lemma module_callback_records_twice_witness :
  exists new t,
    stored_data new
      = [PDict [("author", PStr "leon")]; llm_request;
         PDict [("author", PStr "leon")]; llm_request] /\
    ExecutorHooks._executor
      (snd (ExecutorHooks.call clock (ExecutorHooks.MBeforeModel ctx_plain llm_request)
              with_executor))
      = Some [(t, "host_agent 开始调用大模型")].
Proof.
  destruct (module_callback_records_twice clock
              (ExecutorHooks.MBeforeModel ctx_plain llm_request) with_executor []
              (inr tt)
              (snd (ExecutorHooks.call clock
                      (ExecutorHooks.MBeforeModel ctx_plain llm_request) with_executor)))
    as (new & _ & _ & E & t & Ht); [reflexivity | vm_compute; reflexivity |].
  exists new, t. split; [apply E; eexists; reflexivity | exact Ht].
Defined.

End FurtherExamples.
